(** * Sentiment-analysis API: text cleaning, bad-prediction reports, e-mail retry

    A shallow embedding of [cleaning.py], [database.py], [email_service.py]
    and the handlers of [api.py] ([/report-bad-prediction], [/predict],
    [/health]), with the properties of the design document proved (or
    refuted) on it, and further properties read off the code.

    Conventions.
    - A Python [str] is a list of Unicode code points ([N]).  The ASCII part
      of every character table is written out; what CPython looks up in its
      Unicode database for code points above U+007F is the interface
      [UnicodeData].
    - NLTK ([stopwords], [word_tokenize], the WordNet lemmatizer, the Porter
      stemmer) is a third-party package: it is the interface [Nltk], and
      what a theorem needs from it is an explicit hypothesis.
    - SQLite integers are unbounded [Z] (the 64-bit limit is out of reach of
      a counter that advances by one per request).
    - Requests are handled one at a time; a store operation does not fault. *)

From Stdlib Require Import List NArith ZArith Bool Lia String Ascii.
From Stdlib Require Import Floats.PrimFloat.
From Stdlib Require Import Sorted Permutation.
Import ListNotations.

(* ================================================================== *)
(** * Python strings *)
(* ================================================================== *)

Module Py.

Definition char := N.
Definition str := list char.

(** An ASCII literal as a [str]. *)
Definition u (s : string) : str :=
  map N_of_ascii (list_ascii_of_string s).

Fixpoint str_eqb (a b : str) : bool :=
  match a, b with
  | [], [] => true
  | x :: a', y :: b' => N.eqb x y && str_eqb a' b'
  | _, _ => false
  end.

(** [w in collection] *)
Definition mem (w : str) (l : list str) : bool := existsb (str_eqb w) l.

(** [c in "…"] for a single character. *)
Definition in_class (cls : str) (c : char) : bool := existsb (N.eqb c) cls.

Fixpoint strip_prefix (p s : str) : option str :=
  match p, s with
  | [], _ => Some s
  | x :: p', y :: s' => if N.eqb x y then strip_prefix p' s' else None
  | _ :: _, [] => None
  end.

Fixpoint drop_while (f : char -> bool) (s : str) : str :=
  match s with
  | [] => []
  | c :: r => if f c then drop_while f r else s
  end.

(** ASCII rows of the character tables. *)
Definition ascii_isspace (c : char) : bool :=
  ((9 <=? c) && (c <=? 13) || (28 <=? c) && (c <=? 32))%N.

Definition ascii_isdigit (c : char) : bool := ((48 <=? c) && (c <=? 57))%N.

Definition ascii_isupper (c : char) : bool := ((65 <=? c) && (c <=? 90))%N.

Definition ascii_isalnum (c : char) : bool :=
  (ascii_isdigit c || ascii_isupper c || (97 <=? c) && (c <=? 122))%N.

Definition ascii_lower (c : char) : char :=
  if ascii_isupper c then (c + 32)%N else c.

(** [string.punctuation]: the 32 ASCII punctuation characters, U+0021 to
    U+002F, U+003A to U+0040, U+005B to U+0060 and U+007B to U+007E. *)
Definition string_punctuation : str :=
  [33; 34; 35; 36; 37; 38; 39; 40; 41; 42; 43; 44; 45; 46; 47;
   58; 59; 60; 61; 62; 63; 64;
   91; 92; 93; 94; 95; 96;
   123; 124; 125; 126]%N.

(** U+2019 RIGHT SINGLE QUOTATION MARK *)
Definition rsquo : char := 8217%N.

End Py.

(* ================================================================== *)
(** * A fragment of Python's [re]: what the patterns of cleaning.py use *)
(* ================================================================== *)

Module Re.
Import Py.

(** Patterns.  [Plus] and [Opt] are greedy and backtrack, [Alt] tries its
    left branch first, as in [re]. *)
Inductive re : Type :=
| Eps                            (* the empty pattern *)
| Lit (c : char)                 (* a literal character *)
| Cls (f : char -> bool)         (* a character class *)
| Seq (a b : re)
| Alt (a b : re)
| Opt (a : re)                   (* a? *)
| Plus (f : char -> bool)        (* [class]+ *)
| NotBehind (f : char -> bool)   (* (?<!class) *)
| NotAhead (f : char -> bool).   (* (?!class) *)

Fixpoint lit (s : str) : re :=
  match s with
  | [] => Eps
  | c :: r => Seq (Lit c) (lit r)
  end.

(** A continuation receives the character before the current position, the
    remaining input and the number of characters consumed so far. *)
Definition cont := option char -> str -> nat -> option nat.

(** [f*] followed by [k], longest first. *)
Fixpoint star (f : char -> bool) (k : cont) (prev : option char) (s : str)
  (n : nat) : option nat :=
  match s with
  | c :: r =>
      if f c then
        match star f k (Some c) r (S n) with
        | Some m => Some m
        | None => k prev s n
        end
      else k prev s n
  | [] => k prev s n
  end.

Fixpoint run (r : re) (k : cont) (prev : option char) (s : str) (n : nat)
  : option nat :=
  match r with
  | Eps => k prev s n
  | Lit c =>
      match s with
      | d :: s' => if N.eqb c d then k (Some d) s' (S n) else None
      | [] => None
      end
  | Cls f =>
      match s with
      | d :: s' => if f d then k (Some d) s' (S n) else None
      | [] => None
      end
  | Seq a b => run a (run b k) prev s n
  | Alt a b =>
      match run a k prev s n with
      | Some m => Some m
      | None => run b k prev s n
      end
  | Opt a =>
      match run a k prev s n with
      | Some m => Some m
      | None => k prev s n
      end
  | Plus f =>
      match s with
      | d :: s' => if f d then star f k (Some d) s' (S n) else None
      | [] => None
      end
  | NotBehind f =>
      match prev with
      | Some p => if f p then None else k prev s n
      | None => k prev s n
      end
  | NotAhead f =>
      match s with
      | d :: _ => if f d then None else k prev s n
      | [] => k prev s n
      end
  end.

(** Length of the match of [r] that starts at the current position. *)
Definition match_here (r : re) (prev : option char) (s : str) : option nat :=
  run r (fun _ _ n => Some n) prev s 0.

(** A literal needle, for [str.replace]. *)
Definition match_literal (key : str) (_ : option char) (s : str) : option nat :=
  match strip_prefix key s with
  | Some _ => Some (List.length key)
  | None => None
  end.

(** Left-to-right replacement of the non-overlapping, non-empty matches:
    [skip] counts the characters of the current match still to be dropped.
    No pattern of cleaning.py matches the empty string. *)
Fixpoint sub_from (m : option char -> str -> option nat) (repl : str)
  (prev : option char) (skip : nat) (s : str) : str :=
  match s with
  | [] => []
  | c :: rest =>
      match skip with
      | S k => sub_from m repl (Some c) k rest
      | O =>
          match m prev s with
          | Some (S n) => repl ++ sub_from m repl (Some c) n rest
          | _ => c :: sub_from m repl (Some c) O rest
          end
      end
  end.

(** [re.sub(pattern, repl, text)] *)
Definition sub (r : re) (repl text : str) : str :=
  sub_from (match_here r) repl None 0 text.

(** [text.replace(key, value)] for a non-empty key *)
Definition replace (key value text : str) : str :=
  sub_from (match_literal key) value None 0 text.

End Re.

(* ================================================================== *)
(** * cleaning.py *)
(* ================================================================== *)

Module Cleaning.
Import Py Re.

(** CPython's Unicode database, consulted above U+007F only: [str.isspace],
    [str.isalnum], [str.isdigit] of one character, and the lowercase mapping
    of a character standing between the text before and the text after it
    (the mapping of U+03A3 depends on both). *)
Class UnicodeData := {
  uni_isspace : char -> bool;
  uni_isalnum : char -> bool;
  uni_isdigit : char -> bool;
  uni_lower : str -> char -> str -> str
}.

(** NLTK: [stopwords.words('english')], [word_tokenize],
    [WordNetLemmatizer().lemmatize] and [PorterStemmer().stem]. *)
Class Nltk := {
  english_stopwords : list str;
  word_tokenize : str -> list str;
  lemmatize : str -> str;
  stem : str -> str
}.

Definition words_to_keep : list str :=
  [ u "ok"; u "okay";
    u "not"; u "no"; u "nor"; u "but";
    u "don"; u "don't"; u "ain"; u "aren"; u "aren't"; u "couldn"; u "couldn't";
    u "didn"; u "didn't"; u "doesn"; u "doesn't"; u "hadn"; u "hadn't"; u "hasn"; u "hasn't";
    u "haven"; u "haven't"; u "isn"; u "isn't"; u "mightn"; u "mightn't"; u "mustn"; u "mustn't";
    u "needn"; u "needn't"; u "shan"; u "shan't"; u "shouldn"; u "shouldn't"; u "wasn"; u "wasn't";
    u "weren"; u "weren't"; u "won"; u "won't"; u "wouldn"; u "wouldn't" ].

(** A [dict] iterates in insertion order. *)
Definition contractions_dict : list (str * str) :=
  [ (u "i'm", u "i am");
    (u "can't", u "cannot");
    (u "won't", u "will not");
    (u "it's", u "it is");
    (u "don't", u "do not") ].

Definition tokensmileyhappy : str := u "tokensmileyhappy".
Definition tokensmileysad : str := u "tokensmileysad".

(** [punctuation = punctuation + U+2019] *)
Definition punctuation : str := string_punctuation ++ [rsquo].

Definition is_ascii (c : char) : bool := (c <? 128)%N.

(** [\s] and [str.isspace] *)
Definition isspace `{UnicodeData} (c : char) : bool :=
  if is_ascii c then ascii_isspace c else uni_isspace c.

(** [\S] *)
Definition nonspace `{UnicodeData} (c : char) : bool := negb (isspace c).

(** [\w] *)
Definition isword `{UnicodeData} (c : char) : bool :=
  if is_ascii c then ascii_isalnum c || (c =? 95)%N else uni_isalnum c.

(** [word.isdigit()]: at least one character, all of them digits *)
Definition isdigit `{UnicodeData} (w : str) : bool :=
  match w with
  | [] => false
  | _ => forallb (fun c => if is_ascii c then ascii_isdigit c else uni_isdigit c) w
  end.

Definition lower_char `{UnicodeData} (before : str) (c : char) (after : str) : str :=
  if is_ascii c then [ascii_lower c] else uni_lower before c after.

Fixpoint lower_from `{UnicodeData} (before s : str) : str :=
  match s with
  | [] => []
  | c :: rest => lower_char before c rest ++ lower_from (before ++ [c]) rest
  end.

(** [text.lower()] *)
Definition lower `{UnicodeData} (s : str) : str := lower_from [] s.

(** [text.strip()] *)
Definition strip `{UnicodeData} (s : str) : str :=
  rev (drop_while isspace (rev (drop_while isspace s))).

(** [text.translate(str.maketrans('', '', chars))] *)
Definition translate_delete (chars s : str) : str :=
  filter (fun c => negb (in_class chars c)) s.

(** [https?://\S+|www\.\S+] *)
Definition url_pattern `{UnicodeData} : re :=
  Alt (Seq (lit (u "http"))
         (Seq (Opt (Lit 115%N)) (Seq (lit (u "://")) (Plus nonspace))))
      (Seq (lit (u "www.")) (Plus nonspace)).

(** [@\w+] *)
Definition mention_pattern `{UnicodeData} : re := Seq (Lit 64%N) (Plus isword).

(** [#\w+] *)
Definition hashtag_pattern `{UnicodeData} : re := Seq (Lit 35%N) (Plus isword).

(** [(?<!\S)(?:[:;=8][-]?[\)D\]}pP3]|<3)(?!\S)] *)
Definition happy_pattern `{UnicodeData} : re :=
  Seq (NotBehind nonspace)
    (Seq (Alt (Seq (Cls (in_class (u ":;=8")))
                 (Seq (Opt (Cls (in_class (u "-"))))
                      (Cls (in_class (u ")D]}pP3")))))
              (lit (u "<3")))
         (NotAhead nonspace)).

(** [(?<!\S)[:;=8][-]?[\(\[/{|c](?!\S)] *)
Definition sad_pattern `{UnicodeData} : re :=
  Seq (NotBehind nonspace)
    (Seq (Cls (in_class (u ":;=8")))
         (Seq (Opt (Cls (in_class (u "-"))))
              (Seq (Cls (in_class (u "([/{|c")))
                   (NotAhead nonspace)))).

(** [\s+] *)
Definition spaces_pattern `{UnicodeData} : re := Plus isspace.

(** [stop_words = set(stopwords.words('english')) - words_to_keep] *)
Definition in_stop_words `{Nltk} (w : str) : bool :=
  mem w english_stopwords && negb (mem w words_to_keep).

(** The loop over [contractions_dict.items()]. *)
Definition expand_contractions (text : str) : str :=
  fold_left (fun t kv => replace (fst kv) (snd kv) t) contractions_dict text.

(** Lines 41 to 56 of [clean_text]: the text handed to [word_tokenize]. *)
Definition normalized_text `{UnicodeData} (text : str) : str :=
  let text := sub url_pattern [] text in
  let text := sub mention_pattern [] text in
  let text := sub hashtag_pattern [] text in
  let text := sub happy_pattern tokensmileyhappy text in
  let text := sub sad_pattern tokensmileysad text in
  let text := lower text in
  let text := expand_contractions text in
  let text := sub spaces_pattern (u " ") text in
  let text := strip text in
  let text := translate_delete punctuation text in
  let text := replace [rsquo] [] text in
  text.

(** The condition of the list comprehension. *)
Definition keep_token `{UnicodeData} `{Nltk} (word : str) : bool :=
  negb (in_stop_words word)
  && negb (isdigit word)
  && ((2 <? List.length word)%nat || mem word words_to_keep).

Definition clean_text `{UnicodeData} `{Nltk} (text : str) (processing : str)
  : list str :=
  let text := normalized_text text in
  let processor :=
    if str_eqb processing (u "stemmer") then stem else lemmatize in
  map processor (filter keep_token (word_tokenize text)).

(** The default [processing = "lemmatizer"]. *)
Definition clean_text_default `{UnicodeData} `{Nltk} (text : str) : list str :=
  clean_text text (u "lemmatizer").

(** ** What the design document says of a token, and what is asked of
    Unicode and of NLTK *)

(** No character of [punctuation], that is of the 33 characters the code
    deletes: the 32 of [string.punctuation] and U+2019.  Punctuation in a
    wider sense is [punctuation_character]. *)
Definition no_punct (t : str) : Prop :=
  Forall (fun c => in_class punctuation c = false) t.

(** A character that [str.lower] leaves alone. *)
Definition lowercase_char `{UnicodeData} (c : char) : Prop :=
  lower_char [] c [] = [c].

Definition lowercase `{UnicodeData} (t : str) : Prop :=
  Forall lowercase_char t.

Definition token_ok `{UnicodeData} (t : str) : Prop :=
  lowercase t /\ no_punct t.

(** Lowercasing yields characters that are lowercase already. *)
Definition lower_is_idempotent `{UnicodeData} : Prop :=
  forall before c after,
    is_ascii c = false -> lowercase (uni_lower before c after).

(** On a text without punctuation [word_tokenize] only cuts: a token is
    made of characters of the text.  (Its quote rewriting needs an ASCII
    quote to fire.) *)
Definition tokenizer_only_cuts `{Nltk} : Prop :=
  forall s, no_punct s ->
    forall t c, In t (word_tokenize s) -> In c t -> In c s.

Definition tokenizer_empty `{Nltk} : Prop := word_tokenize [] = [].

(** A stemmer or lemmatizer maps a lowercase, punctuation-free word to
    one. *)
Definition keeps_token_form `{UnicodeData} (processor : str -> str) : Prop :=
  forall w, token_ok w -> token_ok (processor w).

(** The sentinel is one word for [word_tokenize] and no stopword. *)
Definition happy_sentinel_is_a_word `{Nltk} : Prop :=
  word_tokenize tokensmileyhappy = [tokensmileyhappy]
  /\ mem tokensmileyhappy english_stopwords = false.

(** [processor] as [clean_text] selects it. *)
Definition processor_of `{Nltk} (processing : str) : str -> str :=
  if str_eqb processing (u "stemmer") then stem else lemmatize.

(** U+0027 occurs in the word. *)
Definition has_apostrophe (w : str) : bool := existsb (N.eqb 39%N) w.

Definition apostrophed_keep_words : list str :=
  filter has_apostrophe words_to_keep.

Definition plain_keep_words : list str :=
  filter (fun w => negb (has_apostrophe w)) words_to_keep.

(** [key in contractions_dict] *)
Definition is_contraction_key (w : str) : bool :=
  mem w (map fst contractions_dict).

(** Eyes, an optional dash, a mouth. *)
Definition glyphs (eyes mouths : str) : list str :=
  flat_map (fun e => flat_map (fun m => [[e; m]; [e; 45%N; m]]) mouths) eyes.

(** Every string [happy_pattern] is written to accept. *)
Definition happy_glyphs : list str :=
  glyphs (u ":;=8") (u ")D]}pP3") ++ [u "<3"].

(** Every string [sad_pattern] is written to accept. *)
Definition sad_glyphs : list str := glyphs (u ":;=8") (u "([/{|c").

(** The glyphs the comments of lines 31 and 32 (and the design document)
    list. *)
Definition listed_happy_glyphs : list str :=
  [u ":)"; u ":-)"; u ":D"; u ":]"; u "=]"; u ";)"; u ":p"; u ":P"; u ":3"; u "<3"].

Definition listed_sad_glyphs : list str :=
  [u ":("; u ":-("; u ":["; u "=["; u ":/"; u ":{"; u ":|"; u ":c"].

(** The ASCII characters [\s] matches. *)
Definition ascii_whitespace : str := [9; 10; 11; 12; 13; 28; 29; 30; 31; 32]%N.

(** A glyph with one space on either side. *)
Definition flanked (g : str) : str := u " " ++ g ++ u " ".

(** Punctuation that [punctuation] does not hold: characters of the
    Unicode general category P which neither [string.punctuation] nor
    line 36 names (U+00A1, U+00AB, U+00BB, U+00BF, the dashes U+2013 and
    U+2014, the quotation marks U+2018, U+201C and U+201D, the ellipsis
    U+2026). *)
Definition other_punctuation : str :=
  [161; 171; 187; 191; 8211; 8212; 8216; 8220; 8221; 8230]%N.

(** A punctuation character in the wide sense of the design document:
    one the code deletes or one of [other_punctuation]. *)
Definition punctuation_character (c : char) : bool :=
  in_class punctuation c || in_class other_punctuation c.

(** No punctuation character in the wide sense. *)
Definition punctuation_free (t : str) : Prop :=
  Forall (fun c => punctuation_character c = false) t.

(** Lines 41 to 54 of [clean_text]: the text just before its punctuation
    is deleted, contractions expanded and whitespace put in order. *)
Definition text_before_punctuation `{UnicodeData} (text : str) : str :=
  let text := sub url_pattern [] text in
  let text := sub mention_pattern [] text in
  let text := sub hashtag_pattern [] text in
  let text := sub happy_pattern tokensmileyhappy text in
  let text := sub sad_pattern tokensmileysad text in
  let text := lower text in
  let text := expand_contractions text in
  let text := sub spaces_pattern (u " ") text in
  let text := strip text in
  text.

(** The condition of the list comprehension with another set in the place
    of [words_to_keep], in line 35 and in line 68. *)
Definition keep_token_with `{UnicodeData} `{Nltk} (keep : list str)
  (word : str) : bool :=
  negb (mem word english_stopwords && negb (mem word keep))
  && negb (isdigit word)
  && ((2 <? List.length word)%nat || mem word keep).

End Cleaning.

(* ================================================================== *)
(** * The process and what surrounds it *)
(* ================================================================== *)

Module Runtime.
Import Py.

(** A row of [bad_predictions].  [timestamp] is [CURRENT_TIMESTAMP], whose
    resolution is one second, counted here in seconds. *)
Record Row := {
  id : Z;
  text : str;
  predicted_sentiment : str;
  confidence_score : float;
  timestamp : Z
}.

(** The row [id = 1] of [email_tracker]. *)
Record Tracker := {
  report_count : Z;
  last_email_sent : option Z
}.

(** The SQLite file once its tables exist.  [bad_predictions] is kept in
    rowid order, [sqlite_sequence] is the largest rowid AUTOINCREMENT has
    handed out, [email_tracker] holds at most the row [id = 1] (its CHECK
    constraint). *)
Record Sqlite := {
  bad_predictions : list Row;
  sqlite_sequence : Z;
  email_tracker : option Tracker
}.

(** What one call of [send_transac_email] does. *)
Inductive Delivery :=
| Delivered
| ApiException (status : Z)
| OtherException.

(** What the handler does that can be seen from outside, in order. *)
Inductive Event :=
| EvInsert (r : Row)
| EvIncrement (count : Z)
| EvSelectRecent (limit : nat)
| EvNotify (predictions : list Row)
| EvSendAttempt (attempt : nat)
| EvSleep (seconds : Z)
| EvUpdateLastEmailSent.

(** [clock] is the wall clock in seconds; [brevo n] is the outcome of the
    [n]-th call of [send_transac_email] since the process started and
    [brevo_calls] counts them; [configuration_raises] says whether
    [brevo_python.Configuration()] raises. *)
Record World := {
  database : Sqlite;
  clock : Z;
  BREVO_API_KEY : option str;
  EMAIL_RECIPIENT : option str;
  configuration_raises : bool;
  brevo : nat -> Delivery;
  brevo_calls : nat;
  trace : list Event
}.

Inductive Exn :=
| HTTPException (status_code : Z)
| TypeError.

Inductive Result (A : Type) :=
| Ok (a : A)
| Raise (e : Exn).
Arguments Ok {A} a.
Arguments Raise {A} e.

(** Computations that read and write the world and may raise. *)
Definition M (A : Type) : Type := World -> Result A * World.

Definition ret {A} (a : A) : M A := fun w => (Ok a, w).

Definition raise {A} (e : Exn) : M A := fun w => (Raise e, w).

Definition bind {A B} (m : M A) (k : A -> M B) : M B :=
  fun w =>
    match m w with
    | (Ok a, w') => k a w'
    | (Raise e, w') => (Raise e, w')
    end.

(** [try: m except ...: h] *)
Definition try_except {A} (m : M A) (h : Exn -> M A) : M A :=
  fun w =>
    match m w with
    | (Ok a, w') => (Ok a, w')
    | (Raise e, w') => h e w'
    end.

Definition get : M World := fun w => (Ok w, w).

Definition set_database (d : Sqlite) : M unit :=
  fun w => (Ok tt,
            {| database := d; clock := clock w;
               BREVO_API_KEY := BREVO_API_KEY w;
               EMAIL_RECIPIENT := EMAIL_RECIPIENT w;
               configuration_raises := configuration_raises w;
               brevo := brevo w; brevo_calls := brevo_calls w;
               trace := trace w |}).

Definition log (e : Event) : M unit :=
  fun w => (Ok tt,
            {| database := database w; clock := clock w;
               BREVO_API_KEY := BREVO_API_KEY w;
               EMAIL_RECIPIENT := EMAIL_RECIPIENT w;
               configuration_raises := configuration_raises w;
               brevo := brevo w; brevo_calls := brevo_calls w;
               trace := trace w ++ [e] |}).

(** [time.sleep(seconds)] *)
Definition sleep (seconds : Z) : M unit :=
  fun w => (Ok tt,
            {| database := database w; clock := (clock w + seconds)%Z;
               BREVO_API_KEY := BREVO_API_KEY w;
               EMAIL_RECIPIENT := EMAIL_RECIPIENT w;
               configuration_raises := configuration_raises w;
               brevo := brevo w; brevo_calls := brevo_calls w;
               trace := trace w ++ [EvSleep seconds] |}).

(** [api_instance.send_transac_email(email)] *)
Definition send_transac_email (attempt : nat) : M Delivery :=
  fun w => (Ok (brevo w (brevo_calls w)),
            {| database := database w; clock := clock w;
               BREVO_API_KEY := BREVO_API_KEY w;
               EMAIL_RECIPIENT := EMAIL_RECIPIENT w;
               configuration_raises := configuration_raises w;
               brevo := brevo w; brevo_calls := S (brevo_calls w);
               trace := trace w ++ [EvSendAttempt attempt] |}).

Declare Scope py_scope.
Delimit Scope py_scope with py.
Notation "x <- m ;; k" := (bind m (fun x => k))
  (at level 61, m at next level, right associativity) : py_scope.
Notation "m ;;; k" := (bind m (fun _ => k))
  (at level 61, right associativity) : py_scope.

(** ** Reading a trace *)

(** The lists handed to the Notifier, one per invocation. *)
Definition notified (tr : list Event) : list (list Row) :=
  flat_map (fun e => match e with EvNotify p => [p] | _ => [] end) tr.

(** The waits, in seconds. *)
Definition sleeps (tr : list Event) : list Z :=
  flat_map (fun e => match e with EvSleep s => [s] | _ => [] end) tr.

(** The attempts made, by number. *)
Definition attempts_made (tr : list Event) : list nat :=
  flat_map (fun e => match e with EvSendAttempt k => [k] | _ => [] end) tr.

(** The rows inserted. *)
Definition inserted (tr : list Event) : list Row :=
  flat_map (fun e => match e with EvInsert r => [r] | _ => [] end) tr.

(** The counter values the increments returned. *)
Definition increments (tr : list Event) : list Z :=
  flat_map (fun e => match e with EvIncrement c => [c] | _ => [] end) tr.

(** Events of a delivery: attempts and waits. *)
Definition is_delivery_event (e : Event) : bool :=
  match e with
  | EvSendAttempt _ | EvSleep _ => true
  | _ => false
  end.

End Runtime.

(* ================================================================== *)
(** * database.py *)
(* ================================================================== *)

Module Database.
Import Py Runtime.
Local Open Scope py_scope.
Local Open Scope Z_scope.

(** A file with no table is, for every function below, the same as tables
    that hold no row: [init_database] creates them if they do not exist. *)
Definition empty_database : Sqlite :=
  {| bad_predictions := []; sqlite_sequence := 0; email_tracker := None |}.

(** [CREATE TABLE IF NOT EXISTS] twice, then the tracker row [(1, 0)]
    when the count of rows of [email_tracker] is 0. *)
Definition init_database : M unit :=
  w <- get ;;
  let d := database w in
  match email_tracker d with
  | None =>
      set_database
        {| bad_predictions := bad_predictions d;
           sqlite_sequence := sqlite_sequence d;
           email_tracker := Some {| report_count := 0; last_email_sent := None |} |}
  | Some _ => ret tt
  end.

(** [INSERT INTO bad_predictions (text, predicted_sentiment,
    confidence_score)]; returns [cursor.lastrowid]. *)
Definition insert_bad_prediction (text sentiment : str) (confidence : float)
  : M Z :=
  w <- get ;;
  let d := database w in
  let row_id := sqlite_sequence d + 1 in
  let r := {| id := row_id; text := text; predicted_sentiment := sentiment;
              confidence_score := confidence; timestamp := clock w |} in
  set_database
    {| bad_predictions := bad_predictions d ++ [r];
       sqlite_sequence := row_id;
       email_tracker := email_tracker d |} ;;;
  log (EvInsert r) ;;;
  ret row_id.

(** The place of a row among rows already ordered by [timestamp DESC]:
    behind every row that is not older.  SQLite visits rows with equal keys
    in rowid order, both through [idx_timestamp] and through a table scan. *)
Fixpoint insert_by_timestamp_desc (r : Row) (l : list Row) : list Row :=
  match l with
  | [] => [r]
  | x :: l' =>
      if timestamp x <? timestamp r then r :: l
      else x :: insert_by_timestamp_desc r l'
  end.

(** [ORDER BY timestamp DESC] over the rows taken in rowid order. *)
Definition order_by_timestamp_desc (rows : list Row) : list Row :=
  fold_left (fun acc r => insert_by_timestamp_desc r acc) rows [].

(** [SELECT text, predicted_sentiment, confidence_score, timestamp FROM
    bad_predictions ORDER BY timestamp DESC LIMIT ?].  The dictionaries
    returned carry the four selected columns; a [Row] stands for them, its
    [id] being of use to the proofs only. *)
Definition get_recent_bad_predictions (limit : nat) : M (list Row) :=
  w <- get ;;
  log (EvSelectRecent limit) ;;;
  ret (firstn limit (order_by_timestamp_desc (bad_predictions (database w)))).

(** [UPDATE email_tracker SET report_count = report_count + 1 WHERE id = 1],
    then [SELECT report_count ... WHERE id = 1] and the subscript of
    [fetchone()], which raises on [None] before the commit. *)
Definition increment_email_counter : M Z :=
  w <- get ;;
  let d := database w in
  match email_tracker d with
  | Some t =>
      let count := report_count t + 1 in
      set_database
        {| bad_predictions := bad_predictions d;
           sqlite_sequence := sqlite_sequence d;
           email_tracker :=
             Some {| report_count := count;
                     last_email_sent := last_email_sent t |} |} ;;;
      log (EvIncrement count) ;;;
      ret count
  | None => raise TypeError
  end.

(** [SELECT report_count FROM email_tracker WHERE id = 1] *)
Definition get_email_counter : M Z :=
  w <- get ;;
  match email_tracker (database w) with
  | Some t => ret (report_count t)
  | None => raise TypeError
  end.

(** [UPDATE email_tracker SET last_email_sent = CURRENT_TIMESTAMP
    WHERE id = 1] *)
Definition update_last_email_sent : M unit :=
  w <- get ;;
  let d := database w in
  log EvUpdateLastEmailSent ;;;
  match email_tracker d with
  | Some t =>
      set_database
        {| bad_predictions := bad_predictions d;
           sqlite_sequence := sqlite_sequence d;
           email_tracker :=
             Some {| report_count := report_count t;
                     last_email_sent := Some (clock w) |} |}
  | None => ret tt
  end.

(** The counter, 0 when the tracker row is missing. *)
Definition counter (d : Sqlite) : Z :=
  match email_tracker d with
  | Some t => report_count t
  | None => 0
  end.

End Database.

(* ================================================================== *)
(** * email_service.py *)
(* ================================================================== *)

Module EmailService.
Import Py Runtime.
Local Open Scope py_scope.

(** The body of [for attempt in range(1, max_attempts + 1)], over the
    attempts that remain. *)
Fixpoint send_attempts (attempts : list nat) (max_attempts : nat) : M bool :=
  match attempts with
  | [] => ret false
  | attempt :: rest =>
      r <- send_transac_email attempt ;;
      match r with
      | Delivered => ret true
      | ApiException status =>
          if (status =? 401)%Z then ret false
          else if (status =? 429)%Z then
            if (attempt <? max_attempts)%nat then
              let wait_time := (2 ^ Z.of_nat attempt)%Z in
              sleep wait_time ;;; send_attempts rest max_attempts
            else ret false
          else
            if (attempt <? max_attempts)%nat then
              let wait_time := (2 ^ Z.of_nat attempt)%Z in
              sleep wait_time ;;; send_attempts rest max_attempts
            else ret false
      | OtherException =>
          if (attempt <? max_attempts)%nat then
            let wait_time := (2 ^ Z.of_nat attempt)%Z in
            sleep wait_time ;;; send_attempts rest max_attempts
          else ret false
      end
  end.

(** [max_attempts] is a count: a negative one iterates as often as 0. *)
Definition _send_with_retry (max_attempts : nat) : M bool :=
  send_attempts (seq 1 max_attempts) max_attempts.

(** [if not api_key]: unset or empty. *)
Definition falsy (v : option str) : bool :=
  match v with
  | None => true
  | Some [] => true
  | Some (_ :: _) => false
  end.

(** The HTML of [_create_email_html] is a function of [predictions] alone
    and does not bear on the outcome; the e-mail is not carried further. *)
Definition send_bad_predictions_email (predictions : list Row) : M bool :=
  log (EvNotify predictions) ;;;
  w <- get ;;
  if falsy (BREVO_API_KEY w) then ret false
  else if falsy (EMAIL_RECIPIENT w) then ret false
  else if configuration_raises w then ret false
  else _send_with_retry 3.

(** The provider answers [outcomes] to the next calls, in order. *)
Definition answers_next (w : World) (outcomes : list Delivery) : Prop :=
  forall i d, nth_error outcomes i = Some d ->
              brevo w (i + brevo_calls w) = d.

(** Both environment variables are set and the client can be configured. *)
Definition configured (w : World) : bool :=
  negb (falsy (BREVO_API_KEY w)) && negb (falsy (EMAIL_RECIPIENT w))
  && negb (configuration_raises w).

(** [2 ** attempt] *)
Definition backoff (attempt : nat) : Z := (2 ^ Z.of_nat attempt)%Z.

Definition rate_limited : Delivery := ApiException 429.

End EmailService.

(* ================================================================== *)
(** * api.py: [POST /report-bad-prediction] *)
(* ================================================================== *)

Module Api.
Import Py Runtime Database EmailService.
Local Open Scope py_scope.

Record BadPredictionRequest := {
  text : str;
  predicted_sentiment : str;
  confidence_score : float
}.

(** The three messages of the handler; [Pending count] is the f-string
    that shows [count]/3. *)
Inductive Message :=
| EmailSentMessage
| EmailFailedMessage
| Pending (count : Z).

Record BadPredictionResponse := {
  success : bool;
  message : Message;
  report_count : Z;
  email_sent : option bool
}.

Definition positif : str := u "positif".

(** The second label has U+00E9 as its second character. *)
Definition negatif : str := u "n" ++ [233%N] ++ u "gatif".

(** [request.predicted_sentiment in [positif, negatif]] *)
Definition sentiment_ok (s : str) : bool := mem s [positif; negatif].

(** [0.0 <= request.confidence_score <= 1.0] on binary64 floats *)
Definition confidence_ok (c : float) : bool :=
  PrimFloat.leb 0%float c && PrimFloat.leb c 1%float.

Definition report_bad_prediction (request : BadPredictionRequest)
  : M BadPredictionResponse :=
  try_except
    ((if negb (sentiment_ok (predicted_sentiment request))
      then raise (HTTPException 400) else ret tt) ;;;
     (if negb (confidence_ok (confidence_score request))
      then raise (HTTPException 400) else ret tt) ;;;
     row_id <- insert_bad_prediction (text request)
                 (predicted_sentiment request) (confidence_score request) ;;
     count <- increment_email_counter ;;
     if (count mod 3 =? 0)%Z then
       recent <- get_recent_bad_predictions 3 ;;
       sent <- send_bad_predictions_email recent ;;
       if sent then
         update_last_email_sent ;;;
         ret {| success := true; message := EmailSentMessage;
                report_count := count; email_sent := Some true |}
       else
         ret {| success := true; message := EmailFailedMessage;
                report_count := count; email_sent := Some false |}
     else
       ret {| success := true; message := Pending count;
              report_count := count; email_sent := Some false |})
    (fun e =>
       match e with
       | HTTPException status => raise (HTTPException status)
       | _ => raise (HTTPException 500)
       end).

(** The clock moves on by [seconds] between two requests. *)
Definition tick (seconds : Z) : M unit :=
  fun w => (Ok tt,
            {| database := database w; clock := (clock w + seconds)%Z;
               BREVO_API_KEY := BREVO_API_KEY w;
               EMAIL_RECIPIENT := EMAIL_RECIPIENT w;
               configuration_raises := configuration_raises w;
               brevo := brevo w; brevo_calls := brevo_calls w;
               trace := trace w |}).

(** The world when the next request arrives. *)
Definition later (seconds : Z) (w : World) : World := snd (tick seconds w).

(** Requests served one after the other, each arriving [seconds] after the
    previous one was answered; the answers in order and the final world. *)
Fixpoint serve (requests : list (Z * BadPredictionRequest)) (w : World)
  : list (Result BadPredictionResponse) * World :=
  match requests with
  | [] => ([], w)
  | (seconds, request) :: rest =>
      let (_, w1) := tick seconds w in
      let (answer, w2) := report_bad_prediction request w1 in
      let (answers, w3) := serve rest w2 in
      (answer :: answers, w3)
  end.

(** The world of a process that starts on a given file: [init_database]
    has run (the startup hook), nothing has been sent or logged yet. *)
Definition startup (d : Sqlite) (now : Z) (api_key recipient : option str)
  (cfg_raises : bool) (provider : nat -> Delivery) : World :=
  snd (init_database
         {| database := d; clock := now;
            BREVO_API_KEY := api_key; EMAIL_RECIPIENT := recipient;
            configuration_raises := cfg_raises;
            brevo := provider; brevo_calls := 0; trace := [] |}).

(** A request the two checks let through. *)
Definition accepted (request : BadPredictionRequest) : bool :=
  sentiment_ok (predicted_sentiment request)
  && confidence_ok (confidence_score request).

(** The row an accepted request inserts. *)
Definition row_of (w : World) (request : BadPredictionRequest) : Row :=
  {| id := sqlite_sequence (database w) + 1;
     Runtime.text := text request;
     Runtime.predicted_sentiment := predicted_sentiment request;
     Runtime.confidence_score := confidence_score request;
     timestamp := clock w |}.

(** Timestamps grow strictly along the rows (in rowid order). *)
Fixpoint timestamps_increase (rows : list Row) : Prop :=
  match rows with
  | [] => True
  | r :: rest =>
      Forall (fun x => (timestamp r < timestamp x)%Z) rest
      /\ timestamps_increase rest
  end.

(** A well-formed report of the given text. *)
Definition report_of (t : string) : BadPredictionRequest :=
  {| text := u t; predicted_sentiment := positif;
     confidence_score := 0.5%float |}.

(** Six reports that arrive within one second of the clock. *)
Definition six_in_one_second : list (Z * BadPredictionRequest) :=
  [ (0%Z, report_of "r1"); (0%Z, report_of "r2"); (0%Z, report_of "r3");
    (0%Z, report_of "r4"); (0%Z, report_of "r5"); (0%Z, report_of "r6") ].

(** A process started on an empty file, with no e-mail configuration. *)
Definition fresh_world : World :=
  startup empty_database 0 None None false (fun _ => Delivered).

(** The same process after two accepted reports. *)
Definition world_after_two : World :=
  snd (serve (firstn 2 six_in_one_second) fresh_world).

(** A configured process whose provider is rate-limited twice, then
    delivers. *)
Definition rate_limited_twice : World :=
  startup empty_database 0 (Some (u "key")) (Some (u "admin@example.com"))
    false
    (fun n => match n with
              | O => rate_limited
              | S O => rate_limited
              | _ => Delivered
              end).

(** The number of [Ok] answers. *)
Definition count_ok {A} (answers : list (Result A)) : nat :=
  List.length (filter (fun a => match a with Ok _ => true | Raise _ => false end)
                 answers).

(** Lines 238 to 251 of the handler: the row is inserted, the counter
    incremented and the three rows read; what follows is the call of the
    Notifier. *)
Definition persist_and_select (request : BadPredictionRequest)
  : M (list Row) :=
  row_id <- insert_bad_prediction (text request)
              (predicted_sentiment request) (confidence_score request) ;;
  count <- increment_email_counter ;;
  get_recent_bad_predictions 3.

(** A configured process whose provider is rate-limited at every call,
    after two accepted reports. *)
Definition always_limited_after_two : World :=
  snd (serve (firstn 2 six_in_one_second)
         (startup empty_database 0 (Some (u "key"))
            (Some (u "admin@example.com")) false (fun _ => rate_limited))).

End Api.

(* ================================================================== *)
(** * A small stand-in for Unicode and NLTK

    Enough to run the pipeline on ASCII text and to show that what the
    theorems ask of the two interfaces can be met. *)
(* ================================================================== *)

Module Plain.
Import Py Cleaning.

(** No entry above U+007F. *)
Definition ascii_only : UnicodeData :=
  {| uni_isspace := fun _ => false;
     uni_isalnum := fun _ => false;
     uni_isdigit := fun _ => false;
     uni_lower := fun _ c _ => [c] |}.

(** The words between spaces; [cur] is the word being read, reversed. *)
Fixpoint words_from (cur s : str) : list str :=
  match s with
  | [] => match cur with [] => [] | _ :: _ => [rev cur] end
  | c :: r =>
      if (c =? 32)%N then
        match cur with
        | [] => words_from [] r
        | _ :: _ => rev cur :: words_from [] r
        end
      else words_from (c :: cur) r
  end.

Definition split_words (s : str) : list str := words_from [] s.

Definition nltk : Nltk :=
  {| english_stopwords :=
       [u "the"; u "a"; u "an"; u "on"; u "in"; u "at"; u "i"; u "am";
        u "is"; u "it"; u "this"; u "do"; u "will"; u "not"; u "no";
        u "don"; u "don't"; u "isn"; u "isn't"];
     word_tokenize := split_words;
     lemmatize := fun w => w;
     stem := fun w => w |}.

End Plain.

(* ================================================================== *)
(** * Further vocabulary for the delivery and the store *)
(* ================================================================== *)


Module Retry.
Import Py Runtime EmailService.

(** The [except] clauses that go on to the next attempt: every failure but
    the status 401. *)
Definition retryable (d : Delivery) : bool :=
  match d with
  | Delivered => false
  | ApiException status => negb (status =? 401)%Z
  | OtherException => true
  end.

(** What [_send_with_retry] returns when the attempt with this outcome is
    its last. *)
Definition verdict (d : Delivery) : bool :=
  match d with
  | Delivered => true
  | _ => false
  end.

(** Attempts [a], [a+1], ... ([k] of them), each followed by its wait. *)
Definition retries (a k : nat) : list Event :=
  flat_map (fun n => [EvSendAttempt n; EvSleep (backoff n)]) (seq a k).

(** The seconds slept, in all. *)
Definition total_sleep (tr : list Event) : Z :=
  fold_right Z.add 0%Z (sleeps tr).

(** The next [k] answers of the provider are failures that are retried. *)
Definition fails_next (w : World) (k : nat) : Prop :=
  forall i, (i < k)%nat -> retryable (brevo w (i + brevo_calls w)) = true.

End Retry.

Module Store.
Import Py Runtime Database.
Local Open Scope Z_scope.

(** [a] comes before [b] under [ORDER BY timestamp DESC]. *)
Definition not_older (a b : Row) : Prop := timestamp b <= timestamp a.

(** [a] comes before [b] as SQLite returns them: newer first, and for one
    timestamp the smaller rowid first. *)
Definition before (a b : Row) : Prop :=
  timestamp b < timestamp a \/ (timestamp a = timestamp b /\ id a < id b).

(** The rowids are those AUTOINCREMENT gives: increasing along the table
    and none above [sqlite_sequence]. *)
Definition well_sequenced (d : Sqlite) : Prop :=
  StronglySorted (fun a b => id a < id b) (bad_predictions d)
  /\ Forall (fun r => id r <= sqlite_sequence d) (bad_predictions d).

(** No row is stamped later than the clock shows. *)
Definition stamped_in_past (w : World) : Prop :=
  Forall (fun r => timestamp r <= clock w) (bad_predictions (database w)).

(** [increment_email_counter()] called [n] times; the values returned. *)
Fixpoint increment_many (n : nat) : M (list Z) :=
  match n with
  | O => ret []
  | S n' =>
      bind increment_email_counter
           (fun c => bind (increment_many n') (fun cs => ret (c :: cs)))
  end.

(** The tracker row exists. *)
Definition initialised (w : World) : Prop :=
  exists t, email_tracker (database w) = Some t.

End Store.

Module Runs.
Import Py Runtime Database Api Store.
Local Open Scope Z_scope.

(** The rows of the notifications, put back in the order of insertion,
    are the table cut into threes. *)
Definition notified_in_threes (w : World) : Prop :=
  exists t,
    email_tracker (database w) = Some t
    /\ Runtime.report_count t
       = Z.of_nat (List.length (bad_predictions (database w)))
    /\ timestamps_increase (bad_predictions (database w))
    /\ stamped_in_past w
    /\ Forall (fun p => List.length p = 3%nat) (notified (trace w))
    /\ flat_map (@rev Row) (notified (trace w))
       = firstn (3 * (List.length (bad_predictions (database w)) / 3))
           (bad_predictions (database w)).

(** The rowids are 1, 2, ... in the order of insertion. *)
Definition rowids_from_one (w : World) : Prop :=
  (exists t, email_tracker (database w) = Some t)
  /\ sqlite_sequence (database w)
     = Z.of_nat (List.length (bad_predictions (database w)))
  /\ map id (bad_predictions (database w))
     = map Z.of_nat (seq 1 (List.length (bad_predictions (database w)))).

End Runs.

Module Scan.
Import Py.

(** The length of the longest prefix made of characters of a class. *)
Fixpoint span (f : char -> bool) (s : str) : nat :=
  match s with
  | c :: r => if f c then S (span f r) else O
  | [] => O
  end.

(** One pass that copies the characters outside a class and writes one
    space for each run of characters of the class; [inside] tells that the
    character before was of the class. *)
Fixpoint collapse (f : char -> bool) (inside : bool) (s : str) : str :=
  match s with
  | [] => []
  | c :: r =>
      if f c then
        if inside then collapse f true r else 32%N :: collapse f true r
      else c :: collapse f false r
  end.

(** No two characters of a class in a row. *)
Fixpoint single_spaced (f : char -> bool) (s : str) : bool :=
  match s with
  | [] => true
  | c :: r =>
      negb (f c && match r with d :: _ => f d | [] => false end)
      && single_spaced f r
  end.

(** The first character, if there is one, is outside the class. *)
Definition starts_outside (f : char -> bool) (s : str) : bool :=
  match s with
  | [] => true
  | c :: _ => negb (f c)
  end.

(** The last character, if there is one, is outside the class. *)
Definition ends_outside (f : char -> bool) (s : str) : bool :=
  starts_outside f (rev s).

End Scan.

(* ================================================================== *)
(** * api.py: [GET /health] and [POST /predict] *)
(* ================================================================== *)

Module Predict.
Import Py Runtime Cleaning.

(** scikit-learn, as the handler uses it: [vectorizer.transform([text])],
    [model.predict(X)[0]] and [float(model.predict_proba(X)[0][1])];
    [None] stands for a call that raises.  [round4] is the builtin
    [round(x, 4)]. *)
Class Sklearn := {
  Features : Type;
  Vectorizer : Type;
  Model : Type;
  transform : Vectorizer -> str -> option Features;
  predict : Model -> Features -> option Z;
  predict_proba : Model -> Features -> option float;
  round4 : float -> float
}.

Record PredictRequest := { text : str }.

Record PredictResponse := {
  response_text : str;
  sentiment : str;
  confidence : float;
  score : float
}.

Record HealthResponse := {
  status : str;
  model_loaded : bool
}.

Definition is_some {A} (o : option A) : bool :=
  match o with Some _ => true | None => false end.

(** [health_check]: the two globals are not [None]. *)
Definition health_check `{Sklearn} (model : option Model)
  (vectorizer : option Vectorizer) : HealthResponse :=
  {| status := u "healthy";
     model_loaded := is_some model && is_some vectorizer |}.

(** [" ".join(tokens)] *)
Fixpoint join_with_space (tokens : list str) : str :=
  match tokens with
  | [] => []
  | [t] => t
  | t :: rest => t ++ 32%N :: join_with_space rest
  end.

(** [not request.text or request.text.strip() == ""] *)
Definition blank `{UnicodeData} (s : str) : bool :=
  match s with
  | [] => true
  | _ :: _ => str_eqb (strip s) []
  end.

(** [predict_sentiment]; the two globals are arguments.  Inside the [try]
    an [HTTPException] is raised again as it is and any other exception
    becomes the error 500. *)
Definition predict_sentiment `{UnicodeData} `{Nltk} `{Sklearn}
  (model : option Model) (vectorizer : option Vectorizer)
  (request : PredictRequest) : Result PredictResponse :=
  match model, vectorizer with
  | Some m, Some v =>
      if blank (text request) then Raise (HTTPException 400)
      else
        let tokens := clean_text (text request) (u "lemmatizer") in
        match tokens with
        | [] => Raise (HTTPException 400)
        | _ :: _ =>
            let text_cleaned := join_with_space tokens in
            match transform v text_cleaned with
            | None => Raise (HTTPException 500)
            | Some text_vectorized =>
                match predict m text_vectorized with
                | None => Raise (HTTPException 500)
                | Some prediction =>
                    match predict_proba m text_vectorized with
                    | None => Raise (HTTPException 500)
                    | Some p1 =>
                        if (prediction =? 1)%Z then
                          Ok {| response_text := text request;
                                sentiment := Api.positif;
                                confidence := round4 p1;
                                score := round4 p1 |}
                        else
                          Ok {| response_text := text request;
                                sentiment := Api.negatif;
                                confidence := round4 (PrimFloat.sub 1%float p1);
                                score := round4 p1 |}
                    end
                end
            end
        end
  | _, _ => Raise (HTTPException 503)
  end.

End Predict.

(* ================================================================== *)
(** * Example processes and requests *)
(* ================================================================== *)

Module Cases.
Import Py Runtime Database EmailService Api.

(** A configured process started on an empty file. *)
Definition configured_world (provider : nat -> Delivery) : World :=
  startup empty_database 0 (Some (u "key")) (Some (u "admin@example.com"))
    false provider.

(** The provider refuses every call with the status 429. *)
Definition always_rate_limited : World :=
  configured_world (fun _ => rate_limited).

(** A configured process whose provider delivers, after two accepted
    reports. *)
Definition delivering_after_two : World :=
  snd (serve (firstn 2 six_in_one_second)
         (configured_world (fun _ => Delivered))).

(** The provider fails once for another reason, then refuses the key. *)
Definition refused_after_a_failure : World :=
  configured_world (fun n => match n with
                             | O => OtherException
                             | _ => ApiException 401
                             end).

(** The process without e-mail configuration after six reports within one
    second. *)
Definition world_after_six : World :=
  snd (serve six_in_one_second fresh_world).

(** Four reports, one second apart. *)
Definition one_per_second : list (Z * BadPredictionRequest) :=
  [ (1%Z, report_of "r1"); (1%Z, report_of "r2"); (1%Z, report_of "r3");
    (1%Z, report_of "r4") ].

End Cases.

(* ================================================================== *)
(** * Properties of the text cleaning *)
(* ================================================================== *)

Section CleaningFacts.
Import Py Re Cleaning.
Context {U : UnicodeData} {K : Nltk}.

Lemma str_eqb_eq (a b : str) : str_eqb a b = true <-> a = b.
Proof.
  revert b; induction a as [|x a IH]; intros [|y b]; simpl;
    try (split; [discriminate | discriminate]); [tauto|].
  rewrite andb_true_iff, N.eqb_eq, IH.
  split; [intros [-> ->]; reflexivity | intros E; injection E; auto].
Qed.

Lemma mem_In (w : str) (l : list str) : mem w l = true <-> In w l.
Proof.
  unfold mem. rewrite existsb_exists. split.
  - intros (x & Hx & E). apply str_eqb_eq in E. subst. exact Hx.
  - intros Hx. exists w. split; [exact Hx | apply str_eqb_eq; reflexivity].
Qed.

Lemma str_not_In (w : str) (l : list str) : mem w l = false -> ~ In w l.
Proof. intros H Hin. apply mem_In in Hin. congruence. Qed.

(** A boolean check over a finite table, read back as a statement about
    its entries. *)
Lemma forallb_In {A} (f : A -> bool) (l : list A) (x : A) :
  forallb f l = true -> In x l -> f x = true.
Proof. intros H Hx. rewrite forallb_forall in H. apply H, Hx. Qed.

(** A substitution emits characters of the text and of the replacement. *)
Lemma sub_from_Forall (P : char -> Prop) m repl :
  Forall P repl ->
  forall s prev skip, Forall P s -> Forall P (sub_from m repl prev skip s).
Proof.
  intros Hr s; induction s as [|c s IH]; intros prev skip Hs; simpl.
  - constructor.
  - inversion Hs as [|? ? Hc Hs']; subst.
    destruct skip as [|k]; [|apply IH; assumption].
    destruct (m prev (c :: s)) as [[|n]|].
    + constructor; [assumption | apply IH; assumption].
    + apply Forall_app; split; [assumption | apply IH; assumption].
    + constructor; [assumption | apply IH; assumption].
Qed.

Lemma sub_Forall (P : char -> Prop) r repl s :
  Forall P repl -> Forall P s -> Forall P (sub r repl s).
Proof. intros; apply sub_from_Forall; assumption. Qed.

Lemma replace_Forall (P : char -> Prop) key value s :
  Forall P value -> Forall P s -> Forall P (replace key value s).
Proof. intros; apply sub_from_Forall; assumption. Qed.

Lemma drop_while_Forall (P : char -> Prop) f s :
  Forall P s -> Forall P (drop_while f s).
Proof.
  induction 1 as [|c s Hc Hs IH]; simpl; [constructor|].
  destruct (f c); [exact IH | constructor; assumption].
Qed.

Lemma strip_Forall (P : char -> Prop) s : Forall P s -> Forall P (strip s).
Proof.
  intros H. unfold strip.
  apply Forall_rev, drop_while_Forall, Forall_rev, drop_while_Forall, H.
Qed.

Lemma translate_delete_Forall (P : char -> Prop) chars s :
  Forall P s -> Forall P (translate_delete chars s).
Proof.
  intros H. unfold translate_delete. rewrite Forall_forall in *.
  intros c Hc. apply filter_In in Hc. apply H, Hc.
Qed.

Lemma translate_delete_no_punct s : no_punct (translate_delete punctuation s).
Proof.
  unfold no_punct, translate_delete. rewrite Forall_forall.
  intros c Hc. apply filter_In in Hc. destruct Hc as [_ Hc].
  now apply negb_true_iff in Hc.
Qed.

Lemma ascii_lower_lowercase (c : char) :
  is_ascii c = true -> lowercase_char (ascii_lower c).
Proof.
  unfold lowercase_char, lower_char, is_ascii, ascii_lower, ascii_isupper.
  intros Hc. apply N.ltb_lt in Hc.
  destruct (65 <=? c)%N eqn:E1; destruct (c <=? 90)%N eqn:E2; simpl;
    try (apply N.ltb_lt in Hc; rewrite Hc; rewrite E1, E2; reflexivity);
    try (apply N.ltb_lt in Hc; rewrite Hc; rewrite E1; reflexivity).
  apply N.leb_le in E1, E2.
  assert (H1 : (c + 32 <? 128)%N = true) by (apply N.ltb_lt; lia).
  assert (H2 : (c + 32 <=? 90)%N = false) by (apply N.leb_gt; lia).
  rewrite H1, H2, andb_false_r. reflexivity.
Qed.

Lemma lower_from_lowercase :
  lower_is_idempotent -> forall s before, lowercase (lower_from before s).
Proof.
  intros HU s; induction s as [|c s IH]; intros before; simpl.
  - constructor.
  - apply Forall_app; split; [|apply IH].
    unfold lower_char. destruct (is_ascii c) eqn:E.
    + constructor; [apply ascii_lower_lowercase, E | constructor].
    + apply HU, E.
Qed.

Lemma contraction_values_lowercase :
  Forall (fun kv => lowercase (snd kv)) contractions_dict.
Proof. repeat constructor. Qed.

Lemma expand_contractions_lowercase s :
  lowercase s -> lowercase (expand_contractions s).
Proof.
  unfold expand_contractions.
  generalize contraction_values_lowercase.
  generalize contractions_dict as d. intros d Hd; revert s.
  induction Hd as [|kv d Hkv Hd IH]; intros s Hs; simpl; [exact Hs|].
  apply IH, replace_Forall; assumption.
Qed.

Lemma normalized_text_no_punct (text : str) : no_punct (normalized_text text).
Proof.
  unfold normalized_text.
  apply replace_Forall; [constructor | apply translate_delete_no_punct].
Qed.

(** The text handed to [word_tokenize] is lowercase and free of
    punctuation. *)
Lemma normalized_text_ok (text : str) :
  lower_is_idempotent -> token_ok (normalized_text text).
Proof.
  intros HU. split; [|apply normalized_text_no_punct].
  unfold normalized_text.
  apply replace_Forall; [constructor|].
  apply translate_delete_Forall, strip_Forall.
  apply sub_Forall; [repeat constructor|].
  apply expand_contractions_lowercase, lower_from_lowercase, HU.
Qed.

Lemma normalized_text_empty : normalized_text [] = [].
Proof. reflexivity. Qed.

(** What reaches the filter is made of characters of the normalized
    text. *)
Lemma tokens_ok (text t : str) :
  lower_is_idempotent -> tokenizer_only_cuts ->
  In t (word_tokenize (normalized_text text)) -> token_ok t.
Proof.
  intros HU HT Ht.
  destruct (normalized_text_ok text HU) as [Hl Hp].
  pose proof (HT _ Hp t) as Hin.
  split; [unfold lowercase in * | unfold no_punct in *];
    apply Forall_forall; intros c Hc.
  - exact (proj1 (Forall_forall _ _) Hl c (Hin c Ht Hc)).
  - exact (proj1 (Forall_forall _ _) Hp c (Hin c Ht Hc)).
Qed.


End CleaningFacts.

Section EmoticonFacts.
Import Py Re Cleaning.
Context {U : UnicodeData} {K : Nltk}.

(** Once the text is reduced to the sentinel, the sentinel is the one
    token, processed. *)
Lemma clean_text_of_happy_sentinel (text processing : str) :
  happy_sentinel_is_a_word ->
  normalized_text text = tokensmileyhappy ->
  clean_text text processing = [processor_of processing tokensmileyhappy].
Proof.
  intros [Hw Hs] Hn. unfold clean_text, processor_of. rewrite Hn, Hw.
  assert (Hk : keep_token tokensmileyhappy = true).
  { unfold keep_token, in_stop_words. rewrite Hs. reflexivity. }
  simpl filter. rewrite Hk. reflexivity.
Qed.

Lemma listed_happy_glyphs_normalize :
  forallb (fun a =>
    forallb (fun b =>
      forallb (fun g => str_eqb (normalized_text (a :: g ++ [b])) tokensmileyhappy)
        listed_happy_glyphs) ascii_whitespace) ascii_whitespace = true.
Proof. vm_compute. reflexivity. Qed.

(** C5.  Emoticons are replaced before the text is lowercased and before
    punctuation is deleted: a listed happy glyph between two whitespace
    characters is cleaned to the happy sentinel alone, in the form the
    selected stemmer or lemmatizer gives it (the sentinel being one word
    for [word_tokenize] and no stopword).  The order is what makes it so:
    on the lowercased text the pattern no longer sees [:D], and on the
    text without punctuation it sees no glyph at all. *)
Theorem emoticons_replaced_before_lower_and_punctuation
  (HW : happy_sentinel_is_a_word) :
  forall (a b : char) (g processing : str),
    In a ascii_whitespace -> In b ascii_whitespace ->
    In g listed_happy_glyphs ->
    clean_text (a :: g ++ [b]) processing
      = [processor_of processing tokensmileyhappy]
    /\ In (processor_of processing tokensmileyhappy)
          (clean_text (flanked (u ":)")) processing)
    /\ sub happy_pattern tokensmileyhappy (lower (flanked (u ":D")))
       = flanked (u ":d")
    /\ sub happy_pattern tokensmileyhappy
         (translate_delete punctuation (flanked (u ":)")))
       = u "  ".
Proof.
  intros a b g processing Ha Hb Hg.
  assert (Hn : normalized_text (a :: g ++ [b]) = tokensmileyhappy).
  { apply str_eqb_eq.
    pose proof listed_happy_glyphs_normalize as H.
    pose proof (forallb_In _ _ a H Ha) as H1. cbv beta in H1.
    pose proof (forallb_In _ _ b H1 Hb) as H2. cbv beta in H2.
    exact (forallb_In _ _ g H2 Hg). }
  split; [apply clean_text_of_happy_sentinel; assumption|].
  split.
  - rewrite (clean_text_of_happy_sentinel (flanked (u ":)")) processing HW);
      [left; reflexivity | vm_compute; reflexivity].
  - split; vm_compute; reflexivity.
Qed.

Lemma happy_glyphs_sub :
  forallb (fun g =>
    str_eqb (sub happy_pattern tokensmileyhappy (flanked g))
            (flanked tokensmileyhappy)
    && str_eqb (normalized_text (flanked g)) tokensmileyhappy)
    happy_glyphs = true.
Proof. vm_compute. reflexivity. Qed.

Lemma sad_glyphs_sub :
  forallb (fun g =>
    str_eqb (sub sad_pattern tokensmileysad (flanked g))
            (flanked tokensmileysad)
    && str_eqb (normalized_text (flanked g)) tokensmileysad)
    sad_glyphs = true.
Proof. vm_compute. reflexivity. Qed.

(** C10.  The two patterns accept more than the glyphs listed beside them:
    each of the 57 strings made of one of [: ; = 8], an optional dash and
    one of [) D ] } p P 3], or [<3], between two spaces, is replaced by the
    happy sentinel and cleaned to that sentinel alone; each of the 48
    strings made likewise with one of [( [ / { | c] is replaced by the sad
    sentinel.  The listed glyphs are among them, [8)] and [;D] are accepted
    and not listed. *)
Theorem emoticon_patterns_accept_unlisted_glyphs
  (HW : happy_sentinel_is_a_word) :
  forall processing,
    (forall g, In g happy_glyphs ->
       sub happy_pattern tokensmileyhappy (flanked g) = flanked tokensmileyhappy
       /\ clean_text (flanked g) processing
          = [processor_of processing tokensmileyhappy])
    /\ (forall g, In g sad_glyphs ->
          sub sad_pattern tokensmileysad (flanked g) = flanked tokensmileysad
          /\ normalized_text (flanked g) = tokensmileysad)
    /\ List.length happy_glyphs = 57%nat /\ List.length sad_glyphs = 48%nat
    /\ incl listed_happy_glyphs happy_glyphs
    /\ incl listed_sad_glyphs sad_glyphs
    /\ (In (u "8)") happy_glyphs /\ ~ In (u "8)") listed_happy_glyphs)
    /\ (In (u ";D") happy_glyphs /\ ~ In (u ";D") listed_happy_glyphs)
    /\ In (processor_of processing tokensmileyhappy)
          (clean_text (flanked (u "8)")) processing)
    /\ In (processor_of processing tokensmileyhappy)
          (clean_text (flanked (u ";D")) processing).
Proof.
  intros processing.
  assert (Hh : forall g, In g happy_glyphs ->
     sub happy_pattern tokensmileyhappy (flanked g) = flanked tokensmileyhappy
     /\ clean_text (flanked g) processing
        = [processor_of processing tokensmileyhappy]).
  { intros g Hg.
    pose proof (forallb_In _ _ g happy_glyphs_sub Hg) as H. cbv beta in H.
    apply andb_true_iff in H. destruct H as [H1 H2].
    apply str_eqb_eq in H1, H2. split; [exact H1|].
    apply clean_text_of_happy_sentinel; assumption. }
  assert (H8 : In (u "8)") happy_glyphs) by (apply mem_In; vm_compute; reflexivity).
  assert (HD : In (u ";D") happy_glyphs) by (apply mem_In; vm_compute; reflexivity).
  split; [exact Hh|].
  split.
  { intros g Hg.
    pose proof (forallb_In _ _ g sad_glyphs_sub Hg) as H. cbv beta in H.
    apply andb_true_iff in H. destruct H as [H1 H2].
    apply str_eqb_eq in H1, H2. split; assumption. }
  split; [reflexivity|]. split; [reflexivity|].
  split.
  { intros g Hg. apply mem_In.
    apply (forallb_In (fun g => mem g happy_glyphs) listed_happy_glyphs g);
      [vm_compute; reflexivity | exact Hg]. }
  split.
  { intros g Hg. apply mem_In.
    apply (forallb_In (fun g => mem g sad_glyphs) listed_sad_glyphs g);
      [vm_compute; reflexivity | exact Hg]. }
  split; [split; [exact H8 | apply str_not_In; vm_compute; reflexivity]|].
  split; [split; [exact HD | apply str_not_In; vm_compute; reflexivity]|].
  split.
  - rewrite (proj2 (Hh _ H8)). left; reflexivity.
  - rewrite (proj2 (Hh _ HD)). left; reflexivity.
Qed.

End EmoticonFacts.

Section KeepListFacts.
Import Py Re Cleaning.
Context {U : UnicodeData} {K : Nltk}.

Lemma no_punct_no_apostrophe (w : str) : no_punct w -> has_apostrophe w = false.
Proof.
  intros Hw. unfold has_apostrophe.
  destruct (existsb (N.eqb 39) w) eqn:E; [|reflexivity].
  apply existsb_exists in E. destruct E as (c & Hc & E).
  apply N.eqb_eq in E. subst c.
  unfold no_punct in Hw. rewrite Forall_forall in Hw.
  specialize (Hw _ Hc). vm_compute in Hw. discriminate.
Qed.

(** A word without apostrophe equals no word with one. *)
Lemma mem_without_apostrophe (w : str) (l : list str) :
  has_apostrophe w = false ->
  mem w (filter has_apostrophe l) = false
  /\ mem w l = mem w (filter (fun k => negb (has_apostrophe k)) l).
Proof.
  intros Hw. unfold mem.
  induction l as [|k l [IH1 IH2]]; [split; reflexivity|].
  simpl filter. destruct (has_apostrophe k) eqn:Ek; simpl.
  - assert (E : str_eqb w k = false).
    { destruct (str_eqb w k) eqn:E; [|reflexivity].
      apply str_eqb_eq in E. subst. congruence. }
    rewrite E. simpl. split; assumption.
  - split; [exact IH1|]. rewrite IH2. reflexivity.
Qed.

(** Replacing a character the text does not hold changes nothing. *)
Lemma replace_absent (c : char) (value s : str) :
  ~ In c s -> replace [c] value s = s.
Proof.
  unfold replace. generalize (@None char).
  induction s as [|d r IH]; intros p Hc; [reflexivity|].
  cbn [sub_from]. unfold match_literal at 1. cbn [strip_prefix].
  destruct (N.eqb_spec c d) as [E|E].
  - exfalso. apply Hc. left. symmetry. exact E.
  - f_equal. apply IH. intros H. apply Hc. right. exact H.
Qed.

Lemma translate_delete_absent (chars s : str) (c : char) :
  in_class chars c = true -> ~ In c (translate_delete chars s).
Proof.
  intros Hc H. unfold translate_delete in H. apply filter_In in H.
  destruct H as [_ H]. rewrite Hc in H. discriminate H.
Qed.

(** The text handed to [word_tokenize] is the text before, with the
    characters of [punctuation] deleted. *)
Lemma normalized_text_deletes (text : str) :
  normalized_text text
  = translate_delete punctuation (text_before_punctuation text).
Proof.
  change (normalized_text text)
    with (replace [rsquo] []
            (translate_delete punctuation (text_before_punctuation text))).
  apply replace_absent, translate_delete_absent. reflexivity.
Qed.

(** What the filter says of a word without apostrophe does not depend on
    the apostrophed entries of [words_to_keep]. *)
Lemma keep_token_without_apostrophe (word : str) :
  has_apostrophe word = false ->
  keep_token word = keep_token_with plain_keep_words word.
Proof.
  intros Hw. unfold keep_token, keep_token_with, in_stop_words.
  rewrite (proj2 (mem_without_apostrophe word words_to_keep Hw)).
  unfold plain_keep_words. reflexivity.
Qed.

(** The apostrophed entries with their apostrophe deleted: no entry of
    [words_to_keep], not made of digits, longer than two characters. *)
Lemma stripped_keep_words :
  forallb (fun k =>
    str_eqb (translate_delete punctuation k) (translate_delete [39%N] k)
    && negb (has_apostrophe (translate_delete [39%N] k))
    && negb (mem (translate_delete [39%N] k) words_to_keep)
    && negb (isdigit (translate_delete [39%N] k))
    && (2 <? List.length (translate_delete [39%N] k))%nat
    && (is_contraction_key k || str_eqb (text_before_punctuation k) k))
    apostrophed_keep_words = true.
Proof. vm_compute. reflexivity. Qed.

(** C6.  The filter of [clean_text] runs on the words of the text whose
    punctuation is already deleted.  For every input, no word it examines
    holds an apostrophe, so none equals an apostrophed entry of
    [words_to_keep]: the filter decides as it would with the entries
    without apostrophe alone, and [clean_text] returns what it would
    return without the apostrophed entries.  Wherever an apostrophed entry
    stands in the text just before the punctuation is deleted (it was not
    expanded), the text handed to [word_tokenize] holds it with the
    apostrophe deleted ([isn't] as [isnt]); in that form it is no entry
    of [words_to_keep] and is kept or dropped by the stopword list alone.
    An entry that is no key of [contractions_dict] is not expanded. *)
Theorem keep_list_checked_after_apostrophes_removed
  (HT : tokenizer_only_cuts) :
  forall text processing,
    let seen := word_tokenize (normalized_text text) in
    clean_text text processing
    = map (processor_of processing) (filter keep_token seen)
    /\ normalized_text text
       = translate_delete punctuation (text_before_punctuation text)
    /\ Forall (fun word =>
                 has_apostrophe word = false
                 /\ mem word apostrophed_keep_words = false
                 /\ mem word words_to_keep = mem word plain_keep_words
                 /\ keep_token word = keep_token_with plain_keep_words word)
         seen
    /\ clean_text text processing
       = map (processor_of processing)
           (filter (keep_token_with plain_keep_words) seen)
    /\ (forall a k b,
          In k apostrophed_keep_words ->
          text_before_punctuation text = a ++ k ++ b ->
          normalized_text text
          = translate_delete punctuation a ++ translate_delete [39%N] k
              ++ translate_delete punctuation b
          /\ has_apostrophe (translate_delete [39%N] k) = false
          /\ mem (translate_delete [39%N] k) words_to_keep = false
          /\ keep_token (translate_delete [39%N] k)
             = negb (mem (translate_delete [39%N] k) english_stopwords))
    /\ (forall k, In k apostrophed_keep_words ->
                  is_contraction_key k = false ->
                  text_before_punctuation k = k)
    /\ Forall (fun k => has_apostrophe k = true) apostrophed_keep_words.
Proof.
  intros text processing seen.
  assert (Hseen : Forall (fun word => has_apostrophe word = false) seen).
  { apply Forall_forall. intros word Hin.
    apply no_punct_no_apostrophe.
    pose proof (normalized_text_no_punct text) as Hp.
    pose proof (HT _ Hp word) as Hc.
    unfold no_punct in *. rewrite Forall_forall in *.
    intros c Hcw. apply Hp. exact (Hc c Hin Hcw). }
  split; [reflexivity|].
  split; [apply normalized_text_deletes|].
  split.
  { apply Forall_forall. intros word Hin.
    rewrite Forall_forall in Hseen. specialize (Hseen word Hin).
    destruct (mem_without_apostrophe word words_to_keep Hseen) as [H1 H2].
    split; [exact Hseen|]. split; [exact H1|]. split; [exact H2|].
    apply keep_token_without_apostrophe, Hseen. }
  split.
  { unfold clean_text. fold seen. f_equal.
    apply filter_ext_in. intros word Hin.
    rewrite Forall_forall in Hseen.
    apply keep_token_without_apostrophe, Hseen, Hin. }
  split.
  { intros a k b Hk E.
    pose proof (forallb_In _ _ k stripped_keep_words Hk) as H.
    cbv beta in H.
    repeat (apply andb_true_iff in H; destruct H as [H ?]).
    apply str_eqb_eq in H.
    repeat match goal with
           | X : negb _ = true |- _ => apply negb_true_iff in X
           end.
    split.
    { rewrite normalized_text_deletes, E. unfold translate_delete.
      rewrite !filter_app. fold (translate_delete punctuation k).
      rewrite H. reflexivity. }
    split; [assumption|]. split; [assumption|].
    unfold keep_token, in_stop_words.
    match goal with
    | X : mem _ words_to_keep = false |- _ => rewrite X
    end.
    match goal with
    | X : isdigit _ = false |- _ => rewrite X
    end.
    match goal with
    | X : (2 <? _)%nat = true |- _ => rewrite X
    end.
    cbn [negb orb]. rewrite !andb_true_r. reflexivity. }
  split.
  { intros k Hk Hc.
    pose proof (forallb_In _ _ k stripped_keep_words Hk) as H.
    cbv beta in H. apply andb_true_iff in H. destruct H as [_ H].
    rewrite Hc in H. apply str_eqb_eq in H. exact H. }
  unfold apostrophed_keep_words. apply Forall_forall.
  intros k Hk. apply filter_In in Hk. apply Hk.
Qed.

End KeepListFacts.

Section ServiceFacts.
Import Py Runtime Database EmailService Api.
Local Open Scope Z_scope.

(** Reduce the projections of a world or of a database written out. *)
Ltac project :=
  cbn [database sqlite_sequence bad_predictions email_tracker clock trace
       BREVO_API_KEY EMAIL_RECIPIENT configuration_raises brevo brevo_calls].

Lemma send_attempts_frame (attempts : list nat) (max_attempts : nat) :
  forall w, exists b w' es,
    send_attempts attempts max_attempts w = (Ok b, w')
    /\ database w' = database w
    /\ trace w' = trace w ++ es
    /\ forallb is_delivery_event es = true.
Proof.
  induction attempts as [|attempt rest IH]; intros w.
  - exists false, w, []. cbn. rewrite app_nil_r. auto.
  - cbn [send_attempts]. unfold bind at 1. cbn [send_transac_email].
    set (w1 := {| database := database w; clock := clock w;
                  BREVO_API_KEY := BREVO_API_KEY w;
                  EMAIL_RECIPIENT := EMAIL_RECIPIENT w;
                  configuration_raises := configuration_raises w;
                  brevo := brevo w; brevo_calls := S (brevo_calls w);
                  trace := trace w ++ [EvSendAttempt attempt] |}).
    assert (Hstop : forall b, exists b' w' es,
              @ret bool b w1 = (Ok b', w') /\ database w' = database w
              /\ trace w' = trace w ++ es /\ forallb is_delivery_event es = true).
    { intros b. exists b, w1, [EvSendAttempt attempt]. auto. }
    assert (Hretry : exists b' w' es,
              (if (attempt <? max_attempts)%nat
               then bind (sleep (2 ^ Z.of_nat attempt))
                         (fun _ => send_attempts rest max_attempts)
               else ret false) w1 = (Ok b', w')
              /\ database w' = database w
              /\ trace w' = trace w ++ es /\ forallb is_delivery_event es = true).
    { destruct (attempt <? max_attempts)%nat; [|apply Hstop].
      unfold bind, sleep.
      match goal with |- context [send_attempts rest max_attempts ?w2] =>
        destruct (IH w2) as (b & w' & es & E & Hd & Ht & He) end.
      exists b, w', (EvSendAttempt attempt :: EvSleep (2 ^ Z.of_nat attempt) :: es).
      rewrite E. cbn in Hd, Ht. rewrite Hd, Ht. cbn.
      rewrite <- !app_assoc. cbn. auto. }
    destruct (brevo w (brevo_calls w)) as [|status|]; [apply Hstop| |apply Hretry].
    destruct (status =? 401); [apply Hstop|].
    destruct (status =? 429); apply Hretry.
Qed.

Lemma send_bad_predictions_email_frame (predictions : list Row) :
  forall w, exists b w' es,
    send_bad_predictions_email predictions w = (Ok b, w')
    /\ database w' = database w
    /\ trace w' = trace w ++ EvNotify predictions :: es
    /\ forallb is_delivery_event es = true.
Proof.
  intros w. unfold send_bad_predictions_email, bind, log, get.
  cbn [BREVO_API_KEY EMAIL_RECIPIENT configuration_raises].
  set (w1 := {| database := database w; clock := clock w;
                BREVO_API_KEY := BREVO_API_KEY w;
                EMAIL_RECIPIENT := EMAIL_RECIPIENT w;
                configuration_raises := configuration_raises w;
                brevo := brevo w; brevo_calls := brevo_calls w;
                trace := trace w ++ [EvNotify predictions] |}).
  assert (Hstop : exists b' w' es,
            @ret bool false w1 = (Ok b', w') /\ database w' = database w
            /\ trace w' = trace w ++ EvNotify predictions :: es
            /\ forallb is_delivery_event es = true).
  { exists false, w1, []. auto. }
  destruct (falsy (BREVO_API_KEY w)); [apply Hstop|].
  destruct (falsy (EMAIL_RECIPIENT w)); [apply Hstop|].
  destruct (configuration_raises w); [apply Hstop|].
  unfold _send_with_retry.
  destruct (send_attempts_frame (seq 1 3) 3 w1) as (b & w' & es & E & Hd & Ht & He).
  exists b, w', es. rewrite E. cbn in Hd, Ht. rewrite Hd, Ht.
  rewrite <- app_assoc. auto.
Qed.

(** What one accepted request does to an initialised store. *)
Lemma report_accepted (w : World) (request : BadPredictionRequest) (t : Tracker) :
  email_tracker (database w) = Some t ->
  accepted request = true ->
  let r := row_of w request in
  let count := Runtime.report_count t + 1 in
  let recent := firstn 3 (order_by_timestamp_desc
                            (bad_predictions (database w) ++ [r])) in
  exists resp w' tail,
    report_bad_prediction request w = (Ok resp, w')
    /\ success resp = true
    /\ report_count resp = count
    /\ bad_predictions (database w') = bad_predictions (database w) ++ [r]
    /\ (exists t', email_tracker (database w') = Some t'
                   /\ Runtime.report_count t' = count
                   /\ (email_sent resp = Some false ->
                       last_email_sent t' = last_email_sent t))
    /\ trace w' = trace w ++ EvInsert r :: EvIncrement count :: tail
    /\ ((count mod 3 =? 0) = false ->
          tail = [] /\ email_sent resp = Some false
          /\ message resp = Pending count)
    /\ ((count mod 3 =? 0) = true ->
          exists (sent : bool) (es : list Event),
            tail = EvSelectRecent 3 :: EvNotify recent :: es
                     ++ (if sent then [EvUpdateLastEmailSent] else [])
            /\ forallb is_delivery_event es = true
            /\ email_sent resp = Some sent
            /\ message resp
               = (if sent then EmailSentMessage else EmailFailedMessage)).
Proof.
  intros Ht Hacc r count recent.
  unfold accepted in Hacc. apply andb_true_iff in Hacc. destruct Hacc as [Hs Hc].
  unfold report_bad_prediction, try_except, bind at 1.
  rewrite Hs. cbn [negb]. unfold bind at 1. rewrite Hc. cbn [negb].
  cbv [bind ret get set_database log insert_bad_prediction
       increment_email_counter get_recent_bad_predictions].
  project.
  rewrite Ht.
  project.
  change {| id := sqlite_sequence (database w) + 1;
            Runtime.text := text request;
            Runtime.predicted_sentiment := predicted_sentiment request;
            Runtime.confidence_score := confidence_score request;
            timestamp := clock w |} with r.
  fold count.
  destruct (count mod 3 =? 0) eqn:Em.
  - cbn beta.
    project.
    fold recent.
    match goal with
    | |- context [send_bad_predictions_email recent ?w2] =>
        destruct (send_bad_predictions_email_frame recent w2)
          as (sent & w3 & es & E & Hd & Htr & He); rewrite E
    end.
    cbn [database trace] in Hd, Htr.
    destruct sent.
    + cbv [update_last_email_sent bind get log set_database ret].
      project.
      rewrite Hd.
      cbn [database sqlite_sequence bad_predictions email_tracker clock trace].
      eexists _, _, _. split; [reflexivity|].
      cbn [success report_count message email_sent database bad_predictions
           email_tracker trace].
      split; [reflexivity|]. split; [reflexivity|]. split; [reflexivity|].
      split; [eexists; split; [reflexivity | split; [reflexivity | discriminate]]|].
      split.
      { rewrite Htr. rewrite <- !app_assoc. cbn [app].
        instantiate (1 := EvSelectRecent 3 :: EvNotify recent :: es
                            ++ [EvUpdateLastEmailSent]).
        reflexivity. }
      split; [discriminate|].
      intros _. exists true, es. auto.
    + eexists _, _, _. split; [reflexivity|].
      cbn [success report_count message email_sent].
      rewrite Hd, Htr.
      cbn [database sqlite_sequence bad_predictions email_tracker clock trace].
      split; [reflexivity|]. split; [reflexivity|]. split; [reflexivity|].
      split; [eexists; split; [reflexivity | split; reflexivity]|].
      split.
      { rewrite <- !app_assoc. cbn [app].
        instantiate (1 := EvSelectRecent 3 :: EvNotify recent :: es ++ []).
        rewrite app_nil_r. reflexivity. }
      split; [discriminate|].
      intros _. exists false, es. auto.
  - eexists _, _, []. split; [reflexivity|].
    cbn [success report_count message email_sent database bad_predictions
         email_tracker trace].
    split; [reflexivity|]. split; [reflexivity|]. split; [reflexivity|].
    split; [eexists; split; [reflexivity | split; reflexivity]|].
    split; [rewrite <- app_assoc; reflexivity|].
    split; [auto | discriminate].
Qed.

(** What a request that fails a check does: nothing. *)
Lemma report_rejected (w : World) (request : BadPredictionRequest) :
  accepted request = false ->
  report_bad_prediction request w = (Raise (HTTPException 400), w).
Proof.
  unfold accepted. intros H.
  unfold report_bad_prediction, try_except, bind at 1.
  destruct (sentiment_ok (predicted_sentiment request)); cbn in H |- *.
  - unfold bind at 1. rewrite H. reflexivity.
  - reflexivity.
Qed.

Lemma notified_app (a b : list Event) :
  notified (a ++ b) = notified a ++ notified b.
Proof. apply flat_map_app. Qed.

Lemma notified_delivery (es : list Event) :
  forallb is_delivery_event es = true -> notified es = [].
Proof.
  induction es as [|e es IH]; [reflexivity|]. cbn [forallb].
  intros H. apply andb_true_iff in H. destruct H as [He Hes].
  destruct e; try discriminate; cbn; apply IH, Hes.
Qed.

Lemma inserted_delivery (es : list Event) :
  forallb is_delivery_event es = true -> inserted es = [] /\ increments es = [].
Proof.
  induction es as [|e es IH]; [split; reflexivity|]. cbn [forallb].
  intros H. apply andb_true_iff in H. destruct H as [He Hes].
  destruct e; try discriminate; cbn; apply IH, Hes.
Qed.

(** The Notifier is invoked by a request exactly when the new count is a
    multiple of 3, and then once. *)
Lemma report_accepted_notified (w : World) (request : BadPredictionRequest)
  (t : Tracker) :
  email_tracker (database w) = Some t ->
  accepted request = true ->
  let count := Runtime.report_count t + 1 in
  exists resp w',
    report_bad_prediction request w = (Ok resp, w')
    /\ success resp = true
    /\ report_count resp = count
    /\ bad_predictions (database w')
       = bad_predictions (database w) ++ [row_of w request]
    /\ (exists t', email_tracker (database w') = Some t'
                   /\ Runtime.report_count t' = count
                   /\ (email_sent resp = Some false ->
                       last_email_sent t' = last_email_sent t))
    /\ notified (trace w')
       = notified (trace w)
         ++ (if count mod 3 =? 0
             then [firstn 3 (order_by_timestamp_desc
                               (bad_predictions (database w')))]
             else [])
    /\ ((count mod 3 =? 0) = false -> email_sent resp = Some false)
    /\ (email_sent resp = Some false \/ email_sent resp = Some true)
    /\ (email_sent resp = Some false -> message resp <> EmailSentMessage).
Proof.
  intros Ht Hacc count.
  destruct (report_accepted w request t Ht Hacc)
    as (resp & w' & tail & E & Hs & Hc & Hrows & Htr & Htrace & Hno & Hyes).
  exists resp, w'. fold count in Hc, Htr, Htrace, Hno, Hyes.
  split; [exact E|]. split; [exact Hs|]. split; [exact Hc|].
  split; [exact Hrows|]. split; [exact Htr|].
  rewrite Htrace, notified_app. cbn [notified flat_map app].
  fold (notified tail). rewrite Hrows.
  destruct (count mod 3 =? 0) eqn:Em.
  - destruct (Hyes eq_refl) as (sent & es & -> & He & Hsent & Hm).
    cbn [notified flat_map app]. fold (notified (es ++ if sent then [EvUpdateLastEmailSent] else [])).
    rewrite notified_app, (notified_delivery es He).
    split; [destruct sent; reflexivity|].
    split; [discriminate|].
    rewrite Hsent, Hm. destruct sent; split; auto; intros; congruence.
  - destruct (Hno eq_refl) as (-> & Hsent & Hm).
    split; [reflexivity|]. split; [auto|]. split; [auto|].
    intros _. rewrite Hm. discriminate.
Qed.

(** C2.  A request whose label is neither of the two sentiments, or whose
    confidence is not between 0.0 and 1.0 (as 1.5, as a NaN), is answered
    by the client error 400 before anything is written: the world after
    the call is the world before it, so no row is inserted and the counter
    is unchanged. *)
Theorem invalid_report_rejected_before_persistence :
  forall (w : World) (request : BadPredictionRequest),
    sentiment_ok (predicted_sentiment request) = false
    \/ confidence_ok (confidence_score request) = false ->
    exists w',
      report_bad_prediction request w = (Raise (HTTPException 400), w')
      /\ w' = w
      /\ bad_predictions (database w') = bad_predictions (database w)
      /\ counter (database w') = counter (database w)
      /\ trace w' = trace w
      /\ confidence_ok 1.5%float = false
      /\ confidence_ok nan = false
      /\ sentiment_ok (u "invalid") = false.
Proof.
  intros w request H. exists w.
  split; [|repeat split; reflexivity].
  apply report_rejected. unfold accepted.
  destruct H as [H|H]; rewrite H; [reflexivity | apply andb_false_r].
Qed.

(** C1.  From a counter at 0, three accepted reports in a row are answered
    with the counts 1, 2 and 3; the first two calls do not invoke the
    Notifier and are answered [email_sent = False]; the third, whose count
    is a multiple of 3, invokes it exactly once, with the three most recent
    rows by timestamp. *)
Theorem third_report_triggers_notification :
  forall (w : World) (t : Tracker) (r1 r2 r3 : BadPredictionRequest)
         (s1 s2 s3 : Z),
    email_tracker (database w) = Some t ->
    Runtime.report_count t = 0 ->
    accepted r1 = true -> accepted r2 = true -> accepted r3 = true ->
    exists a1 w1 a2 w2 a3 w3,
      report_bad_prediction r1 (later s1 w) = (Ok a1, w1)
      /\ report_bad_prediction r2 (later s2 w1) = (Ok a2, w2)
      /\ report_bad_prediction r3 (later s3 w2) = (Ok a3, w3)
      /\ report_count a1 = 1 /\ report_count a2 = 2 /\ report_count a3 = 3
      /\ (3 mod 3 =? 0) = true
      /\ notified (trace w1) = notified (trace w)
      /\ notified (trace w2) = notified (trace w)
      /\ notified (trace w3)
         = notified (trace w)
           ++ [firstn 3 (order_by_timestamp_desc
                           (bad_predictions (database w3)))]
      /\ email_sent a1 = Some false /\ email_sent a2 = Some false
      /\ (email_sent a3 = Some false \/ email_sent a3 = Some true).
Proof.
  intros w t r1 r2 r3 s1 s2 s3 Ht H0 A1 A2 A3.
  destruct (report_accepted_notified (later s1 w) r1 t Ht A1)
    as (a1 & w1 & E1 & _ & C1 & _ & (t1 & Ht1 & Hc1 & _) & N1 & S1 & _).
  rewrite H0 in C1, Hc1, N1, S1.
  change (0 + 1) with 1 in C1, Hc1, N1, S1.
  change (1 mod 3 =? 0) with false in N1, S1.
  change (trace (later s1 w)) with (trace w) in N1.
  destruct (report_accepted_notified (later s2 w1) r2 t1 Ht1 A2)
    as (a2 & w2 & E2 & _ & C2 & _ & (t2 & Ht2 & Hc2 & _) & N2 & S2 & _).
  rewrite Hc1 in C2, Hc2, N2, S2.
  change (1 + 1) with 2 in C2, Hc2, N2, S2.
  change (2 mod 3 =? 0) with false in N2, S2.
  change (trace (later s2 w1)) with (trace w1) in N2.
  destruct (report_accepted_notified (later s3 w2) r3 t2 Ht2 A3)
    as (a3 & w3 & E3 & _ & C3 & _ & _ & N3 & _ & S3 & _).
  rewrite Hc2 in C3, N3.
  change (2 + 1) with 3 in C3, N3.
  change (3 mod 3 =? 0) with true in N3.
  change (trace (later s3 w2)) with (trace w2) in N3.
  exists a1, w1, a2, w2, a3, w3.
  rewrite app_nil_r in N1, N2.
  split; [exact E1|]. split; [exact E2|]. split; [exact E3|].
  split; [exact C1|]. split; [exact C2|]. split; [exact C3|].
  split; [reflexivity|].
  split; [exact N1|]. split; [rewrite N2; exact N1|].
  split; [rewrite N3, N2, N1; reflexivity|].
  split; [apply S1; reflexivity|]. split; [apply S2; reflexivity|]. exact S3.
Qed.

(** C4.  A request that brings the count to a multiple of 3 is answered
    as stored, with the incremented count, whatever the delivery returns:
    the row stays inserted, the counter stays incremented and the Notifier
    is invoked once, with the rows just read.  [email_sent] is what that
    one call returned.  When it returned [False] the handler does nothing
    more: the world is the one the Notifier left (no second call, no
    rollback) and [last_email_sent] is as before. *)
Theorem failed_delivery_keeps_report_and_count :
  forall (w : World) (t : Tracker) (request : BadPredictionRequest),
    email_tracker (database w) = Some t ->
    accepted request = true ->
    ((Runtime.report_count t + 1) mod 3 =? 0) = true ->
    exists recent w2 sent w3 resp w',
      persist_and_select request w = (Ok recent, w2)
      /\ send_bad_predictions_email recent w2 = (Ok sent, w3)
      /\ report_bad_prediction request w = (Ok resp, w')
      /\ success resp = true
      /\ report_count resp = Runtime.report_count t + 1
      /\ email_sent resp = Some sent
      /\ bad_predictions (database w')
         = bad_predictions (database w) ++ [row_of w request]
      /\ counter (database w') = Runtime.report_count t + 1
      /\ notified (trace w') = notified (trace w) ++ [recent]
      /\ (sent = false ->
            w' = w3
            /\ message resp = EmailFailedMessage
            /\ email_tracker (database w')
               = Some {| Runtime.report_count := Runtime.report_count t + 1;
                         last_email_sent := last_email_sent t |}).
Proof.
  intros w t request Ht Hacc Hm.
  unfold accepted in Hacc. apply andb_true_iff in Hacc. destruct Hacc as [Hs Hc].
  unfold persist_and_select, report_bad_prediction, try_except, bind at 1.
  cbv [bind ret get set_database log insert_bad_prediction
       increment_email_counter get_recent_bad_predictions].
  project. rewrite Ht. project.
  rewrite Hs, Hc. cbn [negb]. project. rewrite Ht. project. rewrite Hm.
  match goal with
  | |- context [send_bad_predictions_email ?r ?w2] =>
      destruct (send_bad_predictions_email_frame r w2)
        as (sent & w3 & es & E & Hd & Htr & He);
      exists r, w2, sent, w3
  end.
  rewrite E. cbn [database trace] in Hd, Htr.
  destruct sent.
  - cbv [update_last_email_sent bind get log set_database ret].
    project. rewrite Hd. project.
    eexists _, _. split; [reflexivity|]. split; [reflexivity|].
    split; [reflexivity|].
    cbn [success report_count message email_sent database bad_predictions
         email_tracker trace counter Runtime.report_count].
    split; [reflexivity|]. split; [reflexivity|]. split; [reflexivity|].
    split; [reflexivity|]. split; [reflexivity|].
    split; [|discriminate].
    rewrite Htr, !notified_app. cbn [notified flat_map app].
    fold (notified es). fold (notified (trace w)).
    rewrite (notified_delivery es He), !app_nil_r. reflexivity.
  - eexists _, _. split; [reflexivity|]. split; [reflexivity|].
    split; [reflexivity|].
    cbn [success report_count message email_sent].
    rewrite Hd. cbn [database bad_predictions email_tracker counter
                     Runtime.report_count].
    split; [reflexivity|]. split; [reflexivity|]. split; [reflexivity|].
    split; [reflexivity|]. split; [reflexivity|].
    split.
    + rewrite Htr, !notified_app. cbn [notified flat_map app].
      fold (notified es). fold (notified (trace w)).
      rewrite (notified_delivery es He), !app_nil_r. reflexivity.
    + intros _. split; [reflexivity|]. split; reflexivity.
Qed.

Lemma serve_cons seconds request rest (w : World) :
  serve ((seconds, request) :: rest) w
  = let (answer, w2) := report_bad_prediction request (later seconds w) in
    let (answers, w3) := serve rest w2 in
    (answer :: answers, w3).
Proof. reflexivity. Qed.

(** Over any number of requests the counter and the table advance by the
    number of answers that are not errors. *)
Lemma serve_lockstep (requests : list (Z * BadPredictionRequest)) :
  forall (w : World) (t : Tracker),
    email_tracker (database w) = Some t ->
    exists answers w' t',
      serve requests w = (answers, w')
      /\ email_tracker (database w') = Some t'
      /\ Runtime.report_count t'
         = Runtime.report_count t + Z.of_nat (count_ok answers)
      /\ List.length (bad_predictions (database w'))
         = (List.length (bad_predictions (database w)) + count_ok answers)%nat.
Proof.
  induction requests as [|[seconds request] rest IH]; intros w t Ht.
  - exists [], w, t. cbn. split; [reflexivity|]. split; [exact Ht|].
    split; [lia | lia].
  - rewrite serve_cons.
    destruct (accepted request) eqn:Hacc.
    + destruct (report_accepted (later seconds w) request t Ht Hacc)
        as (resp & w1 & tail & E & _ & _ & Hrows & (t1 & Ht1 & Hc1 & _) & _).
      rewrite E.
      destruct (IH w1 t1 Ht1) as (answers & w' & t' & Es & Ht' & Hc' & Hl').
      rewrite Es. exists (Ok resp :: answers), w', t'.
      split; [reflexivity|]. split; [exact Ht'|].
      unfold count_ok in *. cbn [filter List.length].
      rewrite Hc', Hc1, Hl', Hrows, length_app.
      change (database (later seconds w)) with (database w).
      cbn [List.length]. split; lia.
    + rewrite (report_rejected _ _ Hacc).
      destruct (IH (later seconds w) t Ht) as (answers & w' & t' & Es & Ht' & Hc' & Hl').
      rewrite Es. exists (Raise (HTTPException 400) :: answers), w', t'.
      split; [reflexivity|]. split; [exact Ht'|].
      unfold count_ok in *. cbn [filter]. split; assumption.
Qed.

Lemma startup_tracker d now key rcpt cfg provider :
  exists t, email_tracker (database (startup d now key rcpt cfg provider)) = Some t
            /\ Runtime.report_count t = counter d
            /\ bad_predictions (database (startup d now key rcpt cfg provider))
               = bad_predictions d.
Proof.
  unfold startup, init_database, bind, get, counter. cbn [database].
  destruct (email_tracker d) as [t|] eqn:E.
  - exists t. cbn. auto.
  - eexists. cbn. split; [reflexivity|]. split; reflexivity.
Qed.

(** Without the tracker row (a file on which [init_database] has not run)
    the increment raises after the insert: the answer is the error 500 and
    the row stays.  [startup] rules this out. *)
Lemma report_without_tracker_row (w : World) (request : BadPredictionRequest) :
  email_tracker (database w) = None ->
  accepted request = true ->
  exists w',
    report_bad_prediction request w = (Raise (HTTPException 500), w')
    /\ bad_predictions (database w')
       = bad_predictions (database w) ++ [row_of w request].
Proof.
  intros Ht Hacc.
  unfold accepted in Hacc. apply andb_true_iff in Hacc. destruct Hacc as [Hs Hc].
  unfold report_bad_prediction, try_except, bind at 1.
  rewrite Hs. cbn [negb]. unfold bind at 1. rewrite Hc. cbn [negb].
  cbv [bind ret get set_database log insert_bad_prediction
       increment_email_counter raise].
  project. rewrite Ht. eexists. split; reflexivity.
Qed.

(** C8.  Counter and report table move together.  An accepted report
    inserts one row and then increments the counter by one, in that order,
    and does neither a second time; a report that is not accepted touches
    nothing.  So, from the start of the process and over any sequence of
    requests, the counter has advanced by the number of accepted reports,
    as has the number of rows: it never decreases, a restart on the same
    file does not reset it, and on a file that started empty it equals the
    number of rows. *)
Theorem counter_in_lockstep_with_reports :
  (forall (w : World) (t : Tracker) (request : BadPredictionRequest),
     email_tracker (database w) = Some t ->
     accepted request = true ->
     exists resp w' tail,
       report_bad_prediction request w = (Ok resp, w')
       /\ bad_predictions (database w')
          = bad_predictions (database w) ++ [row_of w request]
       /\ counter (database w') = Runtime.report_count t + 1
       /\ trace w'
          = trace w ++ EvInsert (row_of w request)
                    :: EvIncrement (Runtime.report_count t + 1) :: tail
       /\ inserted tail = [] /\ increments tail = [])
  /\ (forall (w : World) (request : BadPredictionRequest),
        accepted request = false ->
        report_bad_prediction request w = (Raise (HTTPException 400), w))
  /\ (forall d now key rcpt cfg provider requests,
        let w := startup d now key rcpt cfg provider in
        let answers := fst (serve requests w) in
        let w' := snd (serve requests w) in
        counter (database w) = counter d
        /\ counter (database w') = counter d + Z.of_nat (count_ok answers)
        /\ List.length (bad_predictions (database w'))
           = (List.length (bad_predictions d) + count_ok answers)%nat
        /\ counter d <= counter (database w'))
  /\ (forall now key rcpt cfg provider requests,
        let w' := snd (serve requests
                         (startup empty_database now key rcpt cfg provider)) in
        counter (database w')
        = Z.of_nat (List.length (bad_predictions (database w')))).
Proof.
  assert (Hrun : forall d now key rcpt cfg provider requests,
        let w := startup d now key rcpt cfg provider in
        let answers := fst (serve requests w) in
        let w' := snd (serve requests w) in
        counter (database w) = counter d
        /\ counter (database w') = counter d + Z.of_nat (count_ok answers)
        /\ List.length (bad_predictions (database w'))
           = (List.length (bad_predictions d) + count_ok answers)%nat
        /\ counter d <= counter (database w')).
  { intros d now key rcpt cfg provider requests w answers w'.
    destruct (startup_tracker d now key rcpt cfg provider) as (t & Ht & Hc & Hr).
    fold w in Ht, Hr.
    destruct (serve_lockstep requests w t Ht) as (ans & w2 & t' & E & Ht' & Hc' & Hl').
    subst answers w'. rewrite E. cbn [fst snd].
    assert (C1 : counter (database w) = counter d)
      by (unfold counter at 1; rewrite Ht; exact Hc).
    assert (C2 : counter (database w2)
                 = counter d + Z.of_nat (count_ok ans))
      by (unfold counter at 1; rewrite Ht', Hc', Hc; reflexivity).
    split; [exact C1|]. split; [exact C2|].
    split; [rewrite Hl', Hr; reflexivity | lia]. }
  split.
  { intros w t request Ht Hacc.
    destruct (report_accepted w request t Ht Hacc)
      as (resp & w' & tail & E & _ & _ & Hrows & (t' & Ht' & Hc' & _) & Htrace
          & Hno & Hyes).
    exists resp, w', tail. split; [exact E|]. split; [exact Hrows|].
    split; [unfold counter; rewrite Ht'; exact Hc'|]. split; [exact Htrace|].
    destruct ((Runtime.report_count t + 1) mod 3 =? 0) eqn:Em.
    - destruct (Hyes eq_refl) as (sent & es & -> & He & _).
      destruct (inserted_delivery es He) as [Hi Hn].
      unfold inserted, increments in *. cbn [flat_map app].
      rewrite !flat_map_app, Hi, Hn. destruct sent; split; reflexivity.
    - destruct (Hno eq_refl) as (-> & _). split; reflexivity. }
  split; [exact report_rejected|].
  split; [exact Hrun|].
  intros now key rcpt cfg provider requests w'.
  destruct (Hrun empty_database now key rcpt cfg provider requests)
    as (_ & Hc & Hl & _).
  fold w' in Hc, Hl. rewrite Hc, Hl. cbn. lia.
Qed.

(** The attempts of a delivery are numbered from the first one on, and a
    wait of [2 ** attempt] seconds follows each attempt but the last. *)
Lemma send_attempts_backoff (n : nat) :
  forall (a max_attempts : nat) (w : World),
    (a + n = S max_attempts)%nat ->
    exists b w' es j,
      send_attempts (seq a n) max_attempts w = (Ok b, w')
      /\ trace w' = trace w ++ es
      /\ attempts_made es = seq a j
      /\ (j <= n)%nat /\ (1 <= n -> 1 <= j)%nat
      /\ sleeps es = map backoff (seq a (pred j)).
Proof.
  induction n as [|n IH]; intros a max_attempts w Hsum.
  - exists false, w, [], 0%nat. cbn. rewrite app_nil_r.
    repeat split; auto; lia.
  - cbn [seq send_attempts]. unfold bind at 1. cbn [send_transac_email].
    set (w1 := {| database := database w; clock := clock w;
                  BREVO_API_KEY := BREVO_API_KEY w;
                  EMAIL_RECIPIENT := EMAIL_RECIPIENT w;
                  configuration_raises := configuration_raises w;
                  brevo := brevo w; brevo_calls := S (brevo_calls w);
                  trace := trace w ++ [EvSendAttempt a] |}).
    assert (Hstop : forall b, exists b' w' es j,
              @ret bool b w1 = (Ok b', w') /\ trace w' = trace w ++ es
              /\ attempts_made es = seq a j
              /\ (j <= S n)%nat /\ (1 <= S n -> 1 <= j)%nat
              /\ sleeps es = map backoff (seq a (pred j))).
    { intros b. exists b, w1, [EvSendAttempt a], 1%nat. cbn.
      repeat split; auto; lia. }
    assert (Hretry : exists b' w' es j,
              (if (a <? max_attempts)%nat
               then bind (sleep (2 ^ Z.of_nat a))
                         (fun _ => send_attempts (seq (S a) n) max_attempts)
               else ret false) w1 = (Ok b', w')
              /\ trace w' = trace w ++ es
              /\ attempts_made es = seq a j
              /\ (j <= S n)%nat /\ (1 <= S n -> 1 <= j)%nat
              /\ sleeps es = map backoff (seq a (pred j))).
    { destruct (a <? max_attempts)%nat eqn:Elt; [|apply Hstop].
      apply Nat.ltb_lt in Elt.
      unfold bind, sleep.
      match goal with |- context [send_attempts _ _ ?w2] =>
        destruct (IH (S a) max_attempts w2 ltac:(lia))
          as (b & w' & es & j & E & Ht & Ha & Hj & Hj1 & Hs) end.
      exists b, w', (EvSendAttempt a :: EvSleep (2 ^ Z.of_nat a) :: es), (S j).
      rewrite E. cbn [trace] in Ht. rewrite Ht.
      split; [reflexivity|].
      split; [subst w1; cbn [trace]; rewrite <- !app_assoc; reflexivity|].
      split; [cbn; fold (attempts_made es); rewrite Ha; reflexivity|].
      split; [lia|]. split; [lia|].
      cbn [sleeps flat_map app pred]. fold (sleeps es). rewrite Hs.
      destruct j as [|j]; [lia|]. reflexivity. }
    destruct (brevo w (brevo_calls w)) as [|status|]; [apply Hstop| |apply Hretry].
    destruct (status =? 401); [apply Hstop|].
    destruct (status =? 429); apply Hretry.
Qed.

Lemma sleeps_app (a b : list Event) : sleeps (a ++ b) = sleeps a ++ sleeps b.
Proof. apply flat_map_app. Qed.

(** With the budget of 3, a third rate-limit failure ends the delivery at
    once: two waits, none of 8 seconds. *)
Lemma three_rate_limits_exhaust_budget (w : World) :
  answers_next w [rate_limited; rate_limited; rate_limited] ->
  exists w',
    _send_with_retry 3 w = (Ok false, w')
    /\ trace w'
       = trace w ++ [EvSendAttempt 1; EvSleep 2; EvSendAttempt 2; EvSleep 4;
                     EvSendAttempt 3].
Proof.
  intros Hans.
  pose proof (Hans 0%nat _ eq_refl) as H0.
  pose proof (Hans 1%nat _ eq_refl) as H1.
  pose proof (Hans 2%nat _ eq_refl) as H2.
  cbn [Nat.add] in H0, H1, H2.
  unfold _send_with_retry. cbn [seq send_attempts].
  unfold bind, send_transac_email, sleep, ret. project.
  rewrite H0. unfold rate_limited.
  cbn [Z.eqb Pos.eqb Nat.ltb Nat.leb]. project.
  rewrite H1. unfold rate_limited.
  cbn [Z.eqb Pos.eqb Nat.ltb Nat.leb]. project.
  rewrite H2. unfold rate_limited.
  cbn [Z.eqb Pos.eqb Nat.ltb Nat.leb].
  eexists. split; [reflexivity|].
  project. rewrite <- !app_assoc. reflexivity.
Qed.

(** An authentication failure (401) ends the delivery after one attempt,
    without a wait. *)
Lemma authentication_failure_is_not_retried (w : World) (max_attempts : nat) :
  brevo w (brevo_calls w) = ApiException 401 ->
  exists w',
    _send_with_retry (S max_attempts) w = (Ok false, w')
    /\ trace w' = trace w ++ [EvSendAttempt 1].
Proof.
  intros H. unfold _send_with_retry. cbn [seq send_attempts].
  unfold bind, send_transac_email, ret. rewrite H. cbn [Z.eqb Pos.eqb].
  eexists. split; reflexivity.
Qed.

(** C7.  A delivery makes its attempts in order and waits [2 ** attempt]
    seconds after each attempt but the last one made, within the budget
    (2 seconds after attempt 1, 4 after attempt 2, 8 after attempt 3 where
    the budget allows a fourth).  With the budget of 3, rate-limit
    failures (429) on attempts 1 and 2 and success on attempt 3 give
    [True], after exactly two waits, of 2 then 4 seconds; so does the
    Notifier as a whole when it is configured. *)
Theorem rate_limit_retried_with_exponential_backoff :
  forall (w : World) (predictions : list Row),
    answers_next w [rate_limited; rate_limited; Delivered] ->
    configured w = true ->
    (exists w',
       _send_with_retry 3 w = (Ok true, w')
       /\ trace w'
          = trace w ++ [EvSendAttempt 1; EvSleep 2; EvSendAttempt 2; EvSleep 4;
                        EvSendAttempt 3]
       /\ clock w' = clock w + 6)
    /\ (exists w',
          send_bad_predictions_email predictions w = (Ok true, w')
          /\ sleeps (trace w') = sleeps (trace w) ++ [2; 4]
          /\ attempts_made (trace w') = attempts_made (trace w) ++ [1; 2; 3]%nat)
    /\ (forall max_attempts w0, exists b w' es j,
          _send_with_retry max_attempts w0 = (Ok b, w')
          /\ trace w' = trace w0 ++ es
          /\ attempts_made es = seq 1 j
          /\ (j <= max_attempts)%nat
          /\ sleeps es = map backoff (seq 1 (pred j)))
    /\ backoff 1 = 2 /\ backoff 2 = 4 /\ backoff 3 = 8.
Proof.
  intros w predictions Hans Hcfg.
  pose proof (Hans 0%nat _ eq_refl) as H0.
  pose proof (Hans 1%nat _ eq_refl) as H1.
  pose proof (Hans 2%nat _ eq_refl) as H2.
  cbn [Nat.add] in H0, H1, H2.
  assert (Hrun : forall w1 : World,
            brevo w1 = brevo w -> brevo_calls w1 = brevo_calls w ->
            exists w', _send_with_retry 3 w1 = (Ok true, w')
              /\ trace w'
                 = trace w1 ++ [EvSendAttempt 1; EvSleep 2; EvSendAttempt 2;
                                EvSleep 4; EvSendAttempt 3]
              /\ clock w' = clock w1 + 6).
  { intros w1 Hb Hc.
    unfold _send_with_retry. cbn [seq send_attempts].
    unfold bind, send_transac_email, sleep, ret.
    cbn [brevo brevo_calls trace clock database].
    rewrite ?Hb, ?Hc, H0. unfold rate_limited.
    cbn [Z.eqb Pos.eqb Nat.ltb Nat.leb].
    cbn [brevo brevo_calls trace clock database].
    rewrite ?Hb, ?Hc, H1. unfold rate_limited.
    cbn [Z.eqb Pos.eqb Nat.ltb Nat.leb].
    cbn [brevo brevo_calls trace clock database].
    rewrite ?Hb, ?Hc, H2.
    eexists. split; [reflexivity|].
    cbn [trace clock]. rewrite <- !app_assoc.
    split; [reflexivity|]. change (2 ^ Z.of_nat 1) with 2.
    change (2 ^ Z.of_nat 2) with 4. lia. }
  split; [apply Hrun; reflexivity|].
  split.
  { unfold configured in Hcfg.
    apply andb_true_iff in Hcfg. destruct Hcfg as [Hcfg Hr].
    apply andb_true_iff in Hcfg. destruct Hcfg as [Hk Hm].
    apply negb_true_iff in Hk, Hm, Hr.
    unfold send_bad_predictions_email, bind, log, get.
    cbn [BREVO_API_KEY EMAIL_RECIPIENT configuration_raises].
    rewrite Hk, Hm, Hr.
    match goal with |- context [_send_with_retry 3 ?w1] =>
      destruct (Hrun w1 eq_refl eq_refl) as (w' & E & Ht & _) end.
    exists w'. rewrite E. split; [reflexivity|].
    rewrite Ht. cbn [trace]. rewrite <- !app_assoc.
    unfold sleeps, attempts_made. rewrite !flat_map_app. cbn.
    rewrite ?app_nil_r. split; reflexivity. }
  split.
  { intros max_attempts w0.
    destruct (send_attempts_backoff max_attempts 1 max_attempts w0 eq_refl)
      as (b & w' & es & j & E & Ht & Ha & Hj & _ & Hs).
    exists b, w', es, j. auto. }
  repeat split; reflexivity.
Qed.

Lemma insert_newest (r : Row) (l : list Row) :
  Forall (fun x => timestamp x < timestamp r) l ->
  insert_by_timestamp_desc r l = r :: l.
Proof.
  intros H. destruct l as [|x l]; [reflexivity|]. cbn.
  inversion H as [|? ? Hx _]; subst.
  apply Z.ltb_lt in Hx. rewrite Hx. reflexivity.
Qed.

Lemma timestamps_increase_snoc (l : list Row) (r : Row) :
  timestamps_increase (l ++ [r]) ->
  timestamps_increase l /\ Forall (fun x => timestamp x < timestamp r) l.
Proof.
  induction l as [|x l IH]; cbn; [auto|].
  intros [Hx Hl]. destruct (IH Hl) as [IH1 IH2].
  apply Forall_app in Hx. destruct Hx as [Hx1 Hx2].
  split; [split; assumption|].
  constructor; [inversion Hx2; assumption | exact IH2].
Qed.

(** When no two rows share a timestamp and the clock did not go back, the
    query returns the rows from the newest to the oldest. *)
Lemma order_by_timestamp_desc_distinct (rows : list Row) :
  timestamps_increase rows -> order_by_timestamp_desc rows = rev rows.
Proof.
  induction rows as [|r l IH] using rev_ind; [reflexivity|].
  intros H. apply timestamps_increase_snoc in H. destruct H as [Hl Hr].
  unfold order_by_timestamp_desc in *.
  rewrite fold_left_app. cbn [fold_left]. rewrite (IH Hl), rev_app_distr.
  cbn [rev app]. apply insert_newest, Forall_rev, Hr.
Qed.

(** C9 (the code departs from it).  Six accepted reports arrive within one
    second, so that all six rows carry the same timestamp.  The Notifier
    is invoked at the third and at the sixth: both times it is handed the
    rows r1, r2, r3, while the last three rows persisted at the sixth are
    r4, r5, r6. *)
Theorem six_reports_in_one_second_notify_the_oldest :
  let w := snd (serve six_in_one_second fresh_world) in
  map (map Runtime.text) (notified (trace w))
  = [[u "r1"; u "r2"; u "r3"]; [u "r1"; u "r2"; u "r3"]]
  /\ map Runtime.text (skipn 3 (bad_predictions (database w)))
     = [u "r4"; u "r5"; u "r6"]
  /\ map timestamp (bad_predictions (database w)) = [0; 0; 0; 0; 0; 0]
  /\ counter (database w) = 6
  /\ count_ok (fst (serve six_in_one_second fresh_world)) = 6%nat.
Proof. vm_compute. repeat split; reflexivity. Qed.

End ServiceFacts.

(* ================================================================== *)
(** * The theorems on concrete inputs *)
(* ================================================================== *)

Section PlainFacts.
Import Py Cleaning Plain.

Lemma plain_lower_is_idempotent : @lower_is_idempotent ascii_only.
Proof.
  intros before c after Hc. constructor; [|constructor].
  unfold lowercase_char, lower_char. rewrite Hc. reflexivity.
Qed.

Lemma words_from_chars (s cur t : str) (c : char) :
  In t (words_from cur s) -> In c t -> In c cur \/ In c s.
Proof.
  revert cur; induction s as [|x s IH]; intros cur Ht Hc.
  - destruct cur as [|y cur]; [contradiction|].
    destruct Ht as [<-|[]]. left. apply in_rev. exact Hc.
  - cbn [words_from] in Ht. destruct (x =? 32)%N.
    + destruct cur as [|y cur].
      * destruct (IH [] Ht Hc) as [[]|H]. right. right. exact H.
      * destruct Ht as [<-|Ht].
        -- left. apply in_rev. exact Hc.
        -- destruct (IH [] Ht Hc) as [[]|H]. right. right. exact H.
    + destruct (IH (x :: cur) Ht Hc) as [[<-|H]|H].
      * right. left. reflexivity.
      * left. exact H.
      * right. right. exact H.
Qed.

Lemma plain_tokenizer_only_cuts : @tokenizer_only_cuts nltk.
Proof.
  intros s _ t c Ht Hc.
  destruct (words_from_chars s [] t c Ht Hc) as [[]|H]. exact H.
Qed.

Lemma plain_tokenizer_empty : @tokenizer_empty nltk.
Proof. reflexivity. Qed.

Lemma plain_keeps_token_form : @keeps_token_form ascii_only (fun w => w).
Proof. intros w H. exact H. Qed.

Lemma plain_happy_sentinel_is_a_word : @happy_sentinel_is_a_word nltk.
Proof. split; reflexivity. Qed.

(** [punctuation] is ASCII and U+2019 only: U+2026 HORIZONTAL ELLIPSIS and
    U+201C LEFT DOUBLE QUOTATION MARK, for two, are not deleted. *)
Lemma other_unicode_marks_are_kept :
  @normalized_text ascii_only (u "so" ++ [8230%N] ++ u " it " ++ [8220%N] ++ u "is")
  = u "so" ++ [8230%N] ++ u " it " ++ [8220%N] ++ u "is".
Proof. vm_compute. reflexivity. Qed.

(** The pure-stopword sentence of the test suite. *)
Lemma only_stopwords_clean_to_nothing :
  @clean_text ascii_only nltk (u "the a an on in at") (u "lemmatizer") = [].
Proof. vm_compute. reflexivity. Qed.

End PlainFacts.



(** [ :) ] with the stand-in. *)
Lemma emoticons_replaced_witness :
  @Cleaning.clean_text Plain.ascii_only Plain.nltk
    (32%N :: Py.u ":)" ++ [32%N]) (Py.u "stemmer")
  = [Cleaning.tokensmileyhappy].
Proof.
  refine (proj1 (@emoticons_replaced_before_lower_and_punctuation
                   Plain.ascii_only Plain.nltk plain_happy_sentinel_is_a_word
                   32%N 32%N (Py.u ":)") (Py.u "stemmer") _ _ _)).
  - vm_compute. tauto.
  - vm_compute. tauto.
  - vm_compute. tauto.
Defined.

(** [ 8) ], which is not listed, with the stand-in. *)
Lemma emoticon_patterns_witness :
  In Cleaning.tokensmileyhappy
     (@Cleaning.clean_text Plain.ascii_only Plain.nltk
        (Cleaning.flanked (Py.u "8)")) (Py.u "lemmatizer")).
Proof.
  exact (proj1 (proj2 (proj2 (proj2 (proj2 (proj2 (proj2 (proj2 (proj2
    (@emoticon_patterns_accept_unlisted_glyphs
       Plain.ascii_only Plain.nltk plain_happy_sentinel_is_a_word
       (Py.u "lemmatizer"))))))))))).
Defined.

(** [isn't] in a sentence, with the stand-in. *)
Lemma keep_list_witness :
  @Cleaning.text_before_punctuation Plain.ascii_only (Py.u "It isn't ok")
  = Py.u "it " ++ Py.u "isn't" ++ Py.u " ok"
  /\ @Cleaning.normalized_text Plain.ascii_only (Py.u "It isn't ok")
     = Py.u "it isnt ok"
  /\ In (Py.u "isnt")
        (@Cleaning.word_tokenize Plain.nltk
           (@Cleaning.normalized_text Plain.ascii_only (Py.u "It isn't ok")))
  /\ Cleaning.has_apostrophe (Py.u "isnt") = false
  /\ Py.mem (Py.u "isnt") Cleaning.words_to_keep = false
  /\ @Cleaning.keep_token Plain.ascii_only Plain.nltk (Py.u "isnt")
     = @Cleaning.keep_token_with Plain.ascii_only Plain.nltk
         Cleaning.plain_keep_words (Py.u "isnt")
  /\ @Cleaning.clean_text Plain.ascii_only Plain.nltk (Py.u "It isn't ok")
       (Py.u "lemmatizer")
     = map (@Cleaning.processor_of Plain.nltk (Py.u "lemmatizer"))
         (filter (@Cleaning.keep_token_with Plain.ascii_only Plain.nltk
                    Cleaning.plain_keep_words)
            (@Cleaning.word_tokenize Plain.nltk
               (@Cleaning.normalized_text Plain.ascii_only
                  (Py.u "It isn't ok")))).
Proof.
  pose proof (@keep_list_checked_after_apostrophes_removed
                Plain.ascii_only Plain.nltk plain_tokenizer_only_cuts
                (Py.u "It isn't ok") (Py.u "lemmatizer")) as H.
  cbv zeta in H. destruct H as (_ & _ & Hseen & Hclean & Hstands & _ & _).
  assert (Hin : In (Py.u "isnt")
                  (@Cleaning.word_tokenize Plain.nltk
                     (@Cleaning.normalized_text Plain.ascii_only
                        (Py.u "It isn't ok")))).
  { vm_compute. tauto. }
  assert (Hk : In (Py.u "isn't") Cleaning.apostrophed_keep_words).
  { vm_compute. tauto. }
  assert (Hb : @Cleaning.text_before_punctuation Plain.ascii_only
                 (Py.u "It isn't ok")
               = Py.u "it " ++ Py.u "isn't" ++ Py.u " ok").
  { vm_compute. reflexivity. }
  destruct (Hstands _ _ _ Hk Hb) as (Hn & Ha & Hm & _).
  rewrite Forall_forall in Hseen.
  destruct (Hseen _ Hin) as (_ & _ & _ & Hkeep).
  split; [exact Hb|]. split; [exact Hn|]. split; [exact Hin|].
  split; [exact Ha|]. split; [exact Hm|]. split; [exact Hkeep|].
  exact Hclean.
Defined.

(** Three reports on a fresh process. *)
Lemma third_report_witness :
  exists a1 w1 a2 w2 a3 w3,
    Api.report_bad_prediction (Api.report_of "r1") (Api.later 0 Api.fresh_world)
    = (Runtime.Ok a1, w1)
    /\ Api.report_bad_prediction (Api.report_of "r2") (Api.later 1 w1)
       = (Runtime.Ok a2, w2)
    /\ Api.report_bad_prediction (Api.report_of "r3") (Api.later 1 w2)
       = (Runtime.Ok a3, w3)
    /\ Api.report_count a1 = 1%Z /\ Api.report_count a2 = 2%Z
    /\ Api.report_count a3 = 3%Z
    /\ Runtime.notified (Runtime.trace w2) = []
    /\ List.length (Runtime.notified (Runtime.trace w3)) = 1%nat.
Proof.
  destruct (third_report_triggers_notification
              Api.fresh_world
              {| Runtime.report_count := 0; Runtime.last_email_sent := None |}
              (Api.report_of "r1") (Api.report_of "r2") (Api.report_of "r3")
              0%Z 1%Z 1%Z eq_refl eq_refl eq_refl eq_refl eq_refl)
    as (a1 & w1 & a2 & w2 & a3 & w3 & E1 & E2 & E3 & C1 & C2 & C3 & _
        & N1 & N2 & N3 & _).
  exists a1, w1, a2, w2, a3, w3.
  split; [exact E1|]. split; [exact E2|]. split; [exact E3|].
  split; [exact C1|]. split; [exact C2|]. split; [exact C3|].
  split; [exact N2 | rewrite N3; reflexivity].
Defined.

(** A confidence of 1.5. *)
Lemma invalid_report_witness :
  exists w',
    Api.report_bad_prediction
      {| Api.text := Py.u "Test"; Api.predicted_sentiment := Api.positif;
         Api.confidence_score := 1.5%float |} Api.world_after_two
    = (Runtime.Raise (Runtime.HTTPException 400), w')
    /\ w' = Api.world_after_two.
Proof.
  destruct (invalid_report_rejected_before_persistence
              Api.world_after_two
              {| Api.text := Py.u "Test"; Api.predicted_sentiment := Api.positif;
                 Api.confidence_score := 1.5%float |}
              (or_intror eq_refl))
    as (w' & E & Hw & _).
  exists w'. split; assumption.
Defined.

(** The third report of a configured process whose provider refuses every
    call: three attempts, no delivery. *)
Lemma failed_delivery_witness :
  exists recent w2 w3 resp,
    Api.persist_and_select (Api.report_of "r3") Api.always_limited_after_two
    = (Runtime.Ok recent, w2)
    /\ EmailService.send_bad_predictions_email recent w2
       = (Runtime.Ok false, w3)
    /\ Runtime.attempts_made (Runtime.trace w3) = [1; 2; 3]%nat
    /\ Api.report_bad_prediction (Api.report_of "r3")
         Api.always_limited_after_two
       = (Runtime.Ok resp, w3)
    /\ Api.email_sent resp = Some false
    /\ Api.report_count resp = 3%Z
    /\ List.length (Runtime.bad_predictions (Runtime.database w3)) = 3%nat
    /\ Database.counter (Runtime.database w3) = 3%Z
    /\ List.length (Runtime.notified (Runtime.trace w3)) = 1%nat.
Proof.
  destruct (failed_delivery_keeps_report_and_count
              Api.always_limited_after_two
              {| Runtime.report_count := 2; Runtime.last_email_sent := None |}
              (Api.report_of "r3") eq_refl eq_refl eq_refl)
    as (recent & w2 & sent & w3 & resp & w' & E1 & E2 & E3 & _ & Hc & He
        & Hr & Hcnt & Hn & Hf).
  assert (Hsent : sent = false /\ Runtime.attempts_made (Runtime.trace w3)
                                  = [1; 2; 3]%nat).
  { vm_compute in E1. injection E1 as <- <-.
    vm_compute in E2. injection E2 as <- <-. split; reflexivity. }
  destruct Hsent as [-> Ha].
  destruct (Hf eq_refl) as (-> & _ & _).
  exists recent, w2, w3, resp.
  split; [exact E1|]. split; [exact E2|]. split; [exact Ha|].
  split; [exact E3|]. split; [exact He|]. split; [exact Hc|].
  split; [rewrite Hr; reflexivity|]. split; [exact Hcnt|].
  rewrite Hn. reflexivity.
Defined.

(** Rate-limited twice, then delivered. *)
Lemma rate_limit_witness :
  exists w',
    EmailService._send_with_retry 3 Api.rate_limited_twice
    = (Runtime.Ok true, w')
    /\ Runtime.sleeps (Runtime.trace w') = [2%Z; 4%Z].
Proof.
  assert (Hans : EmailService.answers_next Api.rate_limited_twice
                   [EmailService.rate_limited; EmailService.rate_limited;
                    Runtime.Delivered]).
  { intros i d H. destruct i as [|[|[|i]]]; cbn in H.
    - injection H as <-. reflexivity.
    - injection H as <-. reflexivity.
    - injection H as <-. reflexivity.
    - destruct i; discriminate H. }
  destruct (rate_limit_retried_with_exponential_backoff
              Api.rate_limited_twice [] Hans eq_refl)
    as ((w' & E & Ht & _) & _).
  exists w'. split; [exact E|]. rewrite Ht. reflexivity.
Defined.

(** The third report of a fresh process. *)
Lemma counter_lockstep_witness :
  exists resp w' tail,
    Api.report_bad_prediction (Api.report_of "r3") Api.world_after_two
    = (Runtime.Ok resp, w')
    /\ Database.counter (Runtime.database w') = 3%Z
    /\ List.length (Runtime.bad_predictions (Runtime.database w')) = 3%nat
    /\ Runtime.inserted tail = [].
Proof.
  destruct (proj1 counter_in_lockstep_with_reports
              Api.world_after_two
              {| Runtime.report_count := 2; Runtime.last_email_sent := None |}
              (Api.report_of "r3") eq_refl eq_refl)
    as (resp & w' & tail & E & Hr & Hc & _ & Hi & _).
  exists resp, w', tail.
  split; [exact E|]. split; [exact Hc|]. split; [rewrite Hr; reflexivity|].
  exact Hi.
Defined.

(* ================================================================== *)
(** * More on the delivery *)
(* ================================================================== *)

(** Reduce the projections of a world or of a database written out. *)
Ltac fields :=
  cbn [Runtime.report_count Runtime.last_email_sent Runtime.database
       Runtime.sqlite_sequence Runtime.bad_predictions Runtime.email_tracker
       Runtime.clock Runtime.trace Runtime.BREVO_API_KEY
       Runtime.EMAIL_RECIPIENT Runtime.configuration_raises Runtime.brevo
       Runtime.brevo_calls].

Section RetryFacts.
Import Py Runtime Database EmailService Api Retry.
Local Open Scope Z_scope.

Lemma sum_backoff (a k : nat) :
  fold_right Z.add 0 (map backoff (seq a k))
  = 2 ^ Z.of_nat (a + k) - 2 ^ Z.of_nat a.
Proof.
  revert a; induction k as [|k IH]; intros a; cbn [seq map fold_right].
  - rewrite Nat.add_0_r. lia.
  - rewrite IH. unfold backoff.
    replace (Z.of_nat (S a + k)) with (Z.of_nat a + 1 + Z.of_nat k) by lia.
    replace (Z.of_nat (a + S k)) with (Z.of_nat a + 1 + Z.of_nat k) by lia.
    replace (Z.of_nat (S a)) with (Z.of_nat a + 1) by lia.
    rewrite (Z.pow_add_r 2 (Z.of_nat a) 1) by lia. lia.
Qed.

Lemma sleeps_retries (a k : nat) : sleeps (retries a k) = map backoff (seq a k).
Proof.
  unfold retries. revert a; induction k as [|k IH]; intros a; [reflexivity|].
  cbn [seq flat_map map]. unfold sleeps in *. rewrite flat_map_app.
  cbn. rewrite IH. reflexivity.
Qed.

Lemma attempts_retries (a k : nat) : attempts_made (retries a k) = seq a k.
Proof.
  unfold retries. revert a; induction k as [|k IH]; intros a; [reflexivity|].
  cbn [seq flat_map]. unfold attempts_made in *. rewrite flat_map_app.
  cbn. rewrite IH. reflexivity.
Qed.

(** The delivery stops at the first answer that is not a retryable
    failure, if the budget reaches it. *)
Lemma send_attempts_until (k : nat) :
  forall (a n max_attempts : nat) (w : World) (d : Delivery),
    (a + n = S max_attempts)%nat -> (k < n)%nat ->
    fails_next w k ->
    brevo w (k + brevo_calls w) = d -> retryable d = false ->
    exists w',
      send_attempts (seq a n) max_attempts w = (Ok (verdict d), w')
      /\ trace w' = trace w ++ retries a k ++ [EvSendAttempt (a + k)]
      /\ clock w' = clock w + fold_right Z.add 0 (map backoff (seq a k))
      /\ brevo_calls w' = S (k + brevo_calls w)
      /\ database w' = database w.
Proof.
  induction k as [|k IH]; intros a n max_attempts w d Hsum Hk Hf Hd Hr.
  - destruct n as [|n]; [lia|].
    cbn [seq send_attempts]. unfold bind, send_transac_email.
    cbn [Nat.add] in Hd. rewrite Hd.
    destruct d as [|status|]; [| |discriminate Hr].
    + eexists. split; [reflexivity|]. cbn. rewrite Nat.add_0_r, Z.add_0_r.
      repeat split; reflexivity.
    + cbn in Hr. apply negb_false_iff in Hr. rewrite Hr.
      eexists. split; [reflexivity|]. cbn. rewrite Nat.add_0_r, Z.add_0_r.
      repeat split; reflexivity.
  - destruct n as [|n]; [lia|].
    cbn [seq send_attempts]. unfold bind at 1, send_transac_email.
    pose proof (Hf 0%nat ltac:(lia)) as H0. cbn [Nat.add] in H0.
    assert (Hlt : (a <? max_attempts)%nat = true) by (apply Nat.ltb_lt; lia).
    set (w2 := {| database := database w;
                  clock := clock w + 2 ^ Z.of_nat a;
                  BREVO_API_KEY := BREVO_API_KEY w;
                  EMAIL_RECIPIENT := EMAIL_RECIPIENT w;
                  configuration_raises := configuration_raises w;
                  brevo := brevo w; brevo_calls := S (brevo_calls w);
                  trace := (trace w ++ [EvSendAttempt a])
                           ++ [EvSleep (2 ^ Z.of_nat a)] |}).
    assert (Hnext : exists w',
              send_attempts (seq (S a) n) max_attempts w2 = (Ok (verdict d), w')
              /\ trace w' = trace w2 ++ retries (S a) k ++ [EvSendAttempt (S a + k)]
              /\ clock w' = clock w2 + fold_right Z.add 0 (map backoff (seq (S a) k))
              /\ brevo_calls w' = S (k + brevo_calls w2)
              /\ database w' = database w2).
    { apply IH; try lia; try assumption.
      - intros i Hi. subst w2. cbn [brevo brevo_calls].
        replace (i + S (brevo_calls w))%nat with (S i + brevo_calls w)%nat by lia.
        apply Hf. lia.
      - subst w2. cbn [brevo brevo_calls].
        replace (k + S (brevo_calls w))%nat with (S k + brevo_calls w)%nat by lia.
        exact Hd. }
    destruct Hnext as (w' & E & Ht & Hc & Hb & Hdb).
    assert (Hgo : (bind (sleep (2 ^ Z.of_nat a))
                        (fun _ => send_attempts (seq (S a) n) max_attempts))
                    {| database := database w; clock := clock w;
                       BREVO_API_KEY := BREVO_API_KEY w;
                       EMAIL_RECIPIENT := EMAIL_RECIPIENT w;
                       configuration_raises := configuration_raises w;
                       brevo := brevo w; brevo_calls := S (brevo_calls w);
                       trace := trace w ++ [EvSendAttempt a] |}
                  = (Ok (verdict d), w')).
    { unfold bind, sleep. cbn [database clock BREVO_API_KEY EMAIL_RECIPIENT
        configuration_raises brevo brevo_calls trace]. exact E. }
    exists w'. split.
    { destruct (brevo w (brevo_calls w)) as [|status|]; [discriminate H0| |].
      - cbn in H0. apply negb_true_iff in H0. rewrite H0.
        destruct (status =? 429); rewrite Hlt; exact Hgo.
      - rewrite Hlt. exact Hgo. }
    subst w2. cbn [trace clock brevo_calls database] in Ht, Hc, Hb, Hdb.
    split.
    { rewrite Ht. unfold retries. cbn [seq flat_map].
      rewrite <- !app_assoc. cbn [app].
      replace (S a + k)%nat with (a + S k)%nat by lia. reflexivity. }
    split.
    { rewrite Hc. cbn [seq map fold_right]. unfold backoff. lia. }
    split; [rewrite Hb; lia | exact Hdb].
Qed.

(** When every answer within the budget is a retryable failure, the
    delivery fails after the last attempt, which no wait follows. *)
Lemma send_attempts_exhaust (m : nat) :
  forall (a max_attempts : nat) (w : World),
    (a + S m = S max_attempts)%nat ->
    fails_next w (S m) ->
    exists w',
      send_attempts (seq a (S m)) max_attempts w = (Ok false, w')
      /\ trace w' = trace w ++ retries a m ++ [EvSendAttempt (a + m)]
      /\ clock w' = clock w + fold_right Z.add 0 (map backoff (seq a m))
      /\ brevo_calls w' = S (m + brevo_calls w)
      /\ database w' = database w.
Proof.
  induction m as [|m IH]; intros a max_attempts w Hsum Hf;
    pose proof (Hf 0%nat ltac:(lia)) as H0; cbn [Nat.add] in H0;
    cbn [seq send_attempts]; unfold bind at 1, send_transac_email.
  - assert (Hlt : (a <? max_attempts)%nat = false) by (apply Nat.ltb_ge; lia).
    exists {| database := database w; clock := clock w;
              BREVO_API_KEY := BREVO_API_KEY w;
              EMAIL_RECIPIENT := EMAIL_RECIPIENT w;
              configuration_raises := configuration_raises w;
              brevo := brevo w; brevo_calls := S (brevo_calls w);
              trace := trace w ++ [EvSendAttempt a] |}.
    split.
    { destruct (brevo w (brevo_calls w)) as [|status|]; [discriminate H0| |].
      - cbn in H0. apply negb_true_iff in H0. rewrite H0.
        destruct (status =? 429); rewrite Hlt; reflexivity.
      - rewrite Hlt. reflexivity. }
    cbn. rewrite Nat.add_0_r, Z.add_0_r. repeat split; reflexivity.
  - assert (Hlt : (a <? max_attempts)%nat = true) by (apply Nat.ltb_lt; lia).
    set (w2 := {| database := database w;
                  clock := clock w + 2 ^ Z.of_nat a;
                  BREVO_API_KEY := BREVO_API_KEY w;
                  EMAIL_RECIPIENT := EMAIL_RECIPIENT w;
                  configuration_raises := configuration_raises w;
                  brevo := brevo w; brevo_calls := S (brevo_calls w);
                  trace := (trace w ++ [EvSendAttempt a])
                           ++ [EvSleep (2 ^ Z.of_nat a)] |}).
    destruct (IH (S a) max_attempts w2 ltac:(lia)) as (w' & E & Ht & Hc & Hb & Hdb).
    { intros i Hi. subst w2. cbn [brevo brevo_calls].
      replace (i + S (brevo_calls w))%nat with (S i + brevo_calls w)%nat by lia.
      apply Hf. lia. }
    assert (Hgo : (bind (sleep (2 ^ Z.of_nat a))
                        (fun _ => send_attempts (seq (S a) (S m)) max_attempts))
                    {| database := database w; clock := clock w;
                       BREVO_API_KEY := BREVO_API_KEY w;
                       EMAIL_RECIPIENT := EMAIL_RECIPIENT w;
                       configuration_raises := configuration_raises w;
                       brevo := brevo w; brevo_calls := S (brevo_calls w);
                       trace := trace w ++ [EvSendAttempt a] |}
                  = (Ok false, w')).
    { unfold bind, sleep. cbn [database clock BREVO_API_KEY EMAIL_RECIPIENT
        configuration_raises brevo brevo_calls trace]. exact E. }
    exists w'. split.
    { destruct (brevo w (brevo_calls w)) as [|status|]; [discriminate H0| |].
      - cbn in H0. apply negb_true_iff in H0. rewrite H0.
        destruct (status =? 429); rewrite Hlt; exact Hgo.
      - rewrite Hlt. exact Hgo. }
    subst w2. cbn [trace clock brevo_calls database] in Ht, Hc, Hb, Hdb.
    split.
    { rewrite Ht. unfold retries. cbn [seq flat_map].
      rewrite <- !app_assoc. cbn [app].
      replace (S a + m)%nat with (a + S m)%nat by lia. reflexivity. }
    split.
    { rewrite Hc. cbn [seq map fold_right]. unfold backoff. lia. }
    split; [rewrite Hb; lia | exact Hdb].
Qed.

(** Whatever the provider answers: the attempts stay within the budget
    and the waits within the sum of the backoffs. *)
Lemma send_attempts_bounds (n : nat) :
  forall (a max_attempts : nat) (w : World),
    (a + n = S max_attempts)%nat ->
    exists b w',
      send_attempts (seq a n) max_attempts w = (Ok b, w')
      /\ clock w <= clock w'
      /\ clock w' <= clock w + fold_right Z.add 0 (map backoff (seq a (pred n)))
      /\ (brevo_calls w <= brevo_calls w' <= brevo_calls w + n)%nat
      /\ database w' = database w
      /\ brevo w' = brevo w.
Proof.
  induction n as [|n IH]; intros a max_attempts w Hsum.
  - exists false, w. cbn. repeat split; lia.
  - cbn [seq send_attempts]. unfold bind at 1. cbn [send_transac_email].
    set (w1 := {| database := database w; clock := clock w;
                  BREVO_API_KEY := BREVO_API_KEY w;
                  EMAIL_RECIPIENT := EMAIL_RECIPIENT w;
                  configuration_raises := configuration_raises w;
                  brevo := brevo w; brevo_calls := S (brevo_calls w);
                  trace := trace w ++ [EvSendAttempt a] |}).
    assert (Hpos : 0 <= fold_right Z.add 0 (map backoff (seq a (pred (S n))))).
    { rewrite sum_backoff. cbn [pred].
      assert (2 ^ Z.of_nat a <= 2 ^ Z.of_nat (a + n))
        by (apply Z.pow_le_mono_r; lia). lia. }
    assert (Hstop : forall b, exists b' w',
              @ret bool b w1 = (Ok b', w')
              /\ clock w <= clock w'
              /\ clock w' <= clock w
                    + fold_right Z.add 0 (map backoff (seq a (pred (S n))))
              /\ (brevo_calls w <= brevo_calls w' <= brevo_calls w + S n)%nat
              /\ database w' = database w /\ brevo w' = brevo w).
    { intros b. exists b, w1. cbn [ret]. subst w1.
      cbn [clock brevo_calls database brevo]. repeat split; lia. }
    assert (Hretry : exists b' w',
              (if (a <? max_attempts)%nat
               then bind (sleep (2 ^ Z.of_nat a))
                         (fun _ => send_attempts (seq (S a) n) max_attempts)
               else ret false) w1 = (Ok b', w')
              /\ clock w <= clock w'
              /\ clock w' <= clock w
                    + fold_right Z.add 0 (map backoff (seq a (pred (S n))))
              /\ (brevo_calls w <= brevo_calls w' <= brevo_calls w + S n)%nat
              /\ database w' = database w /\ brevo w' = brevo w).
    { destruct (a <? max_attempts)%nat eqn:Elt; [|apply Hstop].
      apply Nat.ltb_lt in Elt.
      unfold bind, sleep.
      match goal with |- context [send_attempts _ _ ?w2] =>
        destruct (IH (S a) max_attempts w2 ltac:(lia))
          as (b & w' & E & Hc1 & Hc2 & Hb & Hdb & Hbr) end.
      exists b, w'. rewrite E. subst w1.
      cbn [clock brevo_calls database brevo] in Hc1, Hc2, Hb, Hdb, Hbr.
      destruct n as [|n]; [lia|]. cbn [pred] in *.
      cbn [seq map fold_right].
      assert (0 < 2 ^ Z.of_nat a) by (apply Z.pow_pos_nonneg; lia).
      unfold backoff at 1.
      repeat split; try lia; assumption. }
    destruct (brevo w (brevo_calls w)) as [|status|]; [apply Hstop| |apply Hretry].
    destruct (status =? 401); [apply Hstop|].
    destruct (status =? 429); apply Hretry.
Qed.

(** X1.  A delivery ends at the first answer of the provider that is not a
    retryable failure, provided the budget reaches it: [True] when that
    answer is a success, [False] when it is the status 401, whatever the
    earlier failures were (429, another status, another exception).  It
    has then made one attempt per answer, waited [2 ** attempt] seconds
    after each failed one, [2 ** (k + 1) - 2] seconds in all after [k]
    failures, and left the database alone. *)
Theorem delivery_ends_at_first_final_answer :
  forall (w : World) (max_attempts k : nat) (d : Delivery),
    (k < max_attempts)%nat ->
    fails_next w k ->
    brevo w (k + brevo_calls w) = d ->
    retryable d = false ->
    exists w',
      _send_with_retry max_attempts w = (Ok (verdict d), w')
      /\ trace w' = trace w ++ retries 1 k ++ [EvSendAttempt (S k)]
      /\ attempts_made (retries 1 k ++ [EvSendAttempt (S k)]) = seq 1 (S k)
      /\ sleeps (retries 1 k ++ [EvSendAttempt (S k)]) = map backoff (seq 1 k)
      /\ clock w' = clock w + (2 ^ Z.of_nat (S k) - 2)
      /\ brevo_calls w' = S (k + brevo_calls w)
      /\ database w' = database w.
Proof.
  intros w max_attempts k d Hk Hf Hd Hr.
  destruct (send_attempts_until k 1 max_attempts max_attempts w d
              eq_refl Hk Hf Hd Hr) as (w' & E & Ht & Hc & Hb & Hdb).
  exists w'. split; [exact E|]. split; [exact Ht|].
  split.
  { unfold attempts_made. rewrite flat_map_app. fold (attempts_made (retries 1 k)).
    rewrite attempts_retries. cbn [flat_map app].
    rewrite (seq_S k 1). reflexivity. }
  split.
  { unfold sleeps. rewrite flat_map_app. fold (sleeps (retries 1 k)).
    rewrite sleeps_retries. cbn. apply app_nil_r. }
  split; [rewrite Hc, sum_backoff; cbn [Nat.add]; change (2 ^ Z.of_nat 1) with 2; reflexivity|].
  split; assumption.
Qed.

(** X2.  When the provider answers every attempt of the budget with a
    retryable failure, the delivery returns [False] after exactly
    [max_attempts] attempts; it has waited after each attempt but the last
    ([2 ** max_attempts - 2] seconds in all, 6 for the budget of 3).  With
    a budget of 0 it returns [False] without any attempt. *)
Theorem delivery_fails_when_budget_is_spent :
  forall (w : World) (m : nat),
    fails_next w (S m) ->
    (exists w',
       _send_with_retry (S m) w = (Ok false, w')
       /\ trace w' = trace w ++ retries 1 m ++ [EvSendAttempt (S m)]
       /\ sleeps (retries 1 m ++ [EvSendAttempt (S m)]) = map backoff (seq 1 m)
       /\ clock w' = clock w + (2 ^ Z.of_nat (S m) - 2)
       /\ brevo_calls w' = S (m + brevo_calls w)
       /\ database w' = database w)
    /\ _send_with_retry 0 w = (Ok false, w).
Proof.
  intros w m Hf. split; [|reflexivity].
  destruct (send_attempts_exhaust m 1 (S m) w eq_refl Hf)
    as (w' & E & Ht & Hc & Hb & Hdb).
  exists w'. split; [exact E|]. split; [exact Ht|].
  split.
  { unfold sleeps. rewrite flat_map_app. fold (sleeps (retries 1 m)).
    rewrite sleeps_retries. cbn. apply app_nil_r. }
  split; [rewrite Hc, sum_backoff; cbn [Nat.add]; change (2 ^ Z.of_nat 1) with 2; reflexivity|].
  split; assumption.
Qed.

Lemma send_bad_predictions_email_bounds (predictions : list Row) (w : World) :
  exists b w',
    send_bad_predictions_email predictions w = (Ok b, w')
    /\ clock w <= clock w' <= clock w + 6
    /\ (brevo_calls w <= brevo_calls w' <= brevo_calls w + 3)%nat
    /\ database w' = database w.
Proof.
  unfold send_bad_predictions_email, bind, log, get. fields.
  set (w1 := {| database := database w; clock := clock w;
                BREVO_API_KEY := BREVO_API_KEY w;
                EMAIL_RECIPIENT := EMAIL_RECIPIENT w;
                configuration_raises := configuration_raises w;
                brevo := brevo w; brevo_calls := brevo_calls w;
                trace := trace w ++ [EvNotify predictions] |}).
  assert (Hstop : exists b w',
            @ret bool false w1 = (Ok b, w')
            /\ clock w <= clock w' <= clock w + 6
            /\ (brevo_calls w <= brevo_calls w' <= brevo_calls w + 3)%nat
            /\ database w' = database w).
  { exists false, w1. subst w1. cbn. repeat split; lia. }
  destruct (falsy (BREVO_API_KEY w)); [apply Hstop|].
  destruct (falsy (EMAIL_RECIPIENT w)); [apply Hstop|].
  destruct (configuration_raises w); [apply Hstop|].
  unfold _send_with_retry.
  destruct (send_attempts_bounds 3 1 3 w1 eq_refl)
    as (b & w' & E & Hc1 & Hc2 & Hb & Hdb & _).
  exists b, w'. rewrite E. subst w1. cbn in Hc1, Hc2, Hb, Hdb.
  repeat split; try lia; assumption.
Qed.

(** X3.  Without its configuration (an API key or a recipient that is
    unset or empty, or a client that cannot be configured) the Notifier
    returns [False] at once: it makes no attempt, waits for nothing and
    changes nothing but the record of its invocation. *)
Theorem unconfigured_notifier_makes_no_attempt :
  forall (w : World) (predictions : list Row),
    configured w = false ->
    exists w',
      send_bad_predictions_email predictions w = (Ok false, w')
      /\ trace w' = trace w ++ [EvNotify predictions]
      /\ attempts_made (trace w') = attempts_made (trace w)
      /\ brevo_calls w' = brevo_calls w
      /\ clock w' = clock w
      /\ database w' = database w.
Proof.
  intros w predictions Hc.
  unfold send_bad_predictions_email, bind, log, get. fields.
  assert (Hcase : falsy (BREVO_API_KEY w) = true
                  \/ falsy (BREVO_API_KEY w) = false
                     /\ (falsy (EMAIL_RECIPIENT w) = true
                         \/ falsy (EMAIL_RECIPIENT w) = false
                            /\ configuration_raises w = true)).
  { unfold configured in Hc.
    destruct (falsy (BREVO_API_KEY w)); [left; reflexivity|]. right.
    split; [reflexivity|].
    destruct (falsy (EMAIL_RECIPIENT w)); [left; reflexivity|]. right.
    split; [reflexivity|].
    destruct (configuration_raises w); [reflexivity | discriminate Hc]. }
  exists {| database := database w; clock := clock w;
            BREVO_API_KEY := BREVO_API_KEY w;
            EMAIL_RECIPIENT := EMAIL_RECIPIENT w;
            configuration_raises := configuration_raises w;
            brevo := brevo w; brevo_calls := brevo_calls w;
            trace := trace w ++ [EvNotify predictions] |}.
  split.
  { destruct Hcase as [-> | [-> [-> | [-> ->]]]]; reflexivity. }
  fields. split; [reflexivity|].
  unfold attempts_made. rewrite flat_map_app. cbn.
  rewrite app_nil_r. repeat split; reflexivity.
Qed.

(** What an accepted request does to the clock, to the provider and to
    [last_email_sent]. *)
Lemma report_accepted_timing (w : World) (request : BadPredictionRequest)
  (t : Tracker) :
  email_tracker (database w) = Some t ->
  accepted request = true ->
  exists resp w',
    report_bad_prediction request w = (Ok resp, w')
    /\ clock w <= clock w' <= clock w + 6
    /\ (brevo_calls w <= brevo_calls w' <= brevo_calls w + 3)%nat
    /\ (email_sent resp = Some true ->
          email_tracker (database w')
          = Some {| Runtime.report_count := Runtime.report_count t + 1;
                    last_email_sent := Some (clock w') |})
    /\ (((Runtime.report_count t + 1) mod 3 =? 0) = false ->
          clock w' = clock w /\ brevo_calls w' = brevo_calls w)
    /\ sqlite_sequence (database w') = sqlite_sequence (database w) + 1.
Proof.
  intros Ht Hacc.
  unfold accepted in Hacc. apply andb_true_iff in Hacc. destruct Hacc as [Hs Hc].
  unfold report_bad_prediction, try_except, bind at 1.
  rewrite Hs. cbn [negb]. unfold bind at 1. rewrite Hc. cbn [negb].
  cbv [bind ret get set_database log insert_bad_prediction
       increment_email_counter get_recent_bad_predictions].
  fields. rewrite Ht. fields.
  destruct ((Runtime.report_count t + 1) mod 3 =? 0) eqn:Em.
  - cbn beta. fields.
    match goal with
    | |- context [send_bad_predictions_email ?p ?w2] =>
        destruct (send_bad_predictions_email_bounds p w2)
          as (sent & w3 & E & Hck & Hbc & Hd); rewrite E
    end.
    cbn [database clock brevo_calls] in Hck, Hbc, Hd.
    destruct sent.
    + cbv [update_last_email_sent bind get log set_database ret].
      fields. rewrite Hd. fields.
      eexists _, _. split; [reflexivity|].
      cbn [email_sent]. fields.
      split; [exact Hck|]. split; [exact Hbc|].
      split; [reflexivity|]. split; [discriminate | reflexivity].
    + eexists _, _. split; [reflexivity|].
      cbn [email_sent].
      split; [exact Hck|]. split; [exact Hbc|].
      split; [discriminate|]. split; [discriminate|].
      rewrite Hd. reflexivity.
  - eexists _, _. split; [reflexivity|].
    cbn [email_sent]. fields.
    split; [lia|]. split; [lia|]. split; [discriminate|].
    split; [intros _; split; reflexivity | reflexivity].
Qed.


End RetryFacts.

(* ================================================================== *)
(** * More on the store *)
(* ================================================================== *)

Section StoreFacts.
Import Py Runtime Database EmailService Api Store.
Local Open Scope Z_scope.

Lemma insert_by_timestamp_desc_perm (r : Row) (l : list Row) :
  Permutation (insert_by_timestamp_desc r l) (r :: l).
Proof.
  induction l as [|x l IH]; cbn; [reflexivity|].
  destruct (timestamp x <? timestamp r); [reflexivity|].
  rewrite IH. apply perm_swap.
Qed.

Lemma fold_insert_perm (rows acc : list Row) :
  Permutation (fold_left (fun a r => insert_by_timestamp_desc r a) rows acc)
              (acc ++ rows).
Proof.
  revert acc; induction rows as [|r rows IH]; intros acc; cbn [fold_left].
  - rewrite app_nil_r. reflexivity.
  - rewrite IH, insert_by_timestamp_desc_perm.
    apply Permutation_middle.
Qed.

Lemma order_by_timestamp_desc_perm (rows : list Row) :
  Permutation (order_by_timestamp_desc rows) rows.
Proof. apply (fold_insert_perm rows []). Qed.

Lemma insert_not_older_sorted (r : Row) (l : list Row) :
  StronglySorted not_older l ->
  StronglySorted not_older (insert_by_timestamp_desc r l).
Proof.
  induction 1 as [|x l Hl IH Hx]; cbn.
  - repeat constructor.
  - destruct (timestamp x <? timestamp r) eqn:E.
    + apply Z.ltb_lt in E. constructor; [constructor; assumption|].
      constructor; [unfold not_older; lia|].
      rewrite Forall_forall in *. intros y Hy.
      specialize (Hx y Hy). unfold not_older in *. lia.
    + apply Z.ltb_ge in E. constructor; [exact IH|].
      rewrite (insert_by_timestamp_desc_perm r l).
      constructor; [exact E | exact Hx].
Qed.

Lemma fold_insert_not_older_sorted (rows acc : list Row) :
  StronglySorted not_older acc ->
  StronglySorted not_older
    (fold_left (fun a r => insert_by_timestamp_desc r a) rows acc).
Proof.
  revert acc; induction rows as [|r rows IH]; intros acc H; cbn [fold_left].
  - exact H.
  - apply IH, insert_not_older_sorted, H.
Qed.

Lemma insert_before_sorted (r : Row) (l : list Row) :
  StronglySorted before l ->
  Forall (fun x => id x < id r) l ->
  StronglySorted before (insert_by_timestamp_desc r l).
Proof.
  induction 1 as [|x l Hl IH Hx]; intros Hid; cbn.
  - repeat constructor.
  - inversion Hid as [|? ? Hxr Hid']; subst.
    destruct (timestamp x <? timestamp r) eqn:E.
    + apply Z.ltb_lt in E. constructor; [constructor; assumption|].
      constructor; [left; exact E|].
      rewrite Forall_forall in *. intros y Hy.
      destruct (Hx y Hy) as [H|[H _]]; left; lia.
    + apply Z.ltb_ge in E. constructor; [apply IH, Hid'|].
      rewrite (insert_by_timestamp_desc_perm r l).
      constructor; [|exact Hx].
      unfold before.
      destruct (Z.eq_dec (timestamp x) (timestamp r)) as [Heq|Hne];
        [right; split; assumption | left; lia].
Qed.

Lemma fold_insert_before_sorted (rows acc : list Row) :
  StronglySorted before acc ->
  StronglySorted (fun a b => id a < id b) rows ->
  Forall (fun x => Forall (fun y => id x < id y) rows) acc ->
  StronglySorted before
    (fold_left (fun a r => insert_by_timestamp_desc r a) rows acc).
Proof.
  revert acc; induction rows as [|r rows IH]; intros acc Ha Hr Hc;
    cbn [fold_left]; [exact Ha|].
  inversion Hr as [|? ? Hr' Hrr]; subst.
  apply IH; [| exact Hr' |].
  - apply insert_before_sorted; [exact Ha|].
    rewrite Forall_forall in *. intros x Hx.
    specialize (Hc x Hx). inversion Hc; assumption.
  - rewrite (insert_by_timestamp_desc_perm r acc).
    constructor; [exact Hrr|].
    rewrite Forall_forall in *. intros x Hx.
    specialize (Hc x Hx). inversion Hc; assumption.
Qed.

Lemma strongly_sorted_app_cross {A} (R : A -> A -> Prop) (a b : list A) :
  StronglySorted R (a ++ b) -> forall x y, In x a -> In y b -> R x y.
Proof.
  induction a as [|h a IH]; intros H x y Hx Hy; [contradiction|].
  cbn in H. inversion H as [|? ? Hs Hf]; subst.
  destruct Hx as [<-|Hx].
  - rewrite Forall_forall in Hf. apply Hf, in_or_app. right. exact Hy.
  - apply IH; assumption.
Qed.

Lemma In_firstn {A} (n : nat) (l : list A) (x : A) :
  In x (firstn n l) -> In x l.
Proof.
  intros H. rewrite <- (firstn_skipn n l). apply in_or_app. left. exact H.
Qed.

Lemma strongly_sorted_firstn {A} (R : A -> A -> Prop) (n : nat) (l : list A) :
  StronglySorted R l -> StronglySorted R (firstn n l).
Proof.
  intros H. revert n; induction H as [|x l Hl IH Hx]; intros [|n]; cbn;
    try constructor.
  - apply IH.
  - rewrite Forall_forall in *. intros y Hy. apply Hx, (In_firstn n), Hy.
Qed.

(** X6.  [get_recent_bad_predictions(limit)] reads without writing; it
    returns as many rows as the table has, up to [limit], all of them rows
    of the table, from the newest timestamp to the oldest, and no row it
    leaves out is newer than one it returns. *)
Theorem recent_predictions_are_the_newest :
  forall (w : World) (limit : nat),
    exists recent w',
      get_recent_bad_predictions limit w = (Ok recent, w')
      /\ database w' = database w
      /\ List.length recent
         = Nat.min limit (List.length (bad_predictions (database w)))
      /\ incl recent (bad_predictions (database w))
      /\ StronglySorted not_older recent
      /\ (forall x y, In x (bad_predictions (database w)) -> ~ In x recent ->
                      In y recent -> timestamp x <= timestamp y).
Proof.
  intros w limit.
  unfold get_recent_bad_predictions, bind, get, log, ret.
  cbn [database].
  set (rows := bad_predictions (database w)).
  pose proof (order_by_timestamp_desc_perm rows) as Hp.
  assert (Hs : StronglySorted not_older (order_by_timestamp_desc rows))
    by (apply fold_insert_not_older_sorted; constructor).
  eexists _, _. split; [reflexivity|]. cbn [database].
  split; [reflexivity|].
  split; [rewrite length_firstn, (Permutation_length Hp); reflexivity|].
  split.
  { intros x Hx. apply (Permutation_in _ Hp), (In_firstn limit), Hx. }
  split; [apply strongly_sorted_firstn, Hs|].
  intros x y Hx Hnx Hy.
  apply (Permutation_in _ (Permutation_sym Hp)) in Hx.
  rewrite <- (firstn_skipn limit (order_by_timestamp_desc rows)) in Hx, Hs.
  apply in_app_or in Hx. destruct Hx as [Hx|Hx]; [contradiction|].
  exact (strongly_sorted_app_cross _ _ _ Hs y x Hy Hx).
Qed.

(** X7.  When the rowids are those AUTOINCREMENT gave, the rows come back
    newest first and, within one second, in the order of their insertion
    (smaller rowid first): the order of the result is fully determined,
    and it is not "most recent first" among the rows of one second. *)
Theorem recent_predictions_tie_order :
  forall (w : World) (limit : nat),
    well_sequenced (database w) ->
    exists recent w',
      get_recent_bad_predictions limit w = (Ok recent, w')
      /\ StronglySorted before recent.
Proof.
  intros w limit [Hid _].
  unfold get_recent_bad_predictions, bind, get, log, ret. cbn [database].
  eexists _, _. split; [reflexivity|].
  apply strongly_sorted_firstn.
  apply fold_insert_before_sorted; [constructor | exact Hid | constructor].
Qed.

Lemma order_by_timestamp_desc_snoc (rows : list Row) (r : Row) :
  order_by_timestamp_desc (rows ++ [r])
  = insert_by_timestamp_desc r (order_by_timestamp_desc rows).
Proof. unfold order_by_timestamp_desc. rewrite fold_left_app. reflexivity. Qed.

(** X8.  A row inserted when the clock is later than every stored
    timestamp is the first row [get_recent_bad_predictions] returns, with
    the text, the label and the confidence that were given, the next
    rowid and the time of the insertion. *)
Theorem inserted_row_is_read_back_first :
  forall (w : World) (text sentiment : str) (confidence : float) (k : nat),
    Forall (fun r => timestamp r < clock w) (bad_predictions (database w)) ->
    exists rest w',
      bind (insert_bad_prediction text sentiment confidence)
           (fun _ => get_recent_bad_predictions (S k)) w
      = (Ok ({| id := sqlite_sequence (database w) + 1;
                Runtime.text := text;
                Runtime.predicted_sentiment := sentiment;
                Runtime.confidence_score := confidence;
                timestamp := clock w |} :: rest), w')
      /\ rest = firstn k (order_by_timestamp_desc (bad_predictions (database w))).
Proof.
  intros w text sentiment confidence k Hpast.
  unfold bind, insert_bad_prediction, get_recent_bad_predictions,
    bind, get, set_database, log, ret.
  cbn [database bad_predictions clock sqlite_sequence].
  rewrite order_by_timestamp_desc_snoc.
  rewrite insert_newest.
  - cbn [firstn]. eexists _, _. split; reflexivity.
  - apply (Permutation_Forall
             (Permutation_sym (order_by_timestamp_desc_perm _))).
    exact Hpast.
Qed.

(** X9.  On a table whose rowids are those AUTOINCREMENT gave, an insert
    returns a rowid larger than every rowid of the table (the sequence
    plus one), appends exactly one row, and leaves the rowids increasing
    and the tracker untouched. *)
Theorem insert_assigns_a_fresh_rowid :
  forall (w : World) (text sentiment : str) (confidence : float),
    well_sequenced (database w) ->
    exists row_id w' r,
      insert_bad_prediction text sentiment confidence w = (Ok row_id, w')
      /\ row_id = sqlite_sequence (database w) + 1
      /\ bad_predictions (database w') = bad_predictions (database w) ++ [r]
      /\ id r = row_id
      /\ Forall (fun x => id x < row_id) (bad_predictions (database w))
      /\ well_sequenced (database w')
      /\ email_tracker (database w') = email_tracker (database w).
Proof.
  intros w text sentiment confidence [Hs Hb].
  unfold insert_bad_prediction, bind, get, set_database, log, ret.
  cbn [database bad_predictions sqlite_sequence email_tracker].
  eexists _, _, _. split; [reflexivity|].
  cbn [database bad_predictions sqlite_sequence email_tracker id].
  assert (Hlt : Forall (fun x => id x < sqlite_sequence (database w) + 1)
                  (bad_predictions (database w))).
  { rewrite Forall_forall in *. intros x Hx. specialize (Hb x Hx). lia. }
  split; [reflexivity|]. split; [reflexivity|]. split; [reflexivity|].
  split; [exact Hlt|]. split; [|reflexivity].
  split; cbn [bad_predictions sqlite_sequence].
  - clear Hb. induction Hs as [|x l Hl IH Hx]; cbn.
    + repeat constructor.
    + inversion Hlt; subst. constructor; [apply IH; assumption|].
      apply Forall_app. split; [exact Hx|]. repeat constructor. assumption.
  - apply Forall_app. split.
    + rewrite Forall_forall in *. intros x Hx. specialize (Hb x Hx). lia.
    + repeat constructor. cbn. lia.
Qed.

(** [init_database] again, on any world. *)
Lemma init_database_twice (w : World) :
  init_database (snd (init_database w)) = init_database w.
Proof.
  unfold init_database, bind, get, set_database, ret. cbn [database].
  destruct (email_tracker (database w)) eqn:E; cbn; [rewrite E|]; reflexivity.
Qed.


(** X11.  On an initialised store [n] increments in a row return the
    values that follow the counter, one by one, and [get_email_counter]
    then reads the last of them; rows and [last_email_sent] are not
    touched. *)
Theorem counter_counts_its_increments :
  forall (w : World) (t : Tracker) (n : nat),
    email_tracker (database w) = Some t ->
    exists w',
      increment_many n w
      = (Ok (map (fun k => Runtime.report_count t + Z.of_nat k) (seq 1 n)), w')
      /\ get_email_counter w'
         = (Ok (Runtime.report_count t + Z.of_nat n), w')
      /\ bad_predictions (database w') = bad_predictions (database w)
      /\ email_tracker (database w')
         = Some {| Runtime.report_count := Runtime.report_count t + Z.of_nat n;
                   last_email_sent := last_email_sent t |}.
Proof.
  intros w t n; revert w t.
  induction n as [|n IH]; intros w t Ht.
  - exists w. cbn [increment_many seq map]. unfold ret, get_email_counter, bind, get.
    rewrite Ht. destruct t as [c l]. cbn. rewrite Z.add_0_r.
    repeat split; reflexivity.
  - cbn [increment_many]. unfold bind at 1.
    unfold increment_email_counter, bind, get, set_database, log, ret.
    fields. rewrite Ht. fields.
    match goal with |- context [increment_many n ?w1] =>
      destruct (IH w1 _ eq_refl) as (w' & E & Hg & Hr & Htr); rewrite E end.
    exists w'.
    cbn [Runtime.report_count last_email_sent database bad_predictions] in Hg, Hr, Htr.
    split.
    { cbn [seq map]. fields. rewrite <- (seq_shift n 1), map_map.
      replace (Runtime.report_count t + Z.of_nat 1)
        with (Runtime.report_count t + 1) by lia.
      rewrite (map_ext (fun x : nat => Runtime.report_count t + Z.of_nat (S x))
                       (fun k : nat => Runtime.report_count t + 1 + Z.of_nat k))
        by (intros k; lia).
      reflexivity. }
    split; [rewrite Hg; f_equal; f_equal; lia|].
    split; [exact Hr|]. rewrite Htr. f_equal. f_equal. lia.
Qed.

Lemma counter_raises_without_row (w : World) :
  email_tracker (database w) = None ->
  increment_email_counter w = (Raise TypeError, w)
  /\ get_email_counter w = (Raise TypeError, w).
Proof.
  intros H. unfold increment_email_counter, get_email_counter, bind, get, raise.
  rewrite H. split; reflexivity.
Qed.
End StoreFacts.

(* ================================================================== *)
(** * More on sequences of reports *)
(* ================================================================== *)

Section RunFacts.
Import Py Runtime Database EmailService Api Store Runs.
Local Open Scope Z_scope.

(** A property kept by every request that arrives after an allowed delay
    is kept by a sequence of such requests. *)
Lemma serve_keeps (P : World -> Prop) (Q : Z -> Prop) :
  (forall w seconds request,
     Q seconds -> P w ->
     P (snd (report_bad_prediction request (later seconds w)))) ->
  forall requests w,
    Forall (fun p => Q (fst p)) requests -> P w ->
    P (snd (serve requests w)).
Proof.
  intros Hstep requests; induction requests as [|[seconds request] rest IH];
    intros w HQ HP; [exact HP|].
  inversion HQ as [|? ? Hq HQ']; subst. cbn [fst] in Hq.
  rewrite serve_cons.
  specialize (Hstep w seconds request Hq HP).
  destruct (report_bad_prediction request (later seconds w)) as [answer w2].
  cbn [snd] in Hstep. specialize (IH w2 HQ' Hstep).
  destruct (serve rest w2) as [answers w3]. exact IH.
Qed.

(** One more invocation of the Notifier exactly when the count reaches a
    multiple of 3. *)
Lemma report_counts_notifications (w : World) (request : BadPredictionRequest)
  (base : Z) :
  (exists t, email_tracker (database w) = Some t
             /\ Z.of_nat (List.length (notified (trace w)))
                = Runtime.report_count t / 3 - base) ->
  forall seconds,
    exists t, email_tracker
                (database (snd (report_bad_prediction request (later seconds w))))
              = Some t
              /\ Z.of_nat (List.length
                   (notified (trace (snd (report_bad_prediction request
                                            (later seconds w))))))
                 = Runtime.report_count t / 3 - base.
Proof.
  intros (t & Ht & Hn) seconds.
  destruct (accepted request) eqn:Hacc.
  - destruct (report_accepted_notified (later seconds w) request t Ht Hacc)
      as (resp & w' & E & _ & _ & _ & (t' & Ht' & Hc' & _) & N & _).
    rewrite E. cbn [snd]. exists t'. split; [exact Ht'|].
    rewrite N, length_app, Hc'.
    change (trace (later seconds w)) with (trace w).
    destruct ((Runtime.report_count t + 1) mod 3 =? 0) eqn:Em.
    + apply Z.eqb_eq in Em. cbn [List.length].
      rewrite Nat2Z.inj_add, Hn. cbn [Z.of_nat Pos.of_succ_nat].
      Z.div_mod_to_equations. lia.
    + apply Z.eqb_neq in Em. cbn [List.length].
      rewrite Nat2Z.inj_add, Hn. cbn [Z.of_nat].
      Z.div_mod_to_equations. lia.
  - rewrite (report_rejected _ _ Hacc). cbn [snd]. exists t.
    split; [exact Ht | exact Hn].
Qed.

Lemma startup_frame d now key rcpt cfg provider :
  trace (startup d now key rcpt cfg provider) = []
  /\ clock (startup d now key rcpt cfg provider) = now
  /\ sqlite_sequence (database (startup d now key rcpt cfg provider))
     = sqlite_sequence d.
Proof.
  unfold startup, init_database, bind, get, set_database, ret. cbn [database].
  destruct (email_tracker d); cbn; repeat split; reflexivity.
Qed.

(** X12.  Over any sequence of requests the Notifier is invoked once for
    every multiple of 3 the counter passes: on a file that started empty,
    as many times as the number of accepted reports divided by 3, rounded
    down, whether or not the deliveries succeed. *)
Theorem one_notification_per_three_reports :
  forall d now key rcpt cfg provider requests,
    let w := startup d now key rcpt cfg provider in
    let answers := fst (serve requests w) in
    let w' := snd (serve requests w) in
    Z.of_nat (List.length (notified (trace w')))
    = counter (database w') / 3 - counter d / 3
    /\ (d = empty_database ->
        List.length (notified (trace w')) = (count_ok answers / 3)%nat).
Proof.
  intros d now key rcpt cfg provider requests w answers w'.
  destruct (startup_tracker d now key rcpt cfg provider) as (t & Ht & Hc & Hr).
  fold w in Ht, Hr.
  assert (Hinv : exists t', email_tracker (database w') = Some t'
                 /\ Z.of_nat (List.length (notified (trace w')))
                    = Runtime.report_count t' / 3 - counter d / 3).
  { subst w'.
    apply (serve_keeps
             (fun w => exists t', email_tracker (database w) = Some t'
                /\ Z.of_nat (List.length (notified (trace w)))
                   = Runtime.report_count t' / 3 - counter d / 3)
             (fun _ => True)).
    - intros w0 seconds request _ H.
      apply (report_counts_notifications w0 request _ H seconds).
    - apply Forall_forall. intros; exact I.
    - exists t. split; [exact Ht|]. rewrite Hc.
      subst w. rewrite (proj1 (startup_frame d now key rcpt cfg provider)).
      cbn. lia. }
  destruct Hinv as (t' & Ht' & Hn).
  assert (Hcnt : counter (database w') = Runtime.report_count t')
    by (unfold counter; rewrite Ht'; reflexivity).
  split; [rewrite Hcnt; exact Hn|].
  intros ->.
  destruct (serve_lockstep requests w t Ht) as (ans & w2 & t2 & E & Ht2 & Hc2 & _).
  subst answers w'. rewrite E in *. cbn [fst snd] in *.
  rewrite Ht2 in Ht'. injection Ht' as <-.
  apply Nat2Z.inj. rewrite Hn, Hc2, Hc, Nat2Z.inj_div.
  change (counter empty_database) with 0. change (Z.of_nat 3) with 3.
  change (0 / 3) with 0. rewrite Z.add_0_l. lia.
Qed.

Lemma third_report_arith (n : nat) :
  (S n mod 3 = 0)%nat ->
  (3 * (n / 3) = n - 2 /\ 2 <= n /\ 3 * (S n / 3) = S n /\ S n - 3 = n - 2)%nat.
Proof.
  replace (S n) with (n + 1)%nat by apply Nat.add_1_r. intros H.
  pose proof (Nat.div_mod_eq n 3) as E1.
  pose proof (Nat.div_mod_eq (n + 1) 3) as E2.
  pose proof (Nat.mod_upper_bound n 3 ltac:(discriminate)) as B1.
  pose proof (Nat.mod_upper_bound (n + 1) 3 ltac:(discriminate)) as B2.
  lia.
Qed.

Lemma other_report_arith (n : nat) :
  (S n mod 3 <> 0)%nat ->
  (3 * (S n / 3) = 3 * (n / 3) /\ 3 * (n / 3) <= n)%nat.
Proof.
  replace (S n) with (n + 1)%nat by apply Nat.add_1_r. intros H.
  pose proof (Nat.div_mod_eq n 3) as E1.
  pose proof (Nat.div_mod_eq (n + 1) 3) as E2.
  pose proof (Nat.mod_upper_bound n 3 ltac:(discriminate)) as B1.
  pose proof (Nat.mod_upper_bound (n + 1) 3 ltac:(discriminate)) as B2.
  lia.
Qed.

Lemma timestamps_increase_push (l : list Row) (r : Row) :
  timestamps_increase l ->
  Forall (fun x => timestamp x < timestamp r) l ->
  timestamps_increase (l ++ [r]).
Proof.
  induction l as [|x l IH]; cbn; intros H Hr; [split; constructor|].
  destruct H as [Hx Hl]. inversion Hr as [|? ? Hxr Hr']; subst.
  split; [|apply IH; assumption].
  apply Forall_app. split; [exact Hx | repeat constructor; exact Hxr].
Qed.

Lemma report_keeps_threes (w : World) (seconds : Z)
  (request : BadPredictionRequest) :
  1 <= seconds -> notified_in_threes w ->
  notified_in_threes (snd (report_bad_prediction request (later seconds w))).
Proof.
  intros Hs (t & Ht & Hc & Hinc & Hpast & Hlen & Hflat).
  destruct (accepted request) eqn:Hacc.
  - destruct (report_accepted_notified (later seconds w) request t Ht Hacc)
      as (resp & w' & E & _ & _ & Hrows & (t' & Ht' & Hc' & _) & N & _).
    destruct (report_accepted_timing (later seconds w) request t Ht Hacc)
      as (resp2 & w2 & E2 & Hck & _).
    rewrite E in E2. injection E2 as <- <-.
    rewrite E. cbn [snd].
    change (database (later seconds w)) with (database w) in Hrows.
    change (trace (later seconds w)) with (trace w) in N.
    change (clock (later seconds w)) with (clock w + seconds) in Hck.
    set (rows := bad_predictions (database w)) in *.
    set (r := row_of (later seconds w) request) in *.
    assert (Hr : timestamp r = clock w + seconds) by reflexivity.
    assert (Hnew : Forall (fun x => timestamp x < timestamp r) rows).
    { unfold stamped_in_past in Hpast. fold rows in Hpast.
      rewrite Forall_forall in *. intros x Hx. specialize (Hpast x Hx). lia. }
    assert (Hinc' : timestamps_increase (rows ++ [r]))
      by (apply timestamps_increase_push; assumption).
    exists t'. split; [exact Ht'|].
    rewrite Hrows.
    split; [rewrite Hc', Hc, length_app; cbn [List.length]; lia|].
    split; [exact Hinc'|].
    split.
    { unfold stamped_in_past. rewrite Hrows. apply Forall_app. split.
      - unfold stamped_in_past in Hpast. fold rows in Hpast.
        rewrite Forall_forall in *. intros x Hx. specialize (Hpast x Hx). lia.
      - repeat constructor. lia. }
    rewrite Hrows in N. rewrite N, Hc.
    rewrite (order_by_timestamp_desc_distinct _ Hinc').
    set (n := List.length rows) in *.
    assert (Hlen' : List.length (rows ++ [r]) = S n)
      by (rewrite length_app; cbn [List.length]; lia).
    destruct ((Z.of_nat n + 1) mod 3 =? 0) eqn:Em.
    + apply Z.eqb_eq in Em.
      assert (Hn3 : (S n mod 3 = 0)%nat).
      { apply Nat2Z.inj. rewrite Nat2Z.inj_mod, Nat2Z.inj_succ.
        unfold Z.succ. exact Em. }
      destruct (third_report_arith n Hn3) as (Hk & Hn2 & Hall & Hsub).
      split.
      { apply Forall_app. split; [exact Hlen|]. repeat constructor.
        rewrite length_firstn, length_rev, Hlen'. lia. }
      rewrite flat_map_app. cbn [flat_map]. rewrite app_nil_r.
      rewrite Hflat, Hk, Hlen'.
      rewrite firstn_rev, rev_involutive, Hlen'.
      rewrite Hall, <- Hlen', firstn_all, Hlen', Hsub.
      assert (Hf : firstn (n - 2) (rows ++ [r]) = firstn (n - 2) rows).
      { rewrite firstn_app.
        replace (n - 2 - List.length rows)%nat with 0%nat by (fold n; lia).
        cbn [firstn]. apply app_nil_r. }
      rewrite <- Hf. apply firstn_skipn.
    + apply Z.eqb_neq in Em.
      assert (Hn3 : (S n mod 3 <> 0)%nat).
      { intros H. apply Em. apply (f_equal Z.of_nat) in H.
        rewrite Nat2Z.inj_mod, Nat2Z.inj_succ in H. exact H. }
      destruct (other_report_arith n Hn3) as (Hk & Hle).
      rewrite app_nil_r. split; [exact Hlen|].
      rewrite Hflat, Hlen', Hk, firstn_app.
      replace (3 * (n / 3) - List.length rows)%nat with 0%nat by (fold n; lia).
      cbn [firstn]. rewrite app_nil_r. reflexivity.
  - rewrite (report_rejected _ _ Hacc). cbn [snd].
    exists t. change (database (later seconds w)) with (database w).
    change (trace (later seconds w)) with (trace w).
    split; [exact Ht|]. split; [exact Hc|]. split; [exact Hinc|].
    split; [|split; assumption].
    unfold stamped_in_past in *.
    change (database (later seconds w)) with (database w).
    change (clock (later seconds w)) with (clock w + seconds).
    rewrite Forall_forall in *. intros x Hx. specialize (Hpast x Hx). lia.
Qed.

(** X13.  When every request arrives at least one second after the
    previous answer, on a file that started empty, each notification
    carries the three reports accepted since the previous notification,
    the newest first: the payloads, each reversed and put end to end, are
    the rows of the table in the order of insertion, up to the last
    multiple of 3. *)
Theorem notifications_cover_each_three_reports_once :
  forall now key rcpt cfg provider requests,
    Forall (fun p => 1 <= fst p) requests ->
    let w' := snd (serve requests
                     (startup empty_database now key rcpt cfg provider)) in
    Forall (fun p => List.length p = 3%nat) (notified (trace w'))
    /\ flat_map (@rev Row) (notified (trace w'))
       = firstn (3 * (List.length (bad_predictions (database w')) / 3))
           (bad_predictions (database w'))
    /\ timestamps_increase (bad_predictions (database w')).
Proof.
  intros now key rcpt cfg provider requests Hq w'.
  assert (H : notified_in_threes w').
  { subst w'.
    apply (serve_keeps notified_in_threes (fun s => 1 <= s)).
    - intros w s request Hs Hw. apply report_keeps_threes; assumption.
    - exact Hq.
    - eexists. split; [reflexivity|]. cbn.
      repeat split; constructor. }
  destruct H as (t & _ & _ & Hinc & _ & Hlen & Hflat).
  split; [exact Hlen|]. split; [exact Hflat | exact Hinc].
Qed.

(** X14.  On a file that started empty the reports accepted are numbered
    1, 2, 3, ... in the order of their arrival, whatever requests are
    made: a rejected request uses up no rowid, and the sequence equals the
    number of rows. *)
Theorem rowids_number_the_accepted_reports :
  forall now key rcpt cfg provider requests,
    let w' := snd (serve requests
                     (startup empty_database now key rcpt cfg provider)) in
    map id (bad_predictions (database w'))
    = map Z.of_nat (seq 1 (List.length (bad_predictions (database w'))))
    /\ sqlite_sequence (database w')
       = Z.of_nat (List.length (bad_predictions (database w')))
    /\ List.length (bad_predictions (database w'))
       = count_ok (fst (serve requests
                          (startup empty_database now key rcpt cfg provider))).
Proof.
  intros now key rcpt cfg provider requests w'.
  assert (H : rowids_from_one w').
  { subst w'.
    apply (serve_keeps rowids_from_one (fun _ => True)).
    - intros w s request _ ((t & Ht) & Hseq & Hids).
      destruct (accepted request) eqn:Hacc.
      + destruct (report_accepted (later s w) request t Ht Hacc)
          as (resp & w2 & tail & E & _ & _ & Hrows & (t' & Ht' & _) & _).
        destruct (report_accepted_timing (later s w) request t Ht Hacc)
          as (resp3 & w3 & E3 & _ & _ & _ & _ & Hsq).
        rewrite E in E3. injection E3 as <- <-.
        rewrite E. cbn [snd].
        change (database (later s w)) with (database w) in Hrows, Hsq.
        split; [exists t'; exact Ht'|].
        rewrite Hrows, Hsq, length_app, map_app, Hids, Hseq.
        cbn [List.length map]. split; [lia|].
        rewrite Nat.add_1_r, seq_S, map_app. cbn [map].
        f_equal. f_equal. unfold row_of. cbn [id].
        change (database (later s w)) with (database w). rewrite Hseq. lia.
      + rewrite (report_rejected _ _ Hacc). cbn [snd].
        split; [exists t; exact Ht|]. split; assumption.
    - apply Forall_forall. intros; exact I.
    - split; [eexists; reflexivity|]. split; reflexivity. }
  destruct H as (_ & Hseq & Hids).
  split; [exact Hids|]. split; [exact Hseq|].
  destruct (startup_tracker empty_database now key rcpt cfg provider)
    as (t & Ht & _ & Hr).
  destruct (serve_lockstep requests _ t Ht) as (ans & w2 & t2 & E & _ & _ & Hl).
  subst w'. rewrite E in *. cbn [fst snd]. rewrite Hl, Hr. reflexivity.
Qed.
End RunFacts.

(* ================================================================== *)
(** * More on the text cleaning *)
(* ================================================================== *)

Section FilterFacts.
Import Py Re Cleaning.
Context {U : UnicodeData} {K : Nltk}.

Lemma keep_words_are_not_numbers :
  forallb (fun w => negb (isdigit w)) words_to_keep = true.
Proof. vm_compute. reflexivity. Qed.

(** X15.  The filter of [clean_text] keeps a word exactly when it is in
    [words_to_keep], or is no English stopword, is not made of digits only
    and has more than two characters: a word of [words_to_keep] passes
    whatever the stopword list holds and however short it is ([no],
    [ok]), and so reaches the output, processed. *)
Theorem filter_keeps_listed_or_long_words :
  forall (word : str),
    keep_token word
    = (mem word words_to_keep
       || (negb (mem word english_stopwords) && negb (isdigit word)
           && (2 <? List.length word)%nat))
    /\ (forall text processing,
          In word words_to_keep ->
          In word (word_tokenize (normalized_text text)) ->
          In (processor_of processing word) (clean_text text processing)).
Proof.
  intros word.
  assert (Heq : keep_token word
    = (mem word words_to_keep
       || (negb (mem word english_stopwords) && negb (isdigit word)
           && (2 <? List.length word)%nat))).
  { unfold keep_token, in_stop_words.
    destruct (mem word words_to_keep) eqn:Hk.
    - apply mem_In in Hk.
      pose proof (forallb_In _ _ word keep_words_are_not_numbers Hk) as Hd.
      cbv beta in Hd. rewrite Hd, andb_false_r, orb_true_r. reflexivity.
    - rewrite andb_true_r, orb_false_r. reflexivity. }
  split; [exact Heq|].
  intros text processing Hk Htok.
  unfold clean_text. fold (processor_of processing).
  apply in_map, filter_In. split; [exact Htok|].
  rewrite Heq. apply mem_In in Hk. rewrite Hk. reflexivity.
Qed.

End FilterFacts.

Section ScanFacts.
Import Py Re Cleaning Scan.
Context {U : UnicodeData}.

Lemma star_span (f : char -> bool) (s : str) :
  forall prev n, star f (fun _ _ m => Some m) prev s n = Some (n + span f s)%nat.
Proof.
  induction s as [|c r IH]; intros prev n; cbn [star span].
  - rewrite Nat.add_0_r. reflexivity.
  - destruct (f c); [|rewrite Nat.add_0_r; reflexivity].
    rewrite IH. f_equal. lia.
Qed.

Lemma span_app (f : char -> bool) (a b : str) :
  forallb f a = true ->
  match b with [] => True | x :: _ => f x = false end ->
  span f (a ++ b) = List.length a.
Proof.
  induction a as [|c a IH]; cbn [forallb app span List.length]; intros Ha Hb.
  - destruct b as [|x b]; [reflexivity|]. cbn. rewrite Hb. reflexivity.
  - apply andb_true_iff in Ha. destruct Ha as [Hc Ha].
    rewrite Hc, IH by assumption. reflexivity.
Qed.

(** A substitution whose pattern does not look behind does not depend on
    the character before the text. *)
Lemma sub_from_prev (m : option char -> str -> option nat) (repl : str) :
  (forall p p' s, m p s = m p' s) ->
  forall s p p' k, sub_from m repl p k s = sub_from m repl p' k s.
Proof.
  intros Hm s; induction s as [|c s IH]; intros p p' k; cbn [sub_from];
    [reflexivity|].
  destruct k as [|k]; [|apply IH].
  rewrite (Hm p p'). reflexivity.
Qed.

(** Characters that start no match are copied. *)
Lemma sub_from_copy (m : option char -> str -> option nat) (repl : str)
  (pre rest : str) :
  (forall p a b, pre = a ++ b -> b <> [] -> m p (b ++ rest) = None) ->
  forall p, exists p',
    sub_from m repl p 0 (pre ++ rest) = pre ++ sub_from m repl p' 0 rest.
Proof.
  induction pre as [|c pre IH]; intros Hno p.
  - exists p. reflexivity.
  - pose proof (Hno p [] (c :: pre) eq_refl ltac:(discriminate)) as H0.
    cbn [app] in H0. cbn [app sub_from]. rewrite H0.
    destruct (IH (fun p a b E Hb =>
                    Hno p (c :: a) b (f_equal (cons c) E) Hb) (Some c))
      as (p' & E).
    exists p'. rewrite E. reflexivity.
Qed.

(** The characters of a match are dropped. *)
Lemma sub_from_skip (m : option char -> str -> option nat) (repl : str)
  (a b : str) :
  forall p, exists p',
    sub_from m repl p (List.length a) (a ++ b) = sub_from m repl p' 0 b.
Proof.
  induction a as [|c a IH]; intros p.
  - exists p. reflexivity.
  - cbn [List.length app sub_from]. apply IH.
Qed.

(** The two tag patterns: a mark, then the longest run of word
    characters, at least one. *)
Lemma match_tag (mark : char) (prev : option char) (s : str) :
  match_here (Seq (Lit mark) (Plus isword)) prev s
  = match s with
    | d :: x :: r =>
        if (mark =? d)%N && isword x then Some (S (span isword (x :: r)))
        else None
    | _ => None
    end.
Proof.
  unfold match_here. cbn [run].
  destruct s as [|d [|x r]]; [reflexivity| |].
  - destruct (mark =? d)%N; reflexivity.
  - destruct (mark =? d)%N; [|reflexivity]. cbn [andb span].
    destruct (isword x); [|reflexivity].
    rewrite star_span. reflexivity.
Qed.

Lemma tag_deleted (mark : char) (pre tag post : str) :
  ~ In mark pre ->
  tag <> [] -> forallb isword tag = true ->
  match post with [] => True | x :: _ => isword x = false end ->
  sub (Seq (Lit mark) (Plus isword)) [] (pre ++ mark :: tag ++ post)
  = pre ++ sub (Seq (Lit mark) (Plus isword)) [] post.
Proof.
  intros Hpre Htag Hw Hpost. unfold sub.
  set (m := match_here (Seq (Lit mark) (Plus isword))).
  assert (Hm : forall p p' s, m p s = m p' s)
    by (intros; unfold m; rewrite !match_tag; reflexivity).
  destruct (sub_from_copy m [] pre (mark :: tag ++ post)) with (p := @None char)
    as (p1 & E1).
  { intros p a b E Hb. unfold m. rewrite match_tag.
    destruct b as [|d b]; [contradiction|]. cbn [app].
    assert (Hd : (mark =? d)%N = false).
    { apply N.eqb_neq. intros ->. apply Hpre. rewrite E.
      apply in_or_app. right. left. reflexivity. }
    destruct (b ++ mark :: tag ++ post); [reflexivity|].
    rewrite Hd. reflexivity. }
  rewrite E1. f_equal.
  destruct tag as [|x tag]; [contradiction|].
  cbn [app sub_from]. unfold m at 1. rewrite match_tag.
  cbn [forallb] in Hw. apply andb_true_iff in Hw. destruct Hw as [Hx Hw].
  rewrite N.eqb_refl, Hx. cbn [andb].
  change (x :: tag ++ post) with ((x :: tag) ++ post).
  rewrite span_app; [|cbn [forallb]; rewrite Hx, Hw; reflexivity | exact Hpost].
  destruct (sub_from_skip m [] (x :: tag) post (Some mark)) as (p2 & E2).
  cbn [app sub_from List.length] in E2 |- *. rewrite E2.
  apply sub_from_prev, Hm.
Qed.


End ScanFacts.

Section GlyphFacts.
Import Py Re Cleaning Scan.
Context {U : UnicodeData}.

(** Behind a character that is no whitespace neither pattern matches. *)
Lemma no_glyph_behind_nonspace (p : char) (s : str) :
  nonspace p = true ->
  match_here happy_pattern (Some p) s = None
  /\ match_here sad_pattern (Some p) s = None.
Proof.
  intros H. unfold match_here, happy_pattern, sad_pattern. cbn [run].
  rewrite H. split; reflexivity.
Qed.

Lemma sub_from_glued (m : option char -> str -> option nat) (repl : str) :
  (forall p s, nonspace p = true -> m (Some p) s = None) ->
  forall s p, nonspace p = true -> forallb nonspace s = true ->
              sub_from m repl (Some p) 0 s = s.
Proof.
  intros Hm s; induction s as [|c s IH]; intros p Hp Hs; [reflexivity|].
  cbn [forallb] in Hs. apply andb_true_iff in Hs. destruct Hs as [Hc Hs].
  cbn [sub_from]. rewrite (Hm p _ Hp), (IH c Hc Hs). reflexivity.
Qed.

(** Decide the tests on the characters of the text one by one. *)
Ltac crack H :=
  repeat (match type of H with
          | context [N.eqb ?a ?b] =>
              first [is_var a | is_var b];
              destruct (N.eqb_spec a b) as [?|?]; [subst|]
          | context [N.eqb ?a ?b] =>
              let v := eval vm_compute in (N.eqb a b) in
              change (N.eqb a b) with v in H
          | context [nonspace ?a] =>
              match goal with E : nonspace a = true |- _ => rewrite E in H end
          end; cbn -[nonspace N.eqb] in H);
  try discriminate H.

Ltac chars Hs :=
  cbn [forallb] in Hs;
  repeat (let Hc := fresh "Hc" in
          apply andb_true_iff in Hs; destruct Hs as [Hc Hs]).

Lemma happy_match_is_a_glyph (s : str) (k : nat) :
  forallb nonspace s = true ->
  match_here happy_pattern None s = Some k ->
  In s happy_glyphs.
Proof.
  intros Hs H.
  destruct s as [|e [|d [|m [|x r]]]];
    unfold match_here, happy_pattern in H; cbn -[nonspace N.eqb] in H;
    chars Hs; crack H; apply mem_In; vm_compute; reflexivity.
Qed.

Lemma sad_match_is_a_glyph (s : str) (k : nat) :
  forallb nonspace s = true ->
  match_here sad_pattern None s = Some k ->
  In s sad_glyphs.
Proof.
  intros Hs H.
  destruct s as [|e [|d [|m [|x r]]]];
    unfold match_here, sad_pattern in H; cbn -[nonspace N.eqb] in H;
    chars Hs; crack H; apply mem_In; vm_compute; reflexivity.
Qed.

End GlyphFacts.

(* ================================================================== *)
(** * The prediction endpoint *)
(* ================================================================== *)

Section PredictFacts.
Import Py Runtime Cleaning Predict.
Context {U : UnicodeData} {K : Nltk} {L : Sklearn}.

Lemma drop_while_all (f : char -> bool) (s : str) :
  drop_while f s = [] <-> forallb f s = true.
Proof.
  induction s as [|c s IH]; cbn; [tauto|].
  destruct (f c); cbn; [exact IH|]. split; discriminate.
Qed.

Lemma drop_while_head (f : char -> bool) (s : str) :
  match drop_while f s with [] => True | x :: _ => f x = false end.
Proof.
  induction s as [|c s IH]; cbn; [exact I|].
  destruct (f c) eqn:E; [exact IH | exact E].
Qed.

Lemma forallb_rev (f : char -> bool) (s : str) :
  forallb f (rev s) = forallb f s.
Proof.
  destruct (forallb f s) eqn:E.
  - rewrite forallb_forall in *. intros x Hx. apply E, in_rev, Hx.
  - destruct (forallb f (rev s)) eqn:E'; [|reflexivity].
    rewrite <- E. symmetry. rewrite forallb_forall in *.
    intros x Hx. apply E', in_rev. rewrite rev_involutive. exact Hx.
Qed.

(** [text.strip()] is empty exactly for a text of whitespace only. *)
Lemma strip_empty (s : str) : strip s = [] <-> forallb isspace s = true.
Proof.
  unfold strip. split.
  - intros H. apply (f_equal (@rev char)) in H.
    rewrite rev_involutive in H. cbn in H.
    apply drop_while_all in H. rewrite forallb_rev in H.
    pose proof (drop_while_head isspace s) as Hh.
    destruct (drop_while isspace s) as [|x r] eqn:E.
    + apply drop_while_all, E.
    + cbn in H. rewrite Hh in H. discriminate.
  - intros H. apply drop_while_all in H. rewrite H. reflexivity.
Qed.

Lemma blank_spec (s : str) : blank s = forallb isspace s.
Proof.
  destruct s as [|c s]; [reflexivity|]. unfold blank.
  destruct (forallb isspace (c :: s)) eqn:E.
  - apply strip_empty in E. rewrite E. reflexivity.
  - destruct (strip (c :: s)) eqn:E'; [|reflexivity].
    apply strip_empty in E'. congruence.
Qed.


End PredictFacts.

(* ================================================================== *)
(** * Whitespace: [re.sub(r'\s+', ' ', text)] and [text.strip()] *)
(* ================================================================== *)

Section SpaceFacts.
Import Py Re Cleaning Scan.
Context {U : UnicodeData}.

Lemma match_spaces (prev : option char) (s : str) :
  match_here spaces_pattern prev s
  = match s with
    | c :: r => if isspace c then Some (S (span isspace r)) else None
    | [] => None
    end.
Proof.
  unfold match_here, spaces_pattern. cbn [run].
  destruct s as [|c r]; [reflexivity|].
  destruct (isspace c); [|reflexivity].
  rewrite star_span. reflexivity.
Qed.

Lemma span_length (f : char -> bool) (s : str) : span f s <= List.length s.
Proof.
  induction s as [|c r IH]; cbn; [lia|]. destruct (f c); lia.
Qed.

(** The substitution is the one pass [collapse]; while a match is being
    dropped the pass is inside a run. *)
Lemma sub_spaces_collapse (s : str) :
  forall p,
    sub_from (match_here spaces_pattern) (u " ") p 0 s
    = collapse isspace false s
    /\ sub_from (match_here spaces_pattern) (u " ") p (span isspace s) s
       = collapse isspace true s.
Proof.
  induction s as [|c r IH]; intros p; [split; reflexivity|].
  assert (H0 : sub_from (match_here spaces_pattern) (u " ") p 0 (c :: r)
               = collapse isspace false (c :: r)).
  { cbn [sub_from collapse]. rewrite match_spaces.
    destruct (isspace c).
    - change (u " ") with [32%N]. cbn [app]. f_equal. apply IH.
    - f_equal. apply IH. }
  split; [exact H0|].
  cbn [span collapse]. destruct (isspace c) eqn:E.
  - cbn [sub_from]. apply IH.
  - rewrite H0. cbn [collapse]. rewrite E. reflexivity.
Qed.

Lemma collapse_outside (b : bool) (s : str) :
  starts_outside isspace s = true ->
  collapse isspace b s = collapse isspace false s.
Proof.
  destruct s as [|c r]; [reflexivity|]. cbn [starts_outside collapse].
  intros H. apply negb_true_iff in H. rewrite H. reflexivity.
Qed.

Lemma collapse_gap (gap b : str) :
  forallb isspace gap = true -> starts_outside isspace b = true ->
  collapse isspace true (gap ++ b) = collapse isspace false b.
Proof.
  induction gap as [|c gap IH]; cbn [app forallb]; intros Hg Hb.
  - apply collapse_outside, Hb.
  - apply andb_true_iff in Hg. destruct Hg as [Hc Hg].
    cbn [collapse]. rewrite Hc. apply IH; assumption.
Qed.

Lemma starts_outside_app (f : char -> bool) (a b : str) :
  a <> [] -> starts_outside f (a ++ b) = starts_outside f a.
Proof. destruct a; [contradiction | reflexivity]. Qed.

Lemma ends_outside_cons (f : char -> bool) (c : char) (a : str) :
  a <> [] -> ends_outside f (c :: a) = ends_outside f a.
Proof.
  intros Ha. unfold ends_outside. cbn [rev].
  apply starts_outside_app. intros E. apply Ha.
  apply (f_equal (@rev char)) in E. rewrite rev_involutive in E. exact E.
Qed.

Lemma collapse_run (gap b : str) :
  gap <> [] -> forallb isspace gap = true ->
  starts_outside isspace b = true ->
  forall a inside,
    ends_outside isspace a = true -> (a = [] -> inside = false) ->
    collapse isspace inside (a ++ gap ++ b)
    = collapse isspace inside a ++ 32%N :: collapse isspace false b.
Proof.
  intros Hne Hg Hb a.
  induction a as [|c a IH]; intros inside Ha Hin.
  - rewrite (Hin eq_refl).
    destruct gap as [|g gap]; [contradiction|].
    cbn [app forallb] in *. apply andb_true_iff in Hg. destruct Hg as [Hc Hg].
    cbn [collapse]. rewrite Hc.
    rewrite collapse_gap by assumption. reflexivity.
  - cbn [app collapse].
    destruct a as [|d a].
    + unfold ends_outside in Ha. cbn in Ha. apply negb_true_iff in Ha.
      rewrite Ha. cbn [app]. f_equal.
      apply (IH false); [reflexivity | reflexivity].
    + rewrite ends_outside_cons in Ha by discriminate.
      destruct (isspace c).
      * destruct inside.
        -- apply IH; [exact Ha | discriminate].
        -- cbn [app]. f_equal. apply IH; [exact Ha | discriminate].
      * cbn [app]. f_equal. apply IH; [exact Ha | discriminate].
Qed.

Lemma collapse_copy (a : str) :
  forallb nonspace a = true ->
  forall inside, collapse isspace inside a = a.
Proof.
  induction a as [|c a IH]; cbn [forallb collapse]; intros Ha inside;
    [reflexivity|].
  apply andb_true_iff in Ha. destruct Ha as [Hc Ha].
  unfold nonspace in Hc. apply negb_true_iff in Hc. rewrite Hc.
  f_equal. apply IH, Ha.
Qed.

(** X19.  [re.sub(r'\s+', ' ', text)] writes one space for each maximal
    run of whitespace, whatever the characters of the run (tabs, line
    breaks, several spaces), and treats what stands before and after the
    run on its own; a text without whitespace is left as it is. *)
Theorem whitespace_run_becomes_one_space :
  forall (a gap b : str),
    gap <> [] -> forallb isspace gap = true ->
    ends_outside isspace a = true -> starts_outside isspace b = true ->
    sub spaces_pattern (u " ") (a ++ gap ++ b)
    = sub spaces_pattern (u " ") a ++ 32%N :: sub spaces_pattern (u " ") b
    /\ (forallb nonspace a = true -> sub spaces_pattern (u " ") a = a).
Proof.
  intros a gap b Hne Hg Ha Hb. unfold sub.
  rewrite !(proj1 (sub_spaces_collapse _ None)).
  split.
  - apply collapse_run; try assumption. reflexivity.
  - intros H. apply collapse_copy, H.
Qed.

Lemma isspace_32 : isspace 32%N = true.
Proof. reflexivity. Qed.

Lemma collapse_filter (s : str) :
  forall inside,
    filter nonspace (collapse isspace inside s) = filter nonspace s.
Proof.
  induction s as [|c r IH]; intros inside; cbn [collapse filter];
    [reflexivity|].
  unfold nonspace at 2. destruct (isspace c) eqn:E; cbn [negb].
  - destruct inside; [apply IH|].
    cbn [filter]. unfold nonspace at 1. rewrite isspace_32. cbn [negb].
    apply IH.
  - cbn [filter]. unfold nonspace at 1. rewrite E. cbn [negb].
    f_equal. apply IH.
Qed.

Lemma collapse_spaces (s : str) :
  forall inside c,
    In c (collapse isspace inside s) -> isspace c = true -> c = 32%N.
Proof.
  induction s as [|d r IH]; intros inside c; cbn [collapse]; [intros []|].
  destruct (isspace d) eqn:E.
  - destruct inside; [apply IH|].
    intros [<-|H] Hc; [reflexivity | exact (IH _ _ H Hc)].
  - intros [<-|H] Hc; [congruence | exact (IH _ _ H Hc)].
Qed.

Lemma collapse_single (s : str) :
  forall inside,
    single_spaced isspace (collapse isspace inside s) = true
    /\ starts_outside isspace (collapse isspace true s) = true.
Proof.
  induction s as [|c r IH]; intros inside; [split; reflexivity|].
  cbn [collapse]. destruct (isspace c) eqn:E.
  - destruct (IH true) as [H1 H2].
    split; [|exact H2].
    destruct inside; [exact H1|].
    cbn [single_spaced]. rewrite H1, andb_true_r.
    destruct (collapse isspace true r) as [|d t]; [rewrite andb_false_r; reflexivity|].
    cbn [starts_outside] in H2. apply negb_true_iff in H2.
    rewrite H2, andb_false_r. reflexivity.
  - destruct (IH false) as [H1 _].
    split; [|cbn [starts_outside]; rewrite E; reflexivity].
    cbn [single_spaced]. rewrite E, H1. reflexivity.
Qed.

Lemma drop_while_split (f : char -> bool) (s : str) :
  exists a, s = a ++ drop_while f s /\ forallb f a = true.
Proof.
  induction s as [|c r IH]; [exists []; split; reflexivity|].
  cbn [drop_while]. destruct (f c) eqn:E.
  - destruct IH as (a & E1 & E2). exists (c :: a). cbn [app forallb].
    rewrite E, E2. split; [f_equal; exact E1 | reflexivity].
  - exists []. split; reflexivity.
Qed.

(** [strip] takes whitespace, and only whitespace, from the two ends. *)
Lemma strip_split (s : str) :
  exists a b,
    s = a ++ strip s ++ b
    /\ forallb isspace a = true /\ forallb isspace b = true
    /\ starts_outside isspace (strip s) = true
    /\ ends_outside isspace (strip s) = true.
Proof.
  destruct (drop_while_split isspace s) as (a & Ea & Ha).
  destruct (drop_while_split isspace (rev (drop_while isspace s)))
    as (b & Eb & Hb).
  assert (Ed : drop_while isspace s = strip s ++ rev b).
  { apply (f_equal (@rev char)) in Eb.
    rewrite rev_involutive, rev_app_distr in Eb. exact Eb. }
  exists a, (rev b). rewrite <- Ed.
  split; [exact Ea|]. split; [exact Ha|].
  split; [rewrite forallb_rev; exact Hb|].
  assert (He : ends_outside isspace (strip s) = true).
  { unfold ends_outside, strip. rewrite rev_involutive.
    pose proof (drop_while_head isspace (rev (drop_while isspace s))) as Hh.
    destruct (drop_while isspace (rev (drop_while isspace s))) as [|x t];
      [reflexivity|].
    cbn [starts_outside]. rewrite Hh. reflexivity. }
  split; [|exact He].
  pose proof (drop_while_head isspace s) as Hh. rewrite Ed in Hh.
  destruct (strip s) as [|x t]; [reflexivity|].
  cbn [app] in Hh. cbn [starts_outside]. rewrite Hh. reflexivity.
Qed.

Lemma filter_all_inside (a : str) :
  forallb isspace a = true -> filter nonspace a = [].
Proof.
  induction a as [|c a IH]; cbn [forallb filter]; intros H; [reflexivity|].
  apply andb_true_iff in H. destruct H as [Hc H].
  unfold nonspace at 1. rewrite Hc. cbn [negb]. apply IH, H.
Qed.

Lemma single_spaced_tail (f : char -> bool) (a t : str) :
  single_spaced f (a ++ t) = true -> single_spaced f t = true.
Proof.
  induction a as [|c a IH]; cbn [app single_spaced]; intros H; [exact H|].
  apply andb_true_iff in H. apply IH, H.
Qed.

Lemma single_spaced_front (f : char -> bool) (t b : str) :
  single_spaced f (t ++ b) = true -> single_spaced f t = true.
Proof.
  induction t as [|c t IH]; cbn [app single_spaced]; intros H; [reflexivity|].
  apply andb_true_iff in H. destruct H as [H1 H2].
  rewrite (IH H2), andb_true_r.
  destruct t as [|d t]; [rewrite andb_false_r; reflexivity | exact H1].
Qed.

(** X20.  After [re.sub(r'\s+', ' ', text)] and [text.strip()] the text
    holds the characters that are not whitespace, all of them and in their
    order; its only whitespace character is the space, never twice in a
    row, and never at the start or at the end. *)
Theorem whitespace_is_normalised :
  forall (s : str),
    let t := strip (sub spaces_pattern (u " ") s) in
    filter nonspace t = filter nonspace s
    /\ (forall c, In c t -> isspace c = true -> c = 32%N)
    /\ single_spaced isspace t = true
    /\ starts_outside isspace t = true
    /\ ends_outside isspace t = true.
Proof.
  intros s t. subst t. unfold sub.
  rewrite (proj1 (sub_spaces_collapse s None)).
  destruct (strip_split (collapse isspace false s))
    as (a & b & E & Ha & Hb & Hs & He).
  set (t := strip (collapse isspace false s)) in *.
  split.
  { rewrite <- (collapse_filter s false), E, !filter_app.
    rewrite (filter_all_inside a Ha), (filter_all_inside b Hb), app_nil_r.
    reflexivity. }
  split.
  { intros c Hc. apply (collapse_spaces s false c).
    rewrite E. apply in_or_app. right. apply in_or_app. left. exact Hc. }
  split; [|split; assumption].
  pose proof (proj1 (collapse_single s false)) as H. rewrite E in H.
  apply single_spaced_tail in H. apply single_spaced_front in H. exact H.
Qed.

End SpaceFacts.

(* ================================================================== *)
(** * Links: [re.sub(r'https?://\S+|www\.\S+', '', text)] *)
(* ================================================================== *)

Section LinkFacts.
Import Py Re Cleaning Scan.
Context {U : UnicodeData}.

Lemma url_ignores_prev (p p' : option char) (s : str) :
  match_here url_pattern p s = match_here url_pattern p' s.
Proof.
  unfold match_here, url_pattern. cbn -[nonspace N.eqb star].
  reflexivity.
Qed.

Lemma url_match (scheme body post : str) (p : option char) :
  In scheme [u "http://"; u "https://"; u "www."] ->
  body <> [] -> forallb nonspace body = true ->
  starts_outside nonspace post = true ->
  match_here url_pattern p (scheme ++ body ++ post)
  = Some (List.length scheme + List.length body).
Proof.
  intros Hs Hb Hn Hp.
  destruct body as [|x body]; [contradiction|].
  cbn [forallb] in Hn. apply andb_true_iff in Hn. destruct Hn as [Hx Hn].
  assert (Hspan : span nonspace (body ++ post) = List.length body).
  { apply span_app; [exact Hn|].
    destruct post as [|y post]; [exact I|].
    cbn [starts_outside] in Hp. apply negb_true_iff in Hp. exact Hp. }
  unfold match_here, url_pattern.
  destruct Hs as [<-|[<-|[<-|[]]]];
    cbn -[nonspace star]; rewrite Hx, star_span, Hspan.
  all: reflexivity.
Qed.

(** A match is replaced as a whole. *)
Lemma sub_from_match (m : option char -> str -> option nat) (repl : str)
  (a b : str) (p : option char) :
  a <> [] -> m p (a ++ b) = Some (List.length a) ->
  exists p',
    sub_from m repl p 0 (a ++ b) = repl ++ sub_from m repl p' 0 b.
Proof.
  intros Ha Hm. destruct a as [|c a]; [contradiction|].
  cbn [app List.length] in Hm. cbn [app sub_from]. rewrite Hm.
  destruct (sub_from_skip m repl a b (Some c)) as (p' & E).
  exists p'. rewrite E. reflexivity.
Qed.

(** A character that starts no match is copied. *)
Lemma sub_from_step (m : option char -> str -> option nat) (repl : str)
  (p : option char) (c : char) (rest : str) :
  m p (c :: rest) = None ->
  sub_from m repl p 0 (c :: rest) = c :: sub_from m repl (Some c) 0 rest.
Proof. intros H. cbn [sub_from]. rewrite H. reflexivity. Qed.

Lemma url_needs_h_or_w (p : option char) (c : char) (s : str) :
  c <> 104%N -> c <> 119%N -> match_here url_pattern p (c :: s) = None.
Proof.
  intros Hh Hw. unfold match_here, url_pattern. cbn -[nonspace star N.eqb].
  destruct (N.eqb_spec 104 c) as [E|_]; [congruence|].
  destruct (N.eqb_spec 119 c) as [E|_]; [congruence|].
  reflexivity.
Qed.


End LinkFacts.

(* ================================================================== *)
(** * The further properties at concrete processes and texts *)
(* ================================================================== *)

(** One failure, then the status 401: two attempts, one wait of 2
    seconds, no delivery. *)
Lemma delivery_ends_witness :
  exists w',
    EmailService._send_with_retry 3 Cases.refused_after_a_failure
    = (Runtime.Ok false, w')
    /\ Runtime.attempts_made (Runtime.trace w') = [1; 2]%nat
    /\ Runtime.sleeps (Runtime.trace w') = [2%Z]
    /\ Runtime.clock w' = 2%Z.
Proof.
  assert (Hf : Retry.fails_next Cases.refused_after_a_failure 1).
  { intros i Hi. destruct i as [|i]; [reflexivity | lia]. }
  destruct (delivery_ends_at_first_final_answer
              Cases.refused_after_a_failure 3 1 (Runtime.ApiException 401)
              ltac:(lia) Hf eq_refl eq_refl)
    as (w' & E & Ht & Ha & Hs & Hc & _).
  exists w'. split; [exact E|].
  split; [rewrite Ht; reflexivity|]. split; [rewrite Ht; reflexivity|].
  rewrite Hc. reflexivity.
Defined.

(** A provider that is rate-limited at every call: three attempts, waits
    of 2 and 4 seconds. *)
Lemma delivery_fails_witness :
  exists w',
    EmailService._send_with_retry 3 Cases.always_rate_limited
    = (Runtime.Ok false, w')
    /\ Runtime.sleeps (Runtime.trace w') = [2%Z; 4%Z]
    /\ Runtime.clock w' = 6%Z
    /\ Runtime.brevo_calls w' = 3%nat.
Proof.
  assert (Hf : Retry.fails_next Cases.always_rate_limited 3).
  { intros i _. reflexivity. }
  destruct (delivery_fails_when_budget_is_spent Cases.always_rate_limited 2 Hf)
    as ((w' & E & Ht & Hs & Hc & Hb & _) & _).
  exists w'. split; [exact E|].
  split; [rewrite Ht; reflexivity|]. split; [rewrite Hc; reflexivity|].
  rewrite Hb. reflexivity.
Defined.

(** The process without e-mail configuration. *)
Lemma unconfigured_notifier_witness :
  exists w',
    EmailService.send_bad_predictions_email [] Api.fresh_world
    = (Runtime.Ok false, w')
    /\ Runtime.attempts_made (Runtime.trace w') = []
    /\ Runtime.clock w' = 0%Z.
Proof.
  destruct (unconfigured_notifier_makes_no_attempt Api.fresh_world []
              eq_refl)
    as (w' & E & _ & Ha & _ & Hc & _).
  exists w'. split; [exact E|]. split; [rewrite Ha; reflexivity|].
  rewrite Hc. reflexivity.
Defined.


(** Six rows of one second come back in the order of their rowids. *)
Lemma tie_order_witness :
  exists recent w',
    Database.get_recent_bad_predictions 3 Cases.world_after_six
    = (Runtime.Ok recent, w')
    /\ map Runtime.id recent = [1%Z; 2%Z; 3%Z]
    /\ StronglySorted Store.before recent.
Proof.
  assert (Hw : Store.well_sequenced (Runtime.database Cases.world_after_six)).
  { vm_compute. split; repeat constructor; discriminate. }
  destruct (recent_predictions_tie_order Cases.world_after_six 3 Hw)
    as (recent & w' & E & Hs).
  exists recent, w'. split; [exact E|]. split; [|exact Hs].
  vm_compute in E. injection E as <- _. reflexivity.
Defined.

(** A third row, one second after the two stored ones. *)
Lemma read_back_witness :
  exists rest w',
    Runtime.bind
      (Database.insert_bad_prediction (Py.u "r3") Api.positif 0.5%float)
      (fun _ => Database.get_recent_bad_predictions 2)
      (Api.later 1 Api.world_after_two)
    = (Runtime.Ok ({| Runtime.id := 3;
                      Runtime.text := Py.u "r3";
                      Runtime.predicted_sentiment := Api.positif;
                      Runtime.confidence_score := 0.5%float;
                      Runtime.timestamp := 1 |} :: rest), w')
    /\ List.length rest = 1%nat.
Proof.
  assert (Hp : Forall (fun r => (Runtime.timestamp r
                                 < Runtime.clock (Api.later 1 Api.world_after_two))%Z)
                 (Runtime.bad_predictions
                    (Runtime.database (Api.later 1 Api.world_after_two)))).
  { vm_compute. repeat constructor. }
  destruct (inserted_row_is_read_back_first (Api.later 1 Api.world_after_two)
              (Py.u "r3") Api.positif 0.5%float 1 Hp)
    as (rest & w' & E & Hr).
  exists rest, w'. split; [exact E|]. rewrite Hr. reflexivity.
Defined.

(** The third insert on a process that stored two reports. *)
Lemma fresh_rowid_witness :
  exists w',
    Database.insert_bad_prediction (Py.u "r3") Api.positif 0.5%float
      Api.world_after_two
    = (Runtime.Ok 3%Z, w')
    /\ List.length (Runtime.bad_predictions (Runtime.database w')) = 3%nat.
Proof.
  assert (Hw : Store.well_sequenced (Runtime.database Api.world_after_two)).
  { vm_compute. split; repeat constructor; discriminate. }
  destruct (insert_assigns_a_fresh_rowid Api.world_after_two
              (Py.u "r3") Api.positif 0.5%float Hw)
    as (row_id & w' & r & E & Hid & Hrows & _).
  exists w'. split; [rewrite E, Hid; reflexivity|].
  rewrite Hrows. reflexivity.
Defined.

(** Three increments after two reports. *)
Lemma counter_increments_witness :
  exists w',
    Store.increment_many 3 Api.world_after_two
    = (Runtime.Ok [3%Z; 4%Z; 5%Z], w')
    /\ Database.get_email_counter w' = (Runtime.Ok 5%Z, w').
Proof.
  destruct (counter_counts_its_increments Api.world_after_two
              {| Runtime.report_count := 2; Runtime.last_email_sent := None |}
              3 eq_refl)
    as (w' & E & Hg & _).
  exists w'. split; [exact E | exact Hg].
Defined.

(** Four reports one second apart: one notification, with the first
    three rows, the newest first. *)
Lemma notifications_cover_witness :
  map (map Runtime.id)
    (Runtime.notified
       (Runtime.trace (snd (Api.serve Cases.one_per_second Api.fresh_world))))
  = [[3%Z; 2%Z; 1%Z]]
  /\ flat_map (@rev Runtime.Row)
       (Runtime.notified
          (Runtime.trace (snd (Api.serve Cases.one_per_second Api.fresh_world))))
     = firstn 3
         (Runtime.bad_predictions
            (Runtime.database
               (snd (Api.serve Cases.one_per_second Api.fresh_world)))).
Proof.
  assert (Hr : Forall (fun p => (1 <= fst p)%Z) Cases.one_per_second).
  { repeat constructor; discriminate. }
  pose proof (notifications_cover_each_three_reports_once
                0%Z None None false (fun _ => Runtime.Delivered)
                Cases.one_per_second Hr) as H.
  cbv zeta in H. destruct H as (_ & Hf & _).
  split; [vm_compute; reflexivity|].
  exact Hf.
Defined.



(** A tab, a space and a line break between two letters. *)
Lemma whitespace_run_witness :
  @Re.sub (@Cleaning.spaces_pattern Plain.ascii_only) (Py.u " ")
    (Py.u "a" ++ [9%N; 32%N; 10%N] ++ Py.u "b")
  = Py.u "a b".
Proof.
  refine (proj1 (@whitespace_run_becomes_one_space Plain.ascii_only
                   (Py.u "a") [9%N; 32%N; 10%N] (Py.u "b") _ _ _ _)).
  - discriminate.
  - reflexivity.
  - reflexivity.
  - reflexivity.
Defined.

